(** * Chapter 9, floating point representation: the IEEE 754 single
    precision encoder and decoder of [ch09_floating_point.py].

    The Python functions are embedded as Rocq functions.  A Python [float]
    is an IEEE 754 double: it is a [spec_float] of the Standard Library read
    at precision 53 and maximal exponent 1024, and its arithmetic is the
    correctly rounded arithmetic of [SpecFloat].  Python strings are
    [string]s, Python integers are [Z], and an exception is a value of
    [result].  The [print] calls of the source produce console output only
    and are left out. *)

From Stdlib Require Import ZArith List String Ascii Bool Lia.
From Stdlib Require Import Numbers.DecimalString.
From Stdlib Require Import Floats.SpecFloat.
Import ListNotations.

Local Open Scope string_scope.
Local Open Scope Z_scope.

(** ** Exceptions *)

Inductive exn : Set :=
| ValueError
| OverflowError
| IndexError
| StructError.

Inductive result (A : Type) : Type :=
| OK (a : A)
| Raise (e : exn).

Arguments OK {A} a.
Arguments Raise {A} e.

Definition bind {A B : Type} (r : result A) (k : A -> result B) : result B :=
  match r with
  | OK a => k a
  | Raise e => Raise e
  end.

Notation "x <- r ;; k" := (bind r (fun x => k))
  (at level 61, r at next level, right associativity).

Definition raises {A : Type} (r : result A) : Prop :=
  exists e, r = Raise e.

Definition returns {A : Type} (r : result A) : Prop :=
  exists a, r = OK a.

(** ** Python strings *)

Module PyStr.

(** [s[i:j]] for [0 <= i]; out-of-range bounds are clamped. *)
Definition slice (i j : nat) (s : string) : string :=
  substring i (j - i) s.

(** [s[i:]] *)
Definition slice_from (i : nat) (s : string) : string :=
  substring i (String.length s - i) s.

(** [s[:j]] *)
Definition slice_to (j : nat) (s : string) : string :=
  substring 0 j s.

(** [s[i]] raises [IndexError] out of range. *)
Definition item (i : nat) (s : string) : result string :=
  match String.get i s with
  | Some c => OK (String c EmptyString)
  | None => Raise IndexError
  end.

Fixpoint replicate (n : nat) (c : ascii) : string :=
  match n with
  | O => EmptyString
  | S n' => String c (replicate n' c)
  end.

(** [s.ljust(w, c)] *)
Definition ljust (w : nat) (c : ascii) (s : string) : string :=
  s ++ replicate (w - String.length s) c.

(** left padding, as the [0] flag of a format specification does *)
Definition rjust (w : nat) (c : ascii) (s : string) : string :=
  replicate (w - String.length s) c ++ s.

Fixpoint find (c : ascii) (s : string) : option nat :=
  match s with
  | EmptyString => None
  | String d s' =>
      if Ascii.eqb d c then Some O else option_map S (find c s')
  end.

(** [s.index(c)] raises [ValueError] when [c] does not occur. *)
Definition index (c : ascii) (s : string) : result nat :=
  match find c s with
  | Some i => OK i
  | None => Raise ValueError
  end.

(** [''.join(l)] *)
Definition join (l : list string) : string :=
  fold_right String.append EmptyString l.

End PyStr.

(** ** Python integers: printing and parsing *)

Module PyInt.

(** [str(n)] *)
Definition str (n : Z) : string :=
  NilZero.string_of_int (Z.to_int n).

Fixpoint bin_pos (p : positive) : string :=
  match p with
  | xH => "1"
  | xO q => bin_pos q ++ "0"
  | xI q => bin_pos q ++ "1"
  end.

Definition bin_abs (n : Z) : string :=
  match n with
  | Z0 => "0"
  | Zpos p => bin_pos p
  | Zneg p => bin_pos p
  end.

(** [bin(n)] *)
Definition bin (n : Z) : string :=
  match n with
  | Zneg _ => "-0b" ++ bin_abs n
  | _ => "0b" ++ bin_abs n
  end.

(** [format(n, '08b')] and [f'{n:08b}']: binary digits, zero-filled to
    a total width of 8, the sign counting in the width. *)
Definition format_08b (n : Z) : string :=
  match n with
  | Zneg _ => "-" ++ PyStr.rjust 7 "0" (bin_abs n)
  | _ => PyStr.rjust 8 "0" (bin_abs n)
  end.

(** [int(s, 2)].  The text is stripped of white space on both sides, may
    carry a sign and a [0b] prefix, and single underscores may separate
    the digits.  Characters are code points below 256. *)
Definition is_space (c : ascii) : bool :=
  let n := nat_of_ascii c in
  ((9 <=? n)%nat && (n <=? 13)%nat) || (n =? 32)%nat
  || (n =? 133)%nat || (n =? 160)%nat.

Fixpoint lstrip (s : string) : string :=
  match s with
  | String c s' => if is_space c then lstrip s' else s
  | EmptyString => s
  end.

Definition bit_value (c : ascii) : option Z :=
  if Ascii.eqb c "0" then Some 0
  else if Ascii.eqb c "1" then Some 1
  else None.

(** The digit scan: [acc] is the value read so far, [any] tells whether
    a character was consumed and [prev_us] whether the last one was an
    underscore.  It stops at the first character that is neither a binary
    digit nor an underscore and returns the rest of the text. *)
Fixpoint scan (s : string) (acc : Z) (any prev_us : bool)
  : option (Z * bool * string) :=
  match s with
  | EmptyString => if prev_us then None else Some (acc, any, s)
  | String c s' =>
      if Ascii.eqb c "_" then
        if prev_us then None else scan s' acc true true
      else
        match bit_value c with
        | Some d => scan s' (2 * acc + d) true false
        | None => if prev_us then None else Some (acc, any, s)
        end
  end.

Definition strip_sign (s : string) : bool * string :=
  match s with
  | String "+" s' => (false, s')
  | String "-" s' => (true, s')
  | _ => (false, s)
  end.

Definition strip_prefix (s : string) : string :=
  match s with
  | String "0" (String "b" s') | String "0" (String "B" s') =>
      match s' with
      | String "_" s'' => s''
      | _ => s'
      end
  | _ => s
  end.

Definition of_string2 (s : string) : result Z :=
  let (neg, s1) := strip_sign (lstrip s) in
  let s2 := strip_prefix s1 in
  match s2 with
  | String "_" _ => Raise ValueError
  | _ =>
      match scan s2 0 false false with
      | Some (v, true, rest) =>
          match lstrip rest with
          | EmptyString => OK (if neg then - v else v)
          | _ => Raise ValueError
          end
      | _ => Raise ValueError
      end
  end.

End PyInt.

(** ** Python floats (IEEE 754 double precision) *)

Module PyFloat.

Definition float : Set := spec_float.

Definition prec : Z := 53.
Definition emax : Z := 1024.

Definition zero : float := S754_zero false.

(** [float(n)] for an integer [n], as the mixed operators [float - int]
    and [float * int] convert their integer operand: the nearest
    double, [OverflowError] beyond the range of doubles. *)
Definition of_int (n : Z) : result float :=
  match binary_normalize prec emax n 0 false with
  | S754_infinity _ => Raise OverflowError
  | x => OK x
  end.

(** [int(x)]: truncation toward zero. *)
Definition to_int (x : float) : result Z :=
  match x with
  | S754_nan => Raise ValueError
  | S754_infinity _ => Raise OverflowError
  | S754_zero _ => OK 0
  | S754_finite s m e => OK (cond_Zopp s (Z.shiftl (Zpos m) e))
  end.

Definition abs (x : float) : float := SFabs x.

(** [x >= 0] *)
Definition ge0 (x : float) : bool := SFleb zero x.

(** [x == 0] *)
Definition eq0 (x : float) : bool := SFeqb x zero.

(** [x == y] *)
Definition eqb (x y : float) : bool := SFeqb x y.

(** [x < 0] *)
Definition lt0 (x : float) : bool := SFltb x zero.

(** [x - n] and [x * n] for an integer [n] *)
Definition sub_int (x : float) (n : Z) : result float :=
  y <- of_int n ;; OK (SFsub prec emax x y).

Definition mul_int (x : float) (n : Z) : result float :=
  y <- of_int n ;; OK (SFmul prec emax x y).

(** The double nearest to [n / d]: the value of a decimal literal such as
    [0.1] (= 1 / 10) or [12.375] (= 12375 / 1000). *)
Definition lit (n d : Z) : float :=
  SFdiv prec emax
    (binary_normalize prec emax n 0 false)
    (binary_normalize prec emax d 0 false).

Definition is_nan (x : float) : bool :=
  match x with
  | S754_nan => true
  | _ => false
  end.

Definition is_neg_zero (x : float) : bool :=
  match x with
  | S754_zero true => true
  | _ => false
  end.

End PyFloat.

(** ** The [struct] module, format ['f']

    A format string without a byte-order character packs in native mode:
    in the byte order of the host, so the host's byte order is a parameter
    of both [pack_f] and [unpack_f].  The sign and payload of a NaN are
    not part of [spec_float]: a NaN packs as the quiet NaN [0x7FC00000]. *)

Inductive byteorder : Set := BigEndian | LittleEndian.

Module Struct.

(** The C conversion [(float) x]: rounding to nearest, ties to even. *)
Definition to_single (x : PyFloat.float) : spec_float :=
  match x with
  | S754_finite s m e => binary_round 24 128 s m e
  | _ => x
  end.

(** The C conversion [(double) y], exact. *)
Definition of_single (y : spec_float) : PyFloat.float :=
  match y with
  | S754_finite s m e => binary_round PyFloat.prec PyFloat.emax s m e
  | _ => y
  end.

Definition sign_field (s : bool) : Z := if s then 2 ^ 31 else 0.

(** The 32-bit word of a single precision number. *)
Definition bits_of_single (y : spec_float) : Z :=
  match y with
  | S754_zero s => sign_field s
  | S754_infinity s => sign_field s + 255 * 2 ^ 23
  | S754_nan => 255 * 2 ^ 23 + 2 ^ 22
  | S754_finite s m e =>
      if 2 ^ 23 <=? Zpos m
      then sign_field s + (e + 150) * 2 ^ 23 + (Zpos m - 2 ^ 23)
      else sign_field s + Zpos m
  end.

Definition single_of_bits (w : Z) : spec_float :=
  let s := Z.testbit w 31 in
  let e := (w / 2 ^ 23) mod 256 in
  let m := w mod 2 ^ 23 in
  if e =? 0 then
    match m with
    | Zpos p => S754_finite s p (-149)
    | _ => S754_zero s
    end
  else if e =? 255 then
    if m =? 0 then S754_infinity s else S754_nan
  else
    match m + 2 ^ 23 with
    | Zpos p => S754_finite s p (e - 150)
    | _ => S754_nan
    end.

Definition bytes_be (w : Z) : list Z :=
  [ (w / 2 ^ 24) mod 256; (w / 2 ^ 16) mod 256; (w / 2 ^ 8) mod 256; w mod 256 ].

Definition word_be (l : list Z) : Z :=
  fold_left (fun acc b => acc * 256 + b) l 0.

Section Host.

Variable host : byteorder.

Definition order (l : list Z) : list Z :=
  match host with
  | BigEndian => l
  | LittleEndian => rev l
  end.

(** [struct.pack('f', x)] for a float [x].  In native mode the value is
    converted by the C cast and copied: there is no range check (the
    [OverflowError] of the standard modes ['<f'], ['>f'] is not raised),
    and a double beyond the range of single precision becomes an
    infinity. *)
Definition pack_f (x : PyFloat.float) : list Z :=
  order (bytes_be (bits_of_single (to_single x))).

(** [struct.unpack('f', buf)[0]]: [struct.error] unless the buffer
    holds exactly four bytes. *)
Definition unpack_f (buf : list Z) : result PyFloat.float :=
  match buf with
  | [_; _; _; _] => OK (of_single (single_of_bits (word_be (order buf))))
  | _ => Raise StructError
  end.

End Host.

End Struct.

(** [bytearray.append(b)] raises [ValueError] unless [0 <= b < 256]. *)
Definition bytearray_append (buf : list Z) (b : Z) : result (list Z) :=
  if (0 <=? b) && (b <? 256) then OK (buf ++ [b])%list else Raise ValueError.

(** ** The three functions of [ch09_floating_point.py] *)

(** The dictionary returned by [decimal_to_ieee754_single]. *)
Record ieee754_fields : Set := {
  full : string;
  sign : string;
  exponent : string;
  mantissa : string;
  sign_val : string;
  exponent_val : Z;
  exponent_biased : Z
}.

(** The local variables of [manual_float_conversion] at its [return]. *)
Record manual_steps : Set := {
  m_sign : Z;
  m_int_binary : string;
  m_frac_binary : string;
  m_exponent : Z;
  m_mantissa : string;
  m_biased_exponent : Z;
  m_exponent_binary : string;
  m_mantissa_binary : string;
  m_final : string
}.

Section Codec.

Variable host : byteorder.

Definition decimal_to_ieee754_single (decimal_num : PyFloat.float)
  : result ieee754_fields :=
  let packed := Struct.pack_f host decimal_num in
  let ieee_bits := PyStr.join (map PyInt.format_08b packed) in
  sign_bit <- PyStr.item 0 ieee_bits ;;
  let exponent := PyStr.slice 1 9 ieee_bits in
  let mantissa := PyStr.slice 9 32 ieee_bits in
  let sign_val := if String.eqb sign_bit "1" then "-" else "+" in
  e1 <- PyInt.of_string2 exponent ;;
  e2 <- PyInt.of_string2 exponent ;;
  OK {| full := ieee_bits;
        sign := sign_bit;
        exponent := exponent;
        mantissa := mantissa;
        sign_val := sign_val;
        exponent_val := e1 - 127;
        exponent_biased := e2 |}.

(** [range(0, 32, 8)] *)
Definition byte_starts : list nat := [0; 8; 16; 24]%nat.

(** The [for] loop of the decoder over the remaining start indices. *)
Fixpoint fill_bytes (starts : list nat) (ieee_bits : string)
  (bytes_array : list Z) : result (list Z) :=
  match starts with
  | [] => OK bytes_array
  | i :: rest =>
      byte <- PyInt.of_string2 (PyStr.slice i (i + 8) ieee_bits) ;;
      bytes_array <- bytearray_append bytes_array byte ;;
      fill_bytes rest ieee_bits bytes_array
  end.

Definition ieee754_single_to_decimal (ieee_bits : string)
  : result PyFloat.float :=
  bytes_array <- fill_bytes byte_starts ieee_bits [] ;;
  Struct.unpack_f host bytes_array.

End Codec.

(** Step 1 of the manual conversion. *)
Definition manual_sign (decimal_num : PyFloat.float) : Z :=
  if PyFloat.ge0 decimal_num then 0 else 1.

(** The fractional loop, [n] iterations left; it leaves early when the
    remainder becomes zero. *)
Fixpoint frac_loop (n : nat) (temp : PyFloat.float) (frac_binary : string)
  : result string :=
  match n with
  | O => OK frac_binary
  | S n' =>
      temp <- PyFloat.mul_int temp 2 ;;
      bit <- PyFloat.to_int temp ;;
      let frac_binary := frac_binary ++ PyInt.str bit in
      temp <- PyFloat.sub_int temp bit ;;
      if PyFloat.eq0 temp then OK frac_binary
      else frac_loop n' temp frac_binary
  end.

Definition manual_trace (decimal_num : PyFloat.float) : result manual_steps :=
  let sign := manual_sign decimal_num in
  let abs_num := PyFloat.abs decimal_num in
  integer_part <- PyFloat.to_int abs_num ;;
  fractional_part <- PyFloat.sub_int abs_num integer_part ;;
  let int_binary :=
    if 0 <? integer_part
    then PyStr.slice_from 2 (PyInt.bin integer_part)
    else "0" in
  frac_binary <- frac_loop 23 fractional_part "" ;;
  normal <-
    (if 0 <? integer_part then
       OK (Z.of_nat (String.length int_binary) - 1,
           PyStr.slice_from 1 int_binary ++ frac_binary)
     else
       first_one <- PyStr.index "1" frac_binary ;;
       OK (- (Z.of_nat first_one + 1),
           PyStr.slice_from (first_one + 1) frac_binary)) ;;
  let '(exponent, mantissa) := normal in
  let biased_exponent := exponent + 127 in
  let exponent_binary := PyInt.format_08b biased_exponent in
  let mantissa_binary := PyStr.ljust 23 "0" (PyStr.slice_to 23 mantissa) in
  let sign_bit := PyInt.str sign in
  let final := sign_bit ++ exponent_binary ++ mantissa_binary in
  OK {| m_sign := sign;
        m_int_binary := int_binary;
        m_frac_binary := frac_binary;
        m_exponent := exponent;
        m_mantissa := mantissa;
        m_biased_exponent := biased_exponent;
        m_exponent_binary := exponent_binary;
        m_mantissa_binary := mantissa_binary;
        m_final := final |}.

Definition manual_float_conversion (decimal_num : PyFloat.float)
  : result string :=
  steps <- manual_trace decimal_num ;; OK (m_final steps).

(** ** Auxiliary definitions for the statements *)

Definition is_bit (c : ascii) : bool :=
  Ascii.eqb c "0" || Ascii.eqb c "1".

Fixpoint all_bits (s : string) : bool :=
  match s with
  | EmptyString => true
  | String c s' => is_bit c && all_bits s'
  end.

(** The number a string of binary digits denotes, most significant digit
    first, continuing from [acc]. *)
Fixpoint bits_value (s : string) (acc : Z) : Z :=
  match s with
  | EmptyString => acc
  | String c s' => bits_value s' (2 * acc + (if Ascii.eqb c "1" then 1 else 0))
  end.

Definition nonempty (s : string) : bool :=
  match s with
  | EmptyString => false
  | String _ _ => true
  end.

Definition byte_check (b : Z) : bool :=
  (String.length (PyInt.format_08b b) =? 8)%nat
  && all_bits (PyInt.format_08b b)
  && (bits_value (PyInt.format_08b b) 0 =? b).

Definition is_byte (b : Z) : Prop := 0 <= b < 256.

Definition is_infinite (y : spec_float) : bool :=
  match y with
  | S754_infinity _ => true
  | _ => false
  end.

(** A slice the loop accepts: [int(., 2)] reads it as a byte. *)
Definition slice_ok (s : string) (i : nat) : Prop :=
  exists b, PyInt.of_string2 (PyStr.slice i (i + 8) s) = OK b /\ is_byte b.

(** ** The values the statements are about *)

(** The literals of the source and of the specification. *)
Definition f_0_5 : PyFloat.float := PyFloat.lit 5 10.
Definition f_1_0 : PyFloat.float := PyFloat.lit 1 1.
Definition f_2_0 : PyFloat.float := PyFloat.lit 2 1.
Definition f_neg_1_0 : PyFloat.float := SFopp (PyFloat.lit 1 1).
Definition f_0_25 : PyFloat.float := PyFloat.lit 25 100.
Definition f_6_5 : PyFloat.float := PyFloat.lit 65 10.
Definition f_12_375 : PyFloat.float := PyFloat.lit 12375 1000.
Definition f_0_1 : PyFloat.float := PyFloat.lit 1 10.
Definition f_pos_zero : PyFloat.float := S754_zero false.
Definition f_neg_zero : PyFloat.float := S754_zero true.

(** [2.0 ** k] *)
Definition pow2 (k : Z) : PyFloat.float :=
  SFldexp PyFloat.prec PyFloat.emax (PyFloat.lit 1 1) k.

(** [0.5 + 2.0 ** -24]: a single precision number with 24 significant
    bits and unbiased exponent -1. *)
Definition f_half_plus_ulp : PyFloat.float :=
  SFadd PyFloat.prec PyFloat.emax f_0_5 (pow2 (-24)).

Definition roundtrip_values : list PyFloat.float :=
  [f_0_5; f_1_0; f_2_0; f_neg_1_0; f_0_25; f_6_5; f_12_375].

(** [ieee754_single_to_decimal(decimal_to_ieee754_single(x)['full'])] *)
Definition roundtrip (host : byteorder) (x : PyFloat.float)
  : result PyFloat.float :=
  r <- decimal_to_ieee754_single host x ;;
  ieee754_single_to_decimal host (full r).

(** The specification's mantissa field, in its words: the first [w] bits
    of the exact binary expansion of [|x|] after its leading one, without
    rounding, zero-padded on the right.  The expansion of the double
    [m * 2^e] has the binary digits of [m] as its significant digits. *)
Definition expansion_mantissa (w : nat) (x : PyFloat.float) : string :=
  match x with
  | S754_finite _ m _ =>
      PyStr.ljust w "0" (PyStr.slice_to w (PyStr.slice_from 1 (PyInt.bin_pos m)))
  | _ => PyStr.replicate w "0"
  end.

(** The encoder of the second claim of agreement: the text the native
    packer path returns. *)
Definition native_bits (host : byteorder) (x : PyFloat.float) : result string :=
  r <- decimal_to_ieee754_single host x ;; OK (full r).

(** The exponent of a finite non-zero double [m * 2^e]: its magnitude
    lies between [2^E] and [2^(E+1)] for [E] the unbiased exponent, and
    the biased exponent of single precision is [E + 127]. *)
Definition unbiased_exponent (m : positive) (e : Z) : Z :=
  Zpos (digits2_pos m) + e - 1.

Definition biased_exponent (m : positive) (e : Z) : Z :=
  unbiased_exponent m e + 127.

(** The text of the decoder with its four bytes in the order of the
    host, most significant first, and the 32-bit word it denotes. *)
Definition reorder_text (host : byteorder) (s : string) : string :=
  match host with
  | BigEndian => s
  | LittleEndian =>
      PyStr.slice 24 32 s ++ PyStr.slice 16 24 s
      ++ PyStr.slice 8 16 s ++ PyStr.slice 0 8 s
  end.

Definition word_of_text (host : byteorder) (s : string) : Z :=
  bits_value (reorder_text host s) 0.

(** The categories of a decoded value, and the table of the specification
    that keys them on the exponent and mantissa fields of the word. *)
Inductive category : Set := Normal | Subnormal | Zero | Infinity | NaN.

Definition classify (y : spec_float) : category :=
  match y with
  | S754_zero _ => Zero
  | S754_infinity _ => Infinity
  | S754_nan => NaN
  | S754_finite _ m _ => if 2 ^ 23 <=? Zpos m then Normal else Subnormal
  end.

Definition field_category (w : Z) : category :=
  let e := (w / 2 ^ 23) mod 256 in
  let m := w mod 2 ^ 23 in
  if e =? 0 then (if m =? 0 then Zero else Subnormal)
  else if e =? 255 then (if m =? 0 then Infinity else NaN)
  else Normal.

(** The sign of a number that is not a NaN. *)
Definition sign_of (x : spec_float) : bool :=
  match x with
  | S754_zero s | S754_infinity s | S754_finite s _ _ => s
  | S754_nan => false
  end.

Definition first_digit_check (b : Z) : bool :=
  match String.get 0 (PyInt.format_08b b) with
  | Some c => Ascii.eqb c (if 128 <=? b then "1"%char else "0"%char)
  | None => false
  end.

(** Canonical single precision numbers: what [bits_of_single] encodes
    without loss. *)
Definition single_canonical (y : spec_float) : Prop :=
  match y with
  | S754_finite _ q e =>
      Zpos q < 2 ^ 24 /\ -149 <= e <= 104 /\ (Zpos q < 2 ^ 23 -> e = -149)
  | _ => True
  end.

(** ** The manual conversion on exact integers *)

(** The double of value [n / 2^k]. *)
Definition dyadic (n k : Z) : PyFloat.float :=
  binary_normalize PyFloat.prec PyFloat.emax n (- k) false.

(** The [w] binary digits of [n < 2^w], most significant first. *)
Fixpoint digits_of (w : nat) (n : Z) : string :=
  match w with
  | O => ""
  | S w' =>
      PyInt.str (n / 2 ^ Z.of_nat w') ++ digits_of w' (n mod 2 ^ Z.of_nat w')
  end.

(** The digits the fractional loop produces for [n / 2^w] in at most [i]
    iterations: the loop on exact integers. *)
Fixpoint frac_digits (i w : nat) (n : Z) : string :=
  match i with
  | O => ""
  | S i' =>
      match w with
      | O => "0"
      | S w' =>
          PyInt.str (n / 2 ^ Z.of_nat w')
          ++ (if n mod 2 ^ Z.of_nat w' =? 0 then ""
              else frac_digits i' w' (n mod 2 ^ Z.of_nat w'))
      end
  end.

(** [s[:j].ljust(j, '0')] *)
Definition pad_take (j : nat) (s : string) : string :=
  PyStr.ljust j "0" (PyStr.slice_to j s).

(** * Properties *)

(** ** Strings of binary digits *)

Lemma is_bit_cases (c : ascii) :
  is_bit c = true -> c = "0"%char \/ c = "1"%char.
Proof.
  unfold is_bit. intros H. apply orb_true_iff in H.
  destruct H as [H | H]; apply Ascii.eqb_eq in H; auto.
Qed.

Lemma all_bits_cons (c : ascii) (s : string) :
  all_bits (String c s) = true ->
  (c = "0"%char \/ c = "1"%char) /\ all_bits s = true.
Proof.
  simpl. intros H. apply andb_true_iff in H. destruct H as [H1 H2].
  split; [now apply is_bit_cases | exact H2].
Qed.

Lemma all_bits_app (s t : string) :
  all_bits (s ++ t) = all_bits s && all_bits t.
Proof.
  induction s as [| c s IH]; simpl; [reflexivity |].
  now rewrite IH, andb_assoc.
Qed.

Lemma length_app (s t : string) :
  String.length (s ++ t) = (String.length s + String.length t)%nat.
Proof.
  induction s as [| c s IH]; simpl; [reflexivity | now rewrite IH].
Qed.

Lemma all_bits_substring (s : string) :
  all_bits s = true -> forall i n, all_bits (substring i n s) = true.
Proof.
  induction s as [| c s IH]; intros H i n.
  - destruct i, n; reflexivity.
  - simpl in H. apply andb_true_iff in H. destruct H as [Hc Hs].
    destruct i as [| i].
    + destruct n as [| n]; simpl; [reflexivity |].
      now rewrite Hc, IH.
    + simpl. now apply IH.
Qed.

Lemma length_substring (s : string) :
  forall i n,
    String.length (substring i n s) = Nat.min n (String.length s - i).
Proof.
  induction s as [| c s IH]; intros i n.
  - destruct i, n; reflexivity.
  - destruct i as [| i].
    + destruct n as [| n]; simpl; [reflexivity |].
      rewrite IH. now rewrite Nat.sub_0_r.
    + simpl. apply IH.
Qed.

Lemma substring_substring (s : string) :
  forall i n k, (i + n <= k)%nat ->
    substring i n (substring 0 k s) = substring i n s.
Proof.
  induction s as [| c s IH]; intros i n k H.
  - destruct k; destruct i, n; reflexivity.
  - destruct k as [| k].
    + assert (i = O) by lia. assert (n = O) by lia. subst. reflexivity.
    + destruct i as [| i].
      * destruct n as [| n]; simpl; [reflexivity |].
        f_equal. apply (IH O n k). lia.
      * simpl. apply IH. lia.
Qed.

Lemma substring_empty (s : string) :
  forall i n, (String.length s <= i)%nat -> substring i n s = EmptyString.
Proof.
  induction s as [| c s IH]; intros i n H.
  - destruct i, n; reflexivity.
  - destruct i as [| i]; simpl in H; [lia |].
    simpl. apply IH. lia.
Qed.

Lemma nonempty_length (s : string) :
  (0 < String.length s)%nat -> nonempty s = true.
Proof. destruct s; simpl; [lia | reflexivity]. Qed.

Lemma bits_value_bounds (s : string) :
  forall acc, 0 <= acc ->
    2 ^ Z.of_nat (String.length s) * acc <= bits_value s acc
    < 2 ^ Z.of_nat (String.length s) * (acc + 1).
Proof.
  induction s as [| c s IH]; intros acc Hacc.
  - cbn [bits_value String.length]. change (Z.of_nat 0) with 0.
    rewrite Z.pow_0_r. lia.
  - cbn [bits_value String.length].
    rewrite Nat2Z.inj_succ, Z.pow_succ_r by lia.
    assert (Hp : 0 < 2 ^ Z.of_nat (String.length s)) by (apply Z.pow_pos_nonneg; lia).
    destruct (Ascii.eqb c "1").
    + specialize (IH (2 * acc + 1) ltac:(lia)).
      set (P := 2 ^ Z.of_nat (String.length s)) in *.
      replace (P * (2 * acc + 1 + 1)) with (2 * P * (acc + 1)) in IH by ring.
      replace (P * (2 * acc + 1)) with (2 * P * acc + P) in IH by ring.
      lia.
    + specialize (IH (2 * acc + 0) ltac:(lia)).
      set (P := 2 ^ Z.of_nat (String.length s)) in *.
      replace (P * (2 * acc + 0 + 1)) with (2 * P * acc + P) in IH by ring.
      replace (P * (2 * acc + 0)) with (2 * P * acc) in IH by ring.
      replace (2 * P * (acc + 1)) with (2 * P * acc + 2 * P) by ring.
      lia.
Qed.

Lemma scan_bits (s : string) :
  all_bits s = true ->
  forall acc any,
    PyInt.scan s acc any false
    = Some (bits_value s acc, any || nonempty s, EmptyString).
Proof.
  induction s as [| c s IH]; intros H acc any.
  - simpl. now rewrite orb_false_r.
  - apply all_bits_cons in H. destruct H as [[-> | ->] Hs];
      cbn [PyInt.scan bits_value nonempty]; simpl Ascii.eqb;
      cbv [PyInt.bit_value]; simpl Ascii.eqb; cbv iota;
      rewrite (IH Hs); rewrite orb_true_r; reflexivity.
Qed.

Lemma lstrip_bits (s : string) :
  all_bits s = true -> PyInt.lstrip s = s.
Proof.
  destruct s as [| c s]; [reflexivity |].
  intros H. apply all_bits_cons in H. now destruct H as [[-> | ->] _].
Qed.

Lemma strip_sign_bits (s : string) :
  all_bits s = true -> PyInt.strip_sign s = (false, s).
Proof.
  destruct s as [| c s]; [reflexivity |].
  intros H. apply all_bits_cons in H. now destruct H as [[-> | ->] _].
Qed.

Lemma strip_prefix_bits (s : string) :
  all_bits s = true -> PyInt.strip_prefix s = s.
Proof.
  destruct s as [| c s]; [reflexivity |].
  intros H. apply all_bits_cons in H. destruct H as [[-> | ->] Hs].
  - destruct s as [| d s]; [reflexivity |].
    apply all_bits_cons in Hs. now destruct Hs as [[-> | ->] _].
  - reflexivity.
Qed.

(** [int(s, 2)] on a non-empty string of binary digits returns the number
    the digits denote. *)
Lemma of_string2_bits (s : string) :
  all_bits s = true -> nonempty s = true ->
  PyInt.of_string2 s = OK (bits_value s 0).
Proof.
  intros H Hne. unfold PyInt.of_string2.
  rewrite (lstrip_bits _ H), (strip_sign_bits _ H), (strip_prefix_bits _ H).
  rewrite (scan_bits _ H), Hne.
  destruct s as [| c s]; [discriminate |].
  apply all_bits_cons in H. now destruct H as [[-> | ->] _].
Qed.

Lemma of_string2_bits_range (s : string) :
  all_bits s = true -> nonempty s = true -> (String.length s <= 8)%nat ->
  exists b, PyInt.of_string2 s = OK b /\ 0 <= b < 256.
Proof.
  intros H Hne Hlen. exists (bits_value s 0). split.
  - now apply of_string2_bits.
  - pose proof (bits_value_bounds s 0 ltac:(lia)) as Hb.
    assert (2 ^ Z.of_nat (String.length s) <= 2 ^ 8)
      by (apply Z.pow_le_mono_r; lia).
    change (2 ^ 8) with 256 in *. lia.
Qed.

(** Every exception of [int(s, 2)] is a [ValueError]. *)
Lemma of_string2_raises (s : string) (e : exn) :
  PyInt.of_string2 s = Raise e -> e = ValueError.
Proof.
  unfold PyInt.of_string2.
  destruct (PyInt.strip_sign (PyInt.lstrip s)) as [neg s1].
  destruct (PyInt.strip_prefix s1) as [| c s2].
  - simpl. congruence.
  - destruct (PyInt.scan (String c s2) 0 false false) as [[[v any] rest] |].
    + destruct any, (PyInt.lstrip rest);
        destruct (Ascii.eqb_spec c "_"); subst; try congruence;
        repeat match goal with
               | |- context [match ?c with Ascii _ _ _ _ _ _ _ _ => _ end] =>
                   destruct c as [[] [] [] [] [] [] [] []]
               end; congruence.
    + destruct c as [[] [] [] [] [] [] [] []]; congruence.
Qed.

Lemma bytearray_append_raises (buf : list Z) (b : Z) (e : exn) :
  bytearray_append buf b = Raise e -> e = ValueError.
Proof.
  unfold bytearray_append. destruct (_ && _); congruence.
Qed.

(** ** Bytes and their eight binary digits *)

Lemma byte_check_all :
  forallb (fun n => byte_check (Z.of_nat n)) (seq 0 256) = true.
Proof. vm_compute. reflexivity. Qed.

Lemma byte_check_range (b : Z) : 0 <= b < 256 -> byte_check b = true.
Proof.
  intros Hb. pose proof byte_check_all as H.
  rewrite forallb_forall in H.
  specialize (H (Z.to_nat b)). rewrite Z2Nat.id in H by lia.
  apply H. apply in_seq. lia.
Qed.

Lemma format_08b_byte (b : Z) :
  0 <= b < 256 ->
  String.length (PyInt.format_08b b) = 8%nat
  /\ all_bits (PyInt.format_08b b) = true
  /\ PyInt.of_string2 (PyInt.format_08b b) = OK b.
Proof.
  intros Hb. pose proof (byte_check_range b Hb) as H.
  unfold byte_check in H.
  apply andb_true_iff in H. destruct H as [H H3].
  apply andb_true_iff in H. destruct H as [H1 H2].
  apply Nat.eqb_eq in H1. apply Z.eqb_eq in H3.
  repeat split; try assumption.
  rewrite of_string2_bits; [now rewrite H3 | assumption |].
  apply nonempty_length. lia.
Qed.

Lemma bytes_be_bytes (w : Z) : Forall is_byte (Struct.bytes_be w).
Proof.
  unfold Struct.bytes_be, is_byte.
  repeat constructor; apply Z.mod_pos_bound; lia.
Qed.

Lemma order_bytes (host : byteorder) (l : list Z) :
  Forall is_byte l -> Forall is_byte (Struct.order host l).
Proof.
  destruct host; simpl; [auto |].
  intros H. apply Forall_forall. intros x Hx.
  apply in_rev in Hx. revert x Hx. now apply Forall_forall.
Qed.

Lemma order_length (host : byteorder) (l : list Z) :
  List.length (Struct.order host l) = List.length l.
Proof. destruct host; simpl; [reflexivity | apply length_rev]. Qed.

(** What [struct.pack('f', x)] returns is four bytes. *)
Lemma pack_f_four_bytes (host : byteorder) (x : PyFloat.float) :
  exists b0 b1 b2 b3,
    Struct.pack_f host x = [b0; b1; b2; b3]
    /\ is_byte b0 /\ is_byte b1 /\ is_byte b2 /\ is_byte b3.
Proof.
  unfold Struct.pack_f.
  generalize (Struct.bits_of_single (Struct.to_single x)). intros w.
  pose proof (order_bytes host _ (bytes_be_bytes w)) as HF.
  pose proof (order_length host (Struct.bytes_be w)) as HL.
  destruct (Struct.order host (Struct.bytes_be w)) as [| b0 [| b1 [| b2 [| b3 [| b4 t]]]]];
    try discriminate HL.
  exists b0, b1, b2, b3.
  inversion HF as [| ? ? H0 HF1]; subst.
  inversion HF1 as [| ? ? H1 HF2]; subst.
  inversion HF2 as [| ? ? H2 HF3]; subst.
  inversion HF3 as [| ? ? H3 _]; subst.
  auto.
Qed.

Lemma substring_split (s : string) :
  forall i n m,
    substring i (n + m) s = substring i n s ++ substring (i + n) m s.
Proof.
  induction s as [| c s IH]; intros i n m.
  - destruct i, n, m; reflexivity.
  - destruct i as [| i].
    + destruct n as [| n].
      * reflexivity.
      * cbn [Nat.add substring String.append]. f_equal. apply (IH O n m).
    + cbn [Nat.add substring]. apply IH.
Qed.

Lemma substring_all (s : string) : substring 0 (String.length s) s = s.
Proof.
  induction s as [| c s IH]; [reflexivity |].
  cbn [String.length substring]. now rewrite IH.
Qed.

(** The text of four bytes: 32 binary digits. *)
Lemma join_four_bytes (b0 b1 b2 b3 : Z) :
  is_byte b0 -> is_byte b1 -> is_byte b2 -> is_byte b3 ->
  let t := PyStr.join (map PyInt.format_08b [b0; b1; b2; b3]) in
  String.length t = 32%nat /\ all_bits t = true.
Proof.
  intros H0 H1 H2 H3.
  destruct (format_08b_byte b0 H0) as (L0 & A0 & _).
  destruct (format_08b_byte b1 H1) as (L1 & A1 & _).
  destruct (format_08b_byte b2 H2) as (L2 & A2 & _).
  destruct (format_08b_byte b3 H3) as (L3 & A3 & _).
  cbn [PyStr.join map fold_right]. split.
  - rewrite !length_app, L0, L1, L2, L3. reflexivity.
  - rewrite !all_bits_app, A0, A1, A2, A3. reflexivity.
Qed.

(** The fields the encoder cuts out of a text of 32 binary digits. *)
Lemma fields_of_32_bits (t : string) :
  String.length t = 32%nat -> all_bits t = true ->
  exists c,
    PyStr.item 0 t = OK (String c EmptyString)
    /\ t = String c EmptyString ++ PyStr.slice 1 9 t ++ PyStr.slice 9 32 t
    /\ String.length (PyStr.slice 1 9 t) = 8%nat
    /\ String.length (PyStr.slice 9 32 t) = 23%nat
    /\ all_bits (PyStr.slice 1 9 t) = true
    /\ all_bits (PyStr.slice 9 32 t) = true.
Proof.
  intros HL HA. unfold PyStr.slice.
  change (9 - 1)%nat with 8%nat. change (32 - 9)%nat with 23%nat.
  destruct t as [| c t]; [discriminate HL |].
  exists c. repeat split.
  - rewrite <- (substring_all (String c t)) at 1. rewrite HL.
    change 32%nat with (1 + (8 + 23))%nat.
    rewrite (substring_split (String c t) 0 1 (8 + 23)).
    rewrite (substring_split (String c t) (0 + 1) 8 23).
    cbn [substring Nat.add String.append]. now destruct t.
  - rewrite length_substring, HL. reflexivity.
  - rewrite length_substring, HL. reflexivity.
  - now apply all_bits_substring.
  - now apply all_bits_substring.
Qed.

(** The native encoder raises nothing: on every input it returns a text
    of 32 binary digits, cut into a sign of 1, an exponent of 8 and a
    mantissa of 23 digits. *)
Lemma native_encoder_total (host : byteorder) (x : PyFloat.float) :
  exists r,
    decimal_to_ieee754_single host x = OK r
    /\ full r = PyStr.join (map PyInt.format_08b (Struct.pack_f host x))
    /\ String.length (full r) = 32%nat
    /\ all_bits (full r) = true
    /\ full r = sign r ++ exponent r ++ mantissa r
    /\ String.length (sign r) = 1%nat
    /\ String.length (exponent r) = 8%nat
    /\ String.length (mantissa r) = 23%nat.
Proof.
  unfold decimal_to_ieee754_single. cbv zeta.
  destruct (pack_f_four_bytes host x) as (b0 & b1 & b2 & b3 & -> & H0 & H1 & H2 & H3).
  destruct (join_four_bytes b0 b1 b2 b3 H0 H1 H2 H3) as [HL HA].
  set (t := PyStr.join (map PyInt.format_08b [b0; b1; b2; b3])) in *.
  destruct (fields_of_32_bits t HL HA) as (c & Hi & Ht & HLe & HLm & HAe & HAm).
  rewrite Hi. cbn [bind].
  rewrite (of_string2_bits _ HAe) by (apply nonempty_length; lia).
  cbn [bind]. eexists. split; [reflexivity |].
  cbn [full sign exponent mantissa]. auto 10.
Qed.

(** ** The decoder's loop *)

Lemma bytearray_append_byte (buf : list Z) (b : Z) :
  is_byte b -> bytearray_append buf b = OK (buf ++ [b])%list.
Proof.
  unfold is_byte, bytearray_append. intros H.
  replace (0 <=? b) with true by (symmetry; apply Z.leb_le; lia).
  replace (b <? 256) with true by (symmetry; apply Z.ltb_lt; lia).
  reflexivity.
Qed.

Lemma bytearray_append_ok (buf l : list Z) (b : Z) :
  bytearray_append buf b = OK l -> is_byte b /\ l = (buf ++ [b])%list.
Proof.
  unfold is_byte, bytearray_append.
  destruct (0 <=? b) eqn:H1; destruct (b <? 256) eqn:H2;
    cbn [andb]; intros H; try discriminate H.
  apply Z.leb_le in H1. apply Z.ltb_lt in H2.
  injection H as <-. split; [lia | reflexivity].
Qed.

Lemma fill_bytes_ok (s : string) (starts : list nat) :
  forall buf,
    Forall (slice_ok s) starts ->
    exists l, fill_bytes starts s buf = OK (buf ++ l)%list
              /\ List.length l = List.length starts
              /\ Forall is_byte l.
Proof.
  induction starts as [| i rest IH]; intros buf H.
  - exists []. rewrite app_nil_r. repeat split. constructor.
  - inversion H as [| ? ? (b & Hb & Hr) Hrest]; subst.
    cbn [fill_bytes]. rewrite Hb. cbn [bind].
    rewrite (bytearray_append_byte buf b Hr). cbn [bind].
    destruct (IH (buf ++ [b])%list Hrest) as (l & Hl & Hlen & HF).
    exists (b :: l). rewrite Hl, <- app_assoc. repeat split.
    + cbn [List.length]. now rewrite Hlen.
    + now constructor.
Qed.

Lemma fill_bytes_returns (s : string) (starts : list nat) :
  forall buf l, fill_bytes starts s buf = OK l -> Forall (slice_ok s) starts.
Proof.
  induction starts as [| i rest IH]; intros buf l H; [constructor |].
  cbn [fill_bytes] in H.
  destruct (PyInt.of_string2 (PyStr.slice i (i + 8) s)) as [b | e] eqn:Hb;
    cbn [bind] in H; [| discriminate H].
  destruct (bytearray_append buf b) as [buf' | e] eqn:Ha;
    cbn [bind] in H; [| discriminate H].
  apply bytearray_append_ok in Ha. destruct Ha as [Hr _].
  constructor; [exists b; auto | eapply IH; eassumption].
Qed.

Lemma fill_bytes_raises (s : string) (starts : list nat) :
  forall buf e, fill_bytes starts s buf = Raise e -> e = ValueError.
Proof.
  induction starts as [| i rest IH]; intros buf e H; [discriminate H |].
  cbn [fill_bytes] in H.
  destruct (PyInt.of_string2 (PyStr.slice i (i + 8) s)) as [b | e'] eqn:Hb;
    cbn [bind] in H.
  - destruct (bytearray_append buf b) as [buf' | e'] eqn:Ha; cbn [bind] in H.
    + eapply IH; eassumption.
    + injection H as <-. eapply bytearray_append_raises; eassumption.
  - injection H as <-. eapply of_string2_raises; eassumption.
Qed.

(** The decoder returns exactly when each of the four slices is read as a
    byte, and it raises nothing but [ValueError]. *)
Lemma decoder_returns_iff (host : byteorder) (s : string) :
  returns (ieee754_single_to_decimal host s)
  <-> Forall (slice_ok s) byte_starts.
Proof.
  unfold ieee754_single_to_decimal, returns. split.
  - intros [v H].
    destruct (fill_bytes byte_starts s []) as [l | e] eqn:Hf;
      [| discriminate H].
    eapply fill_bytes_returns; eassumption.
  - intros H. destruct (fill_bytes_ok s byte_starts [] H) as (l & Hl & Hlen & _).
    rewrite Hl. cbn [app bind].
    destruct l as [| b0 [| b1 [| b2 [| b3 [| b4 l]]]]]; try discriminate Hlen.
    eexists. reflexivity.
Qed.

Lemma decoder_raises_value_error (host : byteorder) (s : string) (e : exn) :
  ieee754_single_to_decimal host s = Raise e -> e = ValueError.
Proof.
  unfold ieee754_single_to_decimal. intros H.
  destruct (fill_bytes byte_starts s []) as [l | e'] eqn:Hf; cbn [bind] in H.
  - assert (HF : Forall (slice_ok s) byte_starts)
      by (eapply fill_bytes_returns; eassumption).
    destruct (fill_bytes_ok s byte_starts [] HF) as (l' & Hl & Hlen & _).
    rewrite Hl in Hf. injection Hf as <-. cbn [app] in H.
    destruct l' as [| b0 [| b1 [| b2 [| b3 [| b4 l']]]]]; try discriminate Hlen.
    discriminate H.
  - injection H as <-. eapply fill_bytes_raises; eassumption.
Qed.

Lemma slice_ok_bits (s : string) (i : nat) :
  all_bits s = true -> (i < String.length s)%nat -> slice_ok s i.
Proof.
  intros HA Hi. unfold slice_ok, PyStr.slice.
  replace (i + 8 - i)%nat with 8%nat by lia.
  apply of_string2_bits_range.
  - now apply all_bits_substring.
  - apply nonempty_length. rewrite length_substring. lia.
  - rewrite length_substring. lia.
Qed.

(** Only the first 32 characters are read. *)
Lemma decoder_reads_32 (host : byteorder) (s : string) :
  ieee754_single_to_decimal host s
  = ieee754_single_to_decimal host (PyStr.slice_to 32 s).
Proof.
  unfold ieee754_single_to_decimal, byte_starts, PyStr.slice_to.
  cbn [fill_bytes]. unfold PyStr.slice.
  rewrite !substring_substring by lia. reflexivity.
Qed.

Lemma decoder_short (host : byteorder) (s : string) :
  (String.length s <= 24)%nat ->
  ieee754_single_to_decimal host s = Raise ValueError.
Proof.
  intros HL.
  destruct (ieee754_single_to_decimal host s) as [v | e] eqn:H.
  - assert (HF : Forall (slice_ok s) byte_starts)
      by (apply (decoder_returns_iff host); exists v; exact H).
    unfold byte_starts in HF.
    apply Forall_forall with (x := 24%nat) in HF; [| simpl; auto].
    destruct HF as (b & Hb & _). unfold PyStr.slice in Hb.
    rewrite substring_empty in Hb by lia. discriminate Hb.
  - f_equal. eapply decoder_raises_value_error; eassumption.
Qed.

(** ** Rounding a double to single precision *)

Lemma shr_1_m (r : shr_record) :
  0 <= shr_m r -> shr_m (shr_1 r) = shr_m r / 2.
Proof.
  destruct r as [m rb sb]. cbn [shr_m shr_1].
  destruct m as [| [p | p |] | p]; intros H; cbn [shr_m]; try lia.
  - reflexivity.
  - apply Z.div_unique with (r := 1); lia.
  - apply Z.div_unique with (r := 0); lia.
  - reflexivity.
Qed.

Lemma iter_shr_1_m (p : positive) :
  forall r, 0 <= shr_m r ->
    shr_m (iter_pos shr_1 p r) = shr_m r / 2 ^ Zpos p.
Proof.
  induction p as [p IH | p IH |]; intros r H; cbn [iter_pos].
  - assert (H1 : 0 <= shr_m (shr_1 r))
      by (rewrite shr_1_m by assumption; apply Z.div_pos; lia).
    assert (H2 : 0 <= shr_m (iter_pos shr_1 p (shr_1 r)))
      by (rewrite IH by assumption; apply Z.div_pos; [| apply Z.pow_pos_nonneg]; lia).
    rewrite IH, IH, shr_1_m by assumption.
    rewrite !Z.div_div by (try apply Z.pow_pos_nonneg; lia).
    f_equal. change 2 with (2 ^ 1) at 1.
    rewrite <- !Z.pow_add_r by lia. f_equal. lia.
  - assert (H2 : 0 <= shr_m (iter_pos shr_1 p r))
      by (rewrite IH by assumption; apply Z.div_pos; [| apply Z.pow_pos_nonneg]; lia).
    rewrite IH, IH by assumption.
    rewrite !Z.div_div by (try apply Z.pow_pos_nonneg; lia).
    f_equal. rewrite <- !Z.pow_add_r by lia. f_equal. lia.
  - rewrite shr_1_m by assumption. reflexivity.
Qed.

Lemma round_nearest_even_bounds (m : Z) (l : location) :
  m <= round_nearest_even m l <= m + 1.
Proof.
  unfold round_nearest_even.
  destruct l as [| []]; try destruct (Z.even m); lia.
Qed.

Lemma digits2_pos_bounds (p : positive) :
  2 ^ (Zpos (digits2_pos p) - 1) <= Zpos p < 2 ^ Zpos (digits2_pos p).
Proof.
  induction p as [p IH | p IH |]; cbn [digits2_pos].
  - rewrite Pos2Z.inj_succ.
    replace (Z.succ (Z.pos (digits2_pos p)) - 1) with (Z.succ (Z.pos (digits2_pos p) - 1)) by lia.
    rewrite !Z.pow_succ_r by lia. lia.
  - rewrite Pos2Z.inj_succ.
    replace (Z.succ (Z.pos (digits2_pos p)) - 1) with (Z.succ (Z.pos (digits2_pos p) - 1)) by lia.
    rewrite !Z.pow_succ_r by lia. lia.
  - cbn. lia.
Qed.

Lemma Zdigits2_le (q k : Z) :
  0 <= k -> 0 <= q < 2 ^ k -> 0 <= Zdigits2 q <= k.
Proof.
  intros Hk Hq. destruct q as [| p | p]; cbn [Zdigits2]; try lia.
  pose proof (digits2_pos_bounds p) as [H1 _].
  split; [lia |].
  destruct (Z.le_gt_cases (Zpos (digits2_pos p)) k) as [| Hgt]; [assumption |].
  assert (2 ^ k <= 2 ^ (Zpos (digits2_pos p) - 1)) by (apply Z.pow_le_mono_r; lia).
  lia.
Qed.

(** The shift of [shr_fexp] at single precision, on an exact mantissa. *)
Lemma shr_fexp_single (mx ex : Z) :
  0 <= mx ->
  let n := fexp 24 128 (Zdigits2 mx + ex) - ex in
  let r := shr_fexp 24 128 mx ex loc_Exact in
  (0 < n -> shr_m (fst r) = mx / 2 ^ n /\ snd r = ex + n)
  /\ (n <= 0 -> shr_m (fst r) = mx /\ snd r = ex).
Proof.
  intros Hmx n r. subst r. unfold shr_fexp. fold n.
  cbn [shr_record_of_loc]. unfold shr.
  destruct n as [| p | p] eqn:Hn; cbn [fst snd shr_m]; split; intros H; try lia.
  split; [| reflexivity]. rewrite iter_shr_1_m by exact Hmx. reflexivity.
Qed.

Lemma valid_double_cases (s : bool) (m : positive) (e : Z) :
  valid_binary 53 1024 (S754_finite s m e) = true ->
  Z.max (Zpos (digits2_pos m) + e - 53) (-1074) = e /\ e <= 971.
Proof.
  cbn [valid_binary]. unfold bounded, canonical_mantissa, fexp, emin.
  intros H. apply andb_true_iff in H. destruct H as [H1 H2].
  apply Z.eqb_eq in H1. apply Z.leb_le in H2. lia.
Qed.

Lemma fexp_single (k : Z) : fexp 24 128 k = Z.max (k - 24) (-149).
Proof. unfold fexp, emin. lia. Qed.

Lemma div_pow2_ge (a i j : Z) :
  0 <= j <= i -> 2 ^ i <= a -> 2 ^ (i - j) <= a / 2 ^ j.
Proof.
  intros Hij Ha.
  assert (0 < 2 ^ j) by (apply Z.pow_pos_nonneg; lia).
  apply Z.div_le_lower_bound; [assumption |].
  rewrite <- Z.pow_add_r by lia. replace (j + (i - j)) with i by lia. lia.
Qed.

Lemma Zdigits2_lt (q : Z) : 0 <= q -> q < 2 ^ Zdigits2 q.
Proof.
  intros Hq. destruct q as [| p | p]; cbn [Zdigits2]; try lia.
  apply digits2_pos_bounds.
Qed.

Lemma Zdigits2_pow (q : Z) : 0 < q -> 2 ^ (Zdigits2 q - 1) <= q.
Proof.
  intros Hq. destruct q as [| p | p]; cbn [Zdigits2]; try lia.
  apply digits2_pos_bounds.
Qed.

(** The result of rounding a valid double to single precision: a
    mantissa [m2] below [2^24] and an exponent [e2], in canonical form. *)
Lemma to_single_shape (s : bool) (m : positive) (e : Z) :
  valid_binary 53 1024 (S754_finite s m e) = true ->
  let D := Zpos (digits2_pos m) + e in
  let f := Z.max (D - 24) (-149) in
  exists m2 e2,
    Struct.to_single (S754_finite s m e)
    = match m2 with
      | Z0 => S754_zero s
      | Zpos q => if e2 <=? 104 then S754_finite s q e2 else S754_infinity s
      | Zneg _ => S754_nan
      end
    /\ f <= e2 <= f + 1
    /\ 0 <= m2 < 2 ^ 24
    /\ (129 <= D -> 0 < m2)
    /\ (-125 <= D -> 2 ^ 23 <= m2)
    /\ (m2 < 2 ^ 23 -> e2 = -149).
Proof.
  intros Hv D f.
  destruct (valid_double_cases s m e Hv) as [Hc He].
  pose proof (digits2_pos_bounds m) as [Hlo Hhi].
  set (d := Zpos (digits2_pos m)) in *.
  assert (Hd : 0 < d) by (subst d; lia).
  assert (Hfe : e < f) by (subst f D; lia).
  cbn [Struct.to_single]. unfold binary_round.
  rewrite fexp_single. fold d. fold D. fold f.
  unfold shl_align.
  destruct (f - e) as [| p | p] eqn:Hsub; try lia.
  unfold binary_round_aux.
  pose proof (shr_fexp_single (Zpos m) e ltac:(lia)) as H1.
  cbn zeta in H1. rewrite fexp_single in H1. cbn [Zdigits2] in H1.
  fold d in H1. fold D in H1. fold f in H1.
  destruct H1 as [H1 _]. specialize (H1 ltac:(lia)).
  destruct (shr_fexp 24 128 (Zpos m) e loc_Exact) as [mrs1 e1].
  cbn [fst snd] in H1. destruct H1 as [Hm1 He1].
  replace (e + (f - e)) with f in He1 by lia. subst e1.
  pose proof (round_nearest_even_bounds (shr_m mrs1) (loc_of_shr_record mrs1)) as Hr.
  set (mx := round_nearest_even (shr_m mrs1) (loc_of_shr_record mrs1)) in *.
  assert (Hm1lo : 0 <= shr_m mrs1).
  { rewrite Hm1. apply Z.div_pos; [lia | apply Z.pow_pos_nonneg; lia]. }
  assert (Hm1hi : shr_m mrs1 < 2 ^ 24).
  { rewrite Hm1.
    assert (0 < 2 ^ (f - e)) by (apply Z.pow_pos_nonneg; lia).
    apply Z.div_lt_upper_bound; [assumption |].
    rewrite <- Z.pow_add_r by lia.
    assert (2 ^ d <= 2 ^ (f - e + 24)) by (apply Z.pow_le_mono_r; subst f D; lia).
    lia. }
  assert (Hbig : -125 <= D -> 2 ^ 23 <= shr_m mrs1).
  { intros HD. rewrite Hm1.
    assert (Hd53 : d = 53) by (subst D; lia).
    assert (Hfe29 : f - e = 29) by (subst f D; lia).
    rewrite Hfe29. change 23 with (52 - 29).
    apply div_pow2_ge; [lia |]. replace 52 with (d - 1) by lia. exact Hlo. }
  pose proof (shr_fexp_single mx f ltac:(lia)) as H2.
  cbn zeta in H2. rewrite fexp_single in H2.
  assert (Hdx : 0 <= Zdigits2 mx <= 25).
  { apply Zdigits2_le; [lia |]. change (2 ^ 25) with (2 * 2 ^ 24). lia. }
  pose proof (Zdigits2_lt mx ltac:(lia)) as Hmxlt.
  set (n2 := Z.max (Zdigits2 mx + f - 24) (-149) - f) in *.
  assert (Hn2 : n2 <= 1) by (subst n2 f; lia).
  destruct (shr_fexp 24 128 mx f loc_Exact) as [mrs2 e2].
  cbn [fst snd] in H2. destruct H2 as [H2a H2b].
  exists (shr_m mrs2), e2. split; [reflexivity |].
  assert (H23 : 0 < 2 ^ 23) by reflexivity.
  destruct (Z.lt_ge_cases 0 n2) as [Hpos | Hnp].
  - destruct (H2a Hpos) as [Hm2 He2]. assert (Hone : n2 = 1) by lia.
    rewrite Hone in Hm2, He2. change (2 ^ 1) with 2 in Hm2.
    assert (Hdig : Zdigits2 mx = 25) by (subst n2; lia).
    assert (Hmx24 : 2 ^ 24 <= mx).
    { assert (Hmxpos : 0 < mx)
        by (destruct mx; [discriminate Hdig | lia | lia]).
      pose proof (Zdigits2_pow mx Hmxpos) as Hp. rewrite Hdig in Hp.
      exact Hp. }
    assert (Hlo2 : 2 ^ 23 <= mx / 2).
    { apply Z.div_le_lower_bound; [lia |].
      change (2 * 2 ^ 23) with (2 ^ 24). exact Hmx24. }
    assert (Hhi2 : mx / 2 < 2 ^ 24)
      by (apply Z.div_lt_upper_bound; [lia |]; lia).
    rewrite Hm2. repeat split; lia.
  - destruct (H2b ltac:(lia)) as [Hm2 He2].
    assert (Hdig : Zdigits2 mx <= 24) by (subst n2; lia).
    assert (Hpow : 2 ^ Zdigits2 mx <= 2 ^ 24) by (apply Z.pow_le_mono_r; lia).
    assert (Hsmall : mx < 2 ^ 23 -> f = -149).
    { intros Hlt. destruct (Z.lt_ge_cases D (-125)) as [HD | HD].
      - subst f. lia.
      - specialize (Hbig HD). lia. }
    rewrite Hm2. repeat split; try lia.
Qed.

(** A valid double of magnitude at least [2^128] rounds to an infinity. *)
Lemma to_single_overflow (s : bool) (m : positive) (e : Z) :
  valid_binary 53 1024 (S754_finite s m e) = true ->
  129 <= Zpos (digits2_pos m) + e ->
  Struct.to_single (S754_finite s m e) = S754_infinity s.
Proof.
  intros Hv HD.
  destruct (to_single_shape s m e Hv) as (m2 & e2 & -> & He2 & Hm2 & Hpos & _).
  specialize (Hpos HD).
  destruct m2 as [| q | q]; try lia.
  replace (e2 <=? 104) with false; [reflexivity |].
  symmetry. apply Z.leb_gt. lia.
Qed.

(** A valid double of magnitude below [2^127] does not. *)
Lemma to_single_in_range (s : bool) (m : positive) (e : Z) :
  valid_binary 53 1024 (S754_finite s m e) = true ->
  Zpos (digits2_pos m) + e <= 127 ->
  is_infinite (Struct.to_single (S754_finite s m e)) = false.
Proof.
  intros Hv HD.
  destruct (to_single_shape s m e Hv) as (m2 & e2 & -> & He2 & Hm2 & _).
  destruct m2 as [| q | q]; try reflexivity.
  replace (e2 <=? 104) with true; [reflexivity |].
  symmetry. apply Z.leb_le. lia.
Qed.

(** The word of the single precision value of a valid double: the sign
    in bit 31 and the other fields below it. *)
Lemma bits_of_to_single (x : PyFloat.float) :
  valid_binary 53 1024 x = true ->
  PyFloat.is_nan x = false ->
  exists rest,
    Struct.bits_of_single (Struct.to_single x)
    = Struct.sign_field (sign_of x) + rest
    /\ 0 <= rest < 2 ^ 31.
Proof.
  intros Hv Hn.
  destruct x as [s | s | | s m e]; try discriminate Hn;
    cbn [Struct.to_single Struct.bits_of_single sign_of].
  - exists 0. split; [lia | split; [lia | reflexivity]].
  - exists (255 * 2 ^ 23).
    split; [reflexivity | split; [discriminate | reflexivity]].
  - destruct (to_single_shape s m e Hv) as (m2 & e2 & Hs & He2 & Hm2 & _).
    cbn [Struct.to_single] in Hs. rewrite Hs.
    destruct m2 as [| q | q]; [| | lia].
    + exists 0. cbn [Struct.bits_of_single].
      split; [lia | split; [lia | reflexivity]].
    + destruct (e2 <=? 104) eqn:Hle.
      * apply Z.leb_le in Hle. cbn [Struct.bits_of_single].
        destruct (2 ^ 23 <=? Zpos q) eqn:Hq.
        -- apply Z.leb_le in Hq.
           exists ((e2 + 150) * 2 ^ 23 + (Zpos q - 2 ^ 23)).
           split; [lia |].
           change (2 ^ 31) with (256 * 2 ^ 23). change (2 ^ 24) with (2 * 2 ^ 23) in Hm2.
           assert (0 < 2 ^ 23) by reflexivity. nia.
        -- apply Z.leb_gt in Hq. exists (Zpos q). split; [reflexivity |].
           change (2 ^ 31) with (256 * 2 ^ 23). assert (0 < 2 ^ 23) by reflexivity. lia.
      * exists (255 * 2 ^ 23). cbn [Struct.bits_of_single].
        split; [reflexivity | split; [discriminate | reflexivity]].
Qed.

(** ** The sign field of the native encoder *)

Lemma first_digit_check_all :
  forallb (fun n => first_digit_check (Z.of_nat n)) (seq 0 256) = true.
Proof. vm_compute. reflexivity. Qed.

(** The first of the eight digits of a byte is 1 from 128 on. *)
Lemma format_08b_first_digit (b : Z) :
  is_byte b ->
  String.get 0 (PyInt.format_08b b)
  = Some (if 128 <=? b then "1"%char else "0"%char).
Proof.
  intros Hb. pose proof first_digit_check_all as H.
  rewrite forallb_forall in H.
  specialize (H (Z.to_nat b)). unfold is_byte in Hb.
  rewrite Z2Nat.id in H by lia.
  specialize (H ltac:(apply in_seq; lia)).
  unfold first_digit_check in H.
  destruct (String.get 0 (PyInt.format_08b b)) as [c |]; [| discriminate H].
  apply Ascii.eqb_eq in H. now rewrite H.
Qed.

Lemma get_0_app (s t : string) (c : ascii) :
  String.get 0 s = Some c -> String.get 0 (s ++ t) = Some c.
Proof. destruct s as [| d s]; [discriminate | trivial]. Qed.

Lemma top_byte (s : bool) (rest : Z) :
  0 <= rest < 2 ^ 31 ->
  (128 <=? ((Struct.sign_field s + rest) / 2 ^ 24) mod 256) = s.
Proof.
  intros Hr. unfold Struct.sign_field.
  assert (Hq : 0 <= rest / 2 ^ 24 < 128).
  { split; [apply Z.div_pos; [lia | reflexivity] |].
    apply Z.div_lt_upper_bound; [reflexivity |].
    change (2 ^ 24 * 128) with (2 ^ 31). lia. }
  destruct s.
  - change (2 ^ 31) with (128 * 2 ^ 24).
    rewrite Z.div_add_l by discriminate.
    rewrite Z.mod_small by lia. apply Z.leb_le. lia.
  - rewrite Z.add_0_l, Z.mod_small by lia. apply Z.leb_gt. lia.
Qed.

(** With the most significant byte first, the sign field the native
    encoder returns for a valid double that is not a NaN is its sign. *)
Lemma native_sign_big_endian (x : PyFloat.float) :
  valid_binary PyFloat.prec PyFloat.emax x = true ->
  PyFloat.is_nan x = false ->
  exists r,
    decimal_to_ieee754_single BigEndian x = OK r
    /\ sign r = if sign_of x then "1" else "0".
Proof.
  intros Hv Hn.
  destruct (native_encoder_total BigEndian x)
    as (r & Hr & Hfull & HL & _ & Hcut & Hs1 & _).
  exists r. split; [exact Hr |].
  destruct (bits_of_to_single x Hv Hn) as (rest & Hw & Hrest).
  assert (Hget : String.get 0 (full r)
                 = Some (if sign_of x then "1"%char else "0"%char)).
  { rewrite Hfull. unfold Struct.pack_f, Struct.order, Struct.bytes_be.
    cbn [map PyStr.join fold_right].
    apply get_0_app. rewrite format_08b_first_digit
      by (unfold is_byte; apply Z.mod_pos_bound; reflexivity).
    rewrite Hw, (top_byte _ _ Hrest). reflexivity. }
  rewrite Hcut in Hget.
  destruct (sign r) as [| c [| c' t]]; try discriminate Hs1.
  cbn [String.append String.get] in Hget. injection Hget as ->.
  now destruct (sign_of x).
Qed.

Lemma sign_of_spec (x : PyFloat.float) :
  PyFloat.is_nan x = false ->
  sign_of x = true <-> PyFloat.lt0 x = true \/ PyFloat.is_neg_zero x = true.
Proof.
  unfold PyFloat.lt0, PyFloat.zero, SFltb.
  destruct x as [[] | [] | | [] m e]; cbn [sign_of SFcompare PyFloat.is_neg_zero PyFloat.is_nan];
    intros Hn; try discriminate Hn; split; intros H; auto;
    try discriminate H; destruct H as [H | H]; discriminate H.
Qed.

(** ** The word of a text of 32 binary digits *)

Lemma bits_value_app (s t : string) :
  forall acc, bits_value (s ++ t) acc = bits_value t (bits_value s acc).
Proof.
  induction s as [| c s IH]; intros acc; [reflexivity |].
  cbn [String.append bits_value]. apply IH.
Qed.

Lemma bits_value_shift (s : string) :
  forall acc,
    bits_value s acc = acc * 2 ^ Z.of_nat (String.length s) + bits_value s 0.
Proof.
  induction s as [| c s IH]; intros acc.
  - cbn [bits_value String.length]. change (Z.of_nat 0) with 0.
    rewrite Z.pow_0_r. lia.
  - cbn [bits_value String.length].
    rewrite Nat2Z.inj_succ, Z.pow_succ_r by lia.
    rewrite (IH (2 * acc + _)), (IH (2 * 0 + _)). ring.
Qed.

Lemma bits_value_byte (s : string) (acc : Z) :
  String.length s = 8%nat -> bits_value s acc = acc * 256 + bits_value s 0.
Proof. intros H. rewrite bits_value_shift, H. reflexivity. Qed.

Lemma text_four_slices (s : string) :
  String.length s = 32%nat ->
  s = PyStr.slice 0 8 s ++ PyStr.slice 8 16 s
      ++ PyStr.slice 16 24 s ++ PyStr.slice 24 32 s.
Proof.
  intros HL. unfold PyStr.slice.
  change (8 - 0)%nat with 8%nat. change (16 - 8)%nat with 8%nat.
  change (24 - 16)%nat with 8%nat. change (32 - 24)%nat with 8%nat.
  rewrite <- (substring_all s) at 1. rewrite HL.
  change 32%nat with (8 + (8 + (8 + 8)))%nat.
  rewrite (substring_split s 0 8 (8 + (8 + 8))).
  rewrite (substring_split s (0 + 8) 8 (8 + 8)).
  rewrite (substring_split s (0 + 8 + 8) 8 8).
  reflexivity.
Qed.

Lemma fill_bytes_bits (s : string) :
  String.length s = 32%nat -> all_bits s = true ->
  fill_bytes byte_starts s []
  = OK [bits_value (PyStr.slice 0 8 s) 0; bits_value (PyStr.slice 8 16 s) 0;
        bits_value (PyStr.slice 16 24 s) 0; bits_value (PyStr.slice 24 32 s) 0].
Proof.
  intros HL HA. unfold byte_starts. cbn [fill_bytes Nat.add].
  assert (Hs : forall i, (i + 8 <= 32)%nat ->
             PyInt.of_string2 (PyStr.slice i (i + 8) s)
             = OK (bits_value (PyStr.slice i (i + 8) s) 0)
             /\ is_byte (bits_value (PyStr.slice i (i + 8) s) 0)).
  { intros i Hi. unfold PyStr.slice.
    replace (i + 8 - i)%nat with 8%nat by lia.
    assert (HA' : all_bits (substring i 8 s) = true)
      by now apply all_bits_substring.
    assert (HL' : String.length (substring i 8 s) = 8%nat)
      by (rewrite length_substring; lia).
    split.
    - apply of_string2_bits; [assumption | apply nonempty_length; lia].
    - pose proof (bits_value_bounds (substring i 8 s) 0 ltac:(lia)) as Hb.
      rewrite HL' in Hb. unfold is_byte. change (2 ^ Z.of_nat 8) with 256 in Hb.
      lia. }
  destruct (Hs 0%nat ltac:(lia)) as [E0 B0].
  destruct (Hs 8%nat ltac:(lia)) as [E1 B1].
  destruct (Hs 16%nat ltac:(lia)) as [E2 B2].
  destruct (Hs 24%nat ltac:(lia)) as [E3 B3].
  cbn [Nat.add] in E0, E1, E2, E3, B0, B1, B2, B3.
  rewrite E0. cbn [bind]. rewrite (bytearray_append_byte _ _ B0). cbn [bind app].
  rewrite E1. cbn [bind]. rewrite (bytearray_append_byte _ _ B1). cbn [bind app].
  rewrite E2. cbn [bind]. rewrite (bytearray_append_byte _ _ B2). cbn [bind app].
  rewrite E3. cbn [bind]. rewrite (bytearray_append_byte _ _ B3). cbn [bind app].
  reflexivity.
Qed.

Lemma length_slice_8 (s : string) (i : nat) :
  String.length s = 32%nat -> (i + 8 <= 32)%nat ->
  String.length (PyStr.slice i (i + 8) s) = 8%nat.
Proof.
  intros HL Hi. unfold PyStr.slice. rewrite length_substring. lia.
Qed.

Lemma word_of_text_bytes (host : byteorder) (s : string) :
  String.length s = 32%nat ->
  Struct.word_be
    (Struct.order host
       [bits_value (PyStr.slice 0 8 s) 0; bits_value (PyStr.slice 8 16 s) 0;
        bits_value (PyStr.slice 16 24 s) 0; bits_value (PyStr.slice 24 32 s) 0])
  = word_of_text host s.
Proof.
  intros HL. unfold word_of_text, reorder_text.
  pose proof (length_slice_8 s 0 HL ltac:(lia)) as L0.
  pose proof (length_slice_8 s 8 HL ltac:(lia)) as L1.
  pose proof (length_slice_8 s 16 HL ltac:(lia)) as L2.
  pose proof (length_slice_8 s 24 HL ltac:(lia)) as L3.
  cbn [Nat.add] in L0, L1, L2, L3.
  destruct host; cbn [Struct.order rev app Struct.word_be fold_left].
  - rewrite (f_equal (fun t => bits_value t 0) (text_four_slices s HL)).
    rewrite !bits_value_app.
    rewrite (bits_value_byte _ (bits_value _ _) L3).
    rewrite (bits_value_byte _ (bits_value _ _) L2).
    rewrite (bits_value_byte _ (bits_value _ _) L1).
    ring.
  - rewrite !bits_value_app.
    rewrite (bits_value_byte _ (bits_value _ _) L0).
    rewrite (bits_value_byte _ (bits_value _ _) L1).
    rewrite (bits_value_byte _ (bits_value _ _) L2).
    ring.
Qed.

Lemma single_of_bits_category (w : Z) :
  classify (Struct.single_of_bits w) = field_category w.
Proof.
  unfold Struct.single_of_bits, field_category.
  pose proof (Z.mod_pos_bound w (2 ^ 23) ltac:(reflexivity)) as Hm.
  set (m := w mod 2 ^ 23) in *. set (e := (w / 2 ^ 23) mod 256).
  destruct (e =? 0).
  - destruct m as [| p | p] eqn:Em; cbn [classify Z.eqb]; [reflexivity | | lia].
    replace (2 ^ 23 <=? Zpos p) with false; [reflexivity |].
    symmetry. apply Z.leb_gt. lia.
  - destruct (e =? 255).
    + destruct (m =? 0); reflexivity.
    + destruct (m + 2 ^ 23) as [| p | p] eqn:Ep; try lia.
      cbn [classify].
      replace (2 ^ 23 <=? Zpos p) with true; [reflexivity |].
      symmetry. apply Z.leb_le. lia.
Qed.

(** * The claims *)

(** Conjunctions of closed equations are proved by evaluation. *)
Ltac conj_split := repeat match goal with |- _ /\ _ => split end.
Ltac by_evaluation := conj_split; vm_compute; reflexivity.

(** ** Round trip *)

(** C1: for every x in {0.5, 1.0, 2.0, -1.0, 0.25, 6.5, 12.375}, decoding
    the 32-bit text the native encoder returns for x gives back exactly x,
    whatever the byte order of the host: the decoder returns a float [y]
    with [y == x], and [y] is the double [x] itself. *)
Theorem roundtrip_exact (host : byteorder) (x : PyFloat.float) :
  In x roundtrip_values ->
  exists y,
    roundtrip host x = OK y /\ PyFloat.eqb y x = true /\ y = x.
Proof.
  unfold roundtrip_values. cbn [In].
  intros [<- | [<- | [<- | [<- | [<- | [<- | [<- | []]]]]]]];
    destruct host;
    match goal with |- exists y, _ /\ _ /\ y = ?v => exists v end;
    by_evaluation.
Qed.

Lemma roundtrip_exact_witness :
  exists y,
    roundtrip LittleEndian f_12_375 = OK y
    /\ PyFloat.eqb y f_12_375 = true /\ y = f_12_375.
Proof.
  apply (roundtrip_exact LittleEndian f_12_375).
  unfold roundtrip_values. cbn [In]. auto 10.
Defined.

(** ** The scenario of 12.375 *)

(** On a host that packs the most significant byte first, the native
    encoder returns the fields of the IEEE 754 layout for 12.375 and the
    decoder reads them back. *)
Lemma native_encoder_12_375_big_endian :
  decimal_to_ieee754_single BigEndian f_12_375
  = OK {| full := "01000001010001100000000000000000";
          sign := "0";
          exponent := "10000010";
          mantissa := "10001100000000000000000";
          sign_val := "+";
          exponent_val := 3;
          exponent_biased := 130 |}
  /\ ieee754_single_to_decimal BigEndian "01000001010001100000000000000000"
     = OK f_12_375.
Proof. by_evaluation. Qed.

(** The manual conversion returns the fields of the IEEE 754 layout for
    12.375 whatever the host. *)
Lemma manual_12_375 :
  manual_float_conversion f_12_375 = OK "01000001010001100000000000000000".
Proof. by_evaluation. Qed.

(** C2: the encoding of 12.375 on a little-endian host.  [struct.pack]
    with the format ['f'] packs in the byte order of the host, so the text
    starts with the least significant byte of the mantissa: the exponent
    field read at positions 1 to 8 is 00000000 and not 10000010, and the
    decoder reads the field of the claim as a subnormal number. *)
Theorem native_encoder_12_375_little_endian :
  decimal_to_ieee754_single LittleEndian f_12_375
  = OK {| full := "00000000000000000100011001000001";
          sign := "0";
          exponent := "00000000";
          mantissa := "00000000100011001000001";
          sign_val := "+";
          exponent_val := -127;
          exponent_biased := 0 |}
  /\ ieee754_single_to_decimal LittleEndian "01000001010001100000000000000000"
     = OK (S754_finite false 4943679156387840 (-187))
  /\ PyFloat.eqb (S754_finite false 4943679156387840 (-187)) f_12_375 = false.
Proof. by_evaluation. Qed.

(** ** The manual conversion of 6.5 *)

(** The steps of the manual conversion of 6.5, and the decoding of its
    result on a host that packs the most significant byte first. *)
Lemma manual_6_5_big_endian :
  manual_trace f_6_5
  = OK {| m_sign := 0;
          m_int_binary := "110";
          m_frac_binary := "1";
          m_exponent := 2;
          m_mantissa := "101";
          m_biased_exponent := 129;
          m_exponent_binary := "10000001";
          m_mantissa_binary := "10100000000000000000000";
          m_final := "01000000110100000000000000000000" |}
  /\ manual_float_conversion f_6_5 = OK "01000000110100000000000000000000"
  /\ ieee754_single_to_decimal BigEndian "01000000110100000000000000000000"
     = OK f_6_5.
Proof. by_evaluation. Qed.

(** C9: the manual conversion of 6.5 has exponent 2, exponent field
    10000001 and mantissa field 10100000000000000000000, as claimed; on a
    little-endian host the decoder of the repository reads the returned
    text with its bytes in the reverse order and returns 53312 * 2^-149,
    not 6.5. *)
Theorem manual_6_5_little_endian :
  (exists t,
      manual_trace f_6_5 = OK t
      /\ m_exponent t = 2
      /\ m_biased_exponent t = 129
      /\ m_exponent_binary t = "10000001"
      /\ m_mantissa_binary t = "10100000000000000000000"
      /\ m_final t = "01000000110100000000000000000000")
  /\ ieee754_single_to_decimal LittleEndian "01000000110100000000000000000000"
     = OK (S754_finite false 7327145487499264 (-186))
  /\ PyFloat.eqb (S754_finite false 7327145487499264 (-186)) f_6_5 = false.
Proof.
  split; [| by_evaluation].
  eexists. split; [vm_compute; reflexivity |].
  conj_split; reflexivity.
Qed.

(** ** Truncation of the mantissa *)

(** C3: the manual conversion of 0.1 generates 23 fractional digits in
    all; four of them are the leading zeros and the implicit one, so the
    mantissa field holds 19 bits of the expansion and four padding zeros,
    where the first 23 bits of the expansion end in 1100. *)
Theorem manual_mantissa_0_1 :
  manual_trace f_0_1
  = OK {| m_sign := 0;
          m_int_binary := "0";
          m_frac_binary := "00011001100110011001100";
          m_exponent := -4;
          m_mantissa := "1001100110011001100";
          m_biased_exponent := 123;
          m_exponent_binary := "01111011";
          m_mantissa_binary := "10011001100110011000000";
          m_final := "00111101110011001100110011000000" |}
  /\ expansion_mantissa 23 f_0_1 = "10011001100110011001100".
Proof. by_evaluation. Qed.

(** The native encoder rounds 0.1 to nearest: its mantissa field ends in
    1101 (most significant byte first). *)
Lemma native_mantissa_0_1 :
  exists r,
    decimal_to_ieee754_single BigEndian f_0_1 = OK r
    /\ mantissa r = "10011001100110011001101".
Proof. eexists. split; vm_compute; reflexivity. Qed.

(** ** The sign bit *)

(** Step 1 of the manual conversion sets the sign for the numbers below
    zero and for NaN, and for nothing else. *)
Lemma manual_sign_spec (x : PyFloat.float) :
  manual_sign x = 1 <-> PyFloat.lt0 x = true \/ PyFloat.is_nan x = true.
Proof.
  unfold manual_sign, PyFloat.ge0, PyFloat.lt0, PyFloat.is_nan,
    PyFloat.zero, SFleb, SFltb.
  destruct x as [s | [] | | [] m e]; cbn [SFcompare];
    split; intros H; try discriminate H; try reflexivity; auto;
    destruct H as [H | H]; discriminate H.
Qed.

(** C4: for -0.0 the manual conversion computes the sign 0, as for 0.0,
    where the native encoder, most significant byte first, returns the
    sign bit 1; on a little-endian host the native encoder returns the
    sign bit 0 for -1.0. *)
Theorem manual_sign_negative_zero :
  manual_sign f_neg_zero = 0
  /\ manual_sign f_pos_zero = 0
  /\ (exists r, decimal_to_ieee754_single BigEndian f_neg_zero = OK r
                /\ sign r = "1")
  /\ (exists r, decimal_to_ieee754_single LittleEndian f_neg_1_0 = OK r
                /\ sign r = "0").
Proof.
  conj_split; try (vm_compute; reflexivity);
    eexists; split; vm_compute; reflexivity.
Qed.

(** ** Zero and small magnitudes *)

(** When the integer part is zero and no digit 1 is found among the
    generated fractional digits, the manual conversion raises
    [ValueError]. *)
Lemma manual_raises_without_one_bit
  (x fractional_part : PyFloat.float) (frac_binary : string) :
  PyFloat.to_int (PyFloat.abs x) = OK 0 ->
  PyFloat.sub_int (PyFloat.abs x) 0 = OK fractional_part ->
  frac_loop 23 fractional_part "" = OK frac_binary ->
  PyStr.find "1" frac_binary = None ->
  manual_float_conversion x = Raise ValueError.
Proof.
  intros Hint Hsub Hloop Hfind.
  unfold manual_float_conversion, manual_trace.
  rewrite Hint. cbn [bind]. rewrite Hsub. cbn [bind].
  rewrite Hloop. cbn [bind].
  change (0 <? 0) with false. cbv iota.
  unfold PyStr.index. rewrite Hfind. reflexivity.
Qed.

(** C5: the manual conversion of a zero of either sign, and of 2^-24,
    raises [ValueError]: no digit 1 is found among the generated
    fractional digits.  The native encoder returns the zero fields for
    0.0 on either host. *)
Theorem manual_raises_on_zero :
  (forall s, manual_float_conversion (S754_zero s) = Raise ValueError)
  /\ manual_float_conversion (pow2 (-24)) = Raise ValueError
  /\ (forall host,
        exists r, decimal_to_ieee754_single host f_pos_zero = OK r
                  /\ sign r = "0"
                  /\ exponent r = "00000000"
                  /\ mantissa r = "00000000000000000000000").
Proof.
  split; [| split].
  - intros []; vm_compute; reflexivity.
  - vm_compute; reflexivity.
  - intros []; eexists; by_evaluation.
Qed.

(** ** Agreement of the two encoders *)

(** C10: 0.5 + 2^-24 is a single precision number (the conversion to
    single precision and back returns it), and the two encoders disagree on
    it on either host: the manual conversion stops after 23 fractional
    digits and drops its last bit. *)
Theorem encoders_disagree_half_plus_ulp :
  Struct.of_single (Struct.to_single f_half_plus_ulp) = f_half_plus_ulp
  /\ manual_float_conversion f_half_plus_ulp
     = OK "00111111000000000000000000000000"
  /\ native_bits BigEndian f_half_plus_ulp
     = OK "00111111000000000000000000000001"
  /\ native_bits LittleEndian f_half_plus_ulp
     = OK "00000001000000000000000000111111"
  /\ (forall host,
        manual_float_conversion f_half_plus_ulp
        <> native_bits host f_half_plus_ulp).
Proof.
  conj_split; [vm_compute; reflexivity .. |].
  intros []; vm_compute; discriminate.
Qed.

(** ** Exponent overflow and underflow *)

(** On a valid double whose biased exponent would exceed 254 the native
    encoder saturates: with the most significant byte first its fields are
    those of the infinity of the same sign. *)
Lemma native_encoder_saturates (s : bool) (m : positive) (e : Z) :
  valid_binary PyFloat.prec PyFloat.emax (S754_finite s m e) = true ->
  254 < biased_exponent m e ->
  decimal_to_ieee754_single BigEndian (S754_finite s m e)
  = OK {| full := (if s then "1" else "0") ++ "1111111100000000000000000000000";
          sign := if s then "1" else "0";
          exponent := "11111111";
          mantissa := "00000000000000000000000";
          sign_val := if s then "-" else "+";
          exponent_val := 128;
          exponent_biased := 255 |}.
Proof.
  unfold biased_exponent, unbiased_exponent. intros Hv HE.
  unfold decimal_to_ieee754_single, Struct.pack_f.
  rewrite to_single_overflow by (assumption || lia).
  destruct s; vm_compute; reflexivity.
Qed.

(** C6: the manual conversion has no saturation.  For 2^129, whose biased
    exponent would be 256, it returns a text of 33 characters, the
    exponent taking nine digits; for 2^-127, whose biased exponent would
    be 0, it raises [ValueError].  The native encoder returns the infinity
    fields for 2^129 (most significant byte first) and a text of 32 digits
    for 2^-127. *)
Theorem manual_out_of_range :
  pow2 129 = S754_finite false 4503599627370496 77
  /\ biased_exponent 4503599627370496 77 = 256
  /\ manual_float_conversion (pow2 129)
     = OK "010000000000000000000000000000000"
  /\ pow2 (-127) = S754_finite false 4503599627370496 (-179)
  /\ biased_exponent 4503599627370496 (-179) = 0
  /\ manual_float_conversion (pow2 (-127)) = Raise ValueError
  /\ native_bits BigEndian (pow2 129)
     = OK "01111111100000000000000000000000"
  /\ native_bits BigEndian (pow2 (-127))
     = OK "00000000010000000000000000000000".
Proof. by_evaluation. Qed.

(** In the last binade of single precision the native encoder rounds the
    doubles from [2^128 - 2^103] on to the infinity. *)
Lemma native_encoder_last_binade :
  biased_exponent 9007198986305536 75 = 254
  /\ native_bits BigEndian (S754_finite false 9007198717870080 75)
     = OK "01111111011111111111111111111111"
  /\ native_bits BigEndian (S754_finite false 9007198986305536 75)
     = OK "01111111100000000000000000000000".
Proof. by_evaluation. Qed.

(** ** Malformed input of the decoder *)

(** C7, as stated, fails: a text of 33 binary digits is decoded without
    an error, its last character being ignored. *)
Lemma decoder_accepts_33_characters :
  ~ (forall host s,
        String.length s <> 32%nat \/ all_bits s = false ->
        raises (ieee754_single_to_decimal host s)).
Proof.
  intros H.
  destruct (H BigEndian "010000001101000000000000000000001") as [e He].
  - left. vm_compute. discriminate.
  - vm_compute in He. discriminate He.
Qed.

(** A text of 32 characters that are not all binary digits is decoded
    too when [int(., 2)] accepts its slices: here the first one starts
    with a space. *)
Lemma decoder_accepts_space :
  all_bits " 1000000110100000000000000000000" = false
  /\ ieee754_single_to_decimal BigEndian " 1000000110100000000000000000000"
     = OK f_6_5.
Proof. by_evaluation. Qed.

(** C7, amended: the decoder does not check the length of its input.  It
    raises, and then a [ValueError], exactly when one of the slices
    [s[0:8]], [s[8:16]], [s[16:24]], [s[24:32]] is not read by [int(., 2)]
    as a number from 0 to 255.  So every input of at most 24 characters
    raises [ValueError], and every input of 25 or more binary digits is
    decoded; the characters after the 32nd are never read. *)
Theorem decoder_length_handling (host : byteorder) (s : string) :
  (returns (ieee754_single_to_decimal host s)
   <-> Forall (slice_ok s) byte_starts)
  /\ (forall e, ieee754_single_to_decimal host s = Raise e -> e = ValueError)
  /\ ((String.length s <= 24)%nat ->
      ieee754_single_to_decimal host s = Raise ValueError)
  /\ ((25 <= String.length s)%nat -> all_bits s = true ->
      returns (ieee754_single_to_decimal host s))
  /\ ieee754_single_to_decimal host s
     = ieee754_single_to_decimal host (PyStr.slice_to 32 s).
Proof.
  split; [apply decoder_returns_iff |].
  split; [intros e; apply decoder_raises_value_error |].
  split; [apply decoder_short |].
  split; [| apply decoder_reads_32].
  intros HL HA. apply decoder_returns_iff. unfold byte_starts.
  repeat constructor; apply slice_ok_bits; try assumption; lia.
Qed.

Lemma decoder_length_handling_witness :
  ieee754_single_to_decimal LittleEndian "010000001101000000000000"
  = Raise ValueError
  /\ returns (ieee754_single_to_decimal LittleEndian
                "0100000011010000000000001").
Proof.
  split.
  - destruct (decoder_length_handling LittleEndian "010000001101000000000000")
      as (_ & _ & Hshort & _).
    apply Hshort. cbn [String.length]. lia.
  - destruct (decoder_length_handling LittleEndian "0100000011010000000000001")
      as (_ & _ & _ & Hlong & _).
    apply Hlong; [cbn [String.length]; lia | vm_compute; reflexivity].
Defined.

(** ** Totality of the decoder *)

(** C8: on every text of 32 binary digits the decoder returns a value and
    raises nothing, whatever the byte order of the host: the double of the
    single precision number whose word the text denotes, its bytes taken in
    the order of the host; that number is in exactly the category the
    exponent and mantissa fields of the word select. *)
Theorem decoder_total (host : byteorder) (s : string) :
  String.length s = 32%nat -> all_bits s = true ->
  exists y,
    ieee754_single_to_decimal host s = OK (Struct.of_single y)
    /\ y = Struct.single_of_bits (word_of_text host s)
    /\ classify y = field_category (word_of_text host s).
Proof.
  intros HL HA. exists (Struct.single_of_bits (word_of_text host s)).
  split; [| split; [reflexivity | apply single_of_bits_category]].
  unfold ieee754_single_to_decimal.
  rewrite (fill_bytes_bits s HL HA). cbn [bind Struct.unpack_f].
  now rewrite word_of_text_bytes.
Qed.

Lemma decoder_total_witness :
  exists y,
    ieee754_single_to_decimal LittleEndian "01000000110100000000000000000000"
    = OK (Struct.of_single y)
    /\ y = Struct.single_of_bits
             (word_of_text LittleEndian "01000000110100000000000000000000")
    /\ classify y
       = field_category
           (word_of_text LittleEndian "01000000110100000000000000000000").
Proof.
  apply (decoder_total LittleEndian "01000000110100000000000000000000");
    vm_compute; reflexivity.
Defined.

(** * Further properties of the encoder and the decoder *)

(** ** Round trips *)

Lemma word_fields (s : bool) (E M : Z) :
  0 <= E < 256 -> 0 <= M < 2 ^ 23 ->
  let w := Struct.sign_field s + E * 2 ^ 23 + M in
  Z.testbit w 31 = s /\ (w / 2 ^ 23) mod 256 = E /\ w mod 2 ^ 23 = M
  /\ 0 <= w < 2 ^ 32.
Proof.
  intros HE HM w.
  assert (H23 : 0 < 2 ^ 23) by reflexivity.
  assert (Hdiv : w / 2 ^ 23 = (if s then 256 else 0) + E).
  { symmetry. apply Z.div_unique with (r := M); [lia |].
    subst w. unfold Struct.sign_field. destruct s.
    - change (2 ^ 31) with (256 * 2 ^ 23). ring.
    - ring. }
  assert (Hmod : w mod 2 ^ 23 = M).
  { symmetry. apply Z.mod_unique with (q := (if s then 256 else 0) + E); [lia |].
    subst w. unfold Struct.sign_field. destruct s.
    - change (2 ^ 31) with (256 * 2 ^ 23). ring.
    - ring. }
  assert (Hrest : 0 <= E * 2 ^ 23 + M < 2 ^ 31).
  { change (2 ^ 31) with (256 * 2 ^ 23). nia. }
  repeat split.
  - destruct s.
    + apply Z.testbit_true; [lia |].
      replace (w / 2 ^ 31) with 1; [reflexivity |].
      apply Z.div_unique with (r := E * 2 ^ 23 + M); [lia |].
      subst w. unfold Struct.sign_field. ring.
    + apply Z.testbit_false; [lia |].
      replace (w / 2 ^ 31) with 0; [reflexivity |].
      apply Z.div_unique with (r := E * 2 ^ 23 + M); [lia |].
      subst w. unfold Struct.sign_field. ring.
  - rewrite Hdiv. destruct s.
    + replace (256 + E) with (E + 1 * 256) by ring.
      rewrite Z.mod_add by discriminate. apply Z.mod_small. lia.
    + apply Z.mod_small. lia.
  - exact Hmod.
  - subst w. unfold Struct.sign_field. destruct s; lia.
  - subst w. unfold Struct.sign_field.
    change (2 ^ 32) with (2 ^ 31 + 2 ^ 31). destruct s; lia.
Qed.

(** Decoding the word of a canonical single precision number gives the
    number back. *)
Lemma single_of_bits_of_single (y : spec_float) :
  single_canonical y ->
  Struct.single_of_bits (Struct.bits_of_single y) = y
  /\ 0 <= Struct.bits_of_single y < 2 ^ 32.
Proof.
  destruct y as [s | s | | s q e]; cbn [single_canonical Struct.bits_of_single].
  - intros _.
    destruct (word_fields s 0 0 ltac:(lia) ltac:(lia)) as (Hs & He & Hm & Hw).
    cbn zeta in *. rewrite Z.mul_0_l, !Z.add_0_r in *.
    unfold Struct.single_of_bits. rewrite Hs, He, Hm. split; [reflexivity | exact Hw].
  - intros _.
    destruct (word_fields s 255 0 ltac:(lia) ltac:(lia)) as (Hs & He & Hm & Hw).
    cbn zeta in *. rewrite !Z.add_0_r in *.
    unfold Struct.single_of_bits. rewrite Hs, He, Hm. split; [reflexivity | exact Hw].
  - intros _. split; [reflexivity | split; [discriminate | reflexivity]].
  - intros (Hq & He & Hsub).
    assert (H23 : 0 < 2 ^ 23) by reflexivity.
    destruct (2 ^ 23 <=? Zpos q) eqn:Hn.
    + apply Z.leb_le in Hn.
      change (2 ^ 24) with (2 * 2 ^ 23) in Hq.
      destruct (word_fields s (e + 150) (Zpos q - 2 ^ 23) ltac:(lia) ltac:(lia))
        as (Hs & Hef & Hm & Hw).
      cbn zeta in *.
      unfold Struct.single_of_bits. rewrite Hs, Hef, Hm.
      replace (e + 150 =? 0) with false by (symmetry; apply Z.eqb_neq; lia).
      replace (e + 150 =? 255) with false by (symmetry; apply Z.eqb_neq; lia).
      replace (Zpos q - 2 ^ 23 + 2 ^ 23) with (Zpos q) by ring.
      replace (e + 150 - 150) with e by ring.
      split; [reflexivity | exact Hw].
    + apply Z.leb_gt in Hn. specialize (Hsub Hn). subst e.
      destruct (word_fields s 0 (Zpos q) ltac:(lia) ltac:(lia))
        as (Hs & Hef & Hm & Hw).
      cbn zeta in *. rewrite Z.mul_0_l, Z.add_0_r in *.
      unfold Struct.single_of_bits. rewrite Hs, Hef, Hm.
      split; [reflexivity | exact Hw].
Qed.

Lemma to_single_canonical (x : PyFloat.float) :
  valid_binary 53 1024 x = true -> single_canonical (Struct.to_single x).
Proof.
  intros Hv. destruct x as [s | s | | s m e]; try exact I.
  destruct (to_single_shape s m e Hv)
    as (m2 & e2 & Hs & He2 & Hm2 & _ & _ & Hsub).
  rewrite Hs. destruct m2 as [| q | q]; try exact I.
  destruct (e2 <=? 104) eqn:Hle; [| exact I].
  apply Z.leb_le in Hle. cbn [single_canonical].
  repeat split; try lia; exact Hsub.
Qed.

Lemma substring_app_take (a b : string) (n : nat) :
  String.length a = n -> substring 0 n (a ++ b) = a.
Proof.
  intros <-.
  induction a as [| c a IH]; cbn [String.length String.append substring].
  - now destruct b.
  - now rewrite IH.
Qed.

Lemma substring_app_skip (a b : string) (k i n : nat) :
  String.length a = k -> substring (k + i) n (a ++ b) = substring i n b.
Proof.
  intros <-.
  induction a as [| c a IH]; cbn [String.length String.append Nat.add substring];
    [reflexivity | exact IH].
Qed.

(** The four slices the decoder reads from the text of four bytes. *)
Lemma slices_of_join (t0 t1 t2 t3 : string) :
  String.length t0 = 8%nat -> String.length t1 = 8%nat ->
  String.length t2 = 8%nat -> String.length t3 = 8%nat ->
  let t := PyStr.join [t0; t1; t2; t3] in
  PyStr.slice 0 8 t = t0 /\ PyStr.slice 8 16 t = t1
  /\ PyStr.slice 16 24 t = t2 /\ PyStr.slice 24 32 t = t3.
Proof.
  intros L0 L1 L2 L3 t. subst t. cbn [PyStr.join fold_right]. unfold PyStr.slice.
  change (8 - 0)%nat with 8%nat. change (16 - 8)%nat with 8%nat.
  change (24 - 16)%nat with 8%nat. change (32 - 24)%nat with 8%nat.
  repeat split.
  - now apply substring_app_take.
  - rewrite (substring_app_skip t0 _ 8 0 8 L0).
    now apply substring_app_take.
  - rewrite (substring_app_skip t0 _ 8 8 8 L0).
    rewrite (substring_app_skip t1 _ 8 0 8 L1).
    now apply substring_app_take.
  - rewrite (substring_app_skip t0 _ 8 16 8 L0).
    rewrite (substring_app_skip t1 _ 8 8 8 L1).
    rewrite (substring_app_skip t2 _ 8 0 8 L2).
    now apply substring_app_take.
Qed.

(** The decoder's loop reads back the bytes whose text it is given. *)
Lemma fill_bytes_of_text (b0 b1 b2 b3 : Z) :
  is_byte b0 -> is_byte b1 -> is_byte b2 -> is_byte b3 ->
  fill_bytes byte_starts
    (PyStr.join (map PyInt.format_08b [b0; b1; b2; b3])) []
  = OK [b0; b1; b2; b3].
Proof.
  intros H0 H1 H2 H3.
  destruct (format_08b_byte b0 H0) as (L0 & _ & E0).
  destruct (format_08b_byte b1 H1) as (L1 & _ & E1).
  destruct (format_08b_byte b2 H2) as (L2 & _ & E2).
  destruct (format_08b_byte b3 H3) as (L3 & _ & E3).
  cbn [map].
  destruct (slices_of_join _ _ _ _ L0 L1 L2 L3) as (S0 & S1 & S2 & S3).
  cbv zeta in S0, S1, S2, S3.
  unfold byte_starts. cbn [fill_bytes Nat.add].
  rewrite S0, E0. cbn [bind]. rewrite (bytearray_append_byte _ _ H0). cbn [bind app].
  rewrite S1, E1. cbn [bind]. rewrite (bytearray_append_byte _ _ H1). cbn [bind app].
  rewrite S2, E2. cbn [bind]. rewrite (bytearray_append_byte _ _ H2). cbn [bind app].
  rewrite S3, E3. cbn [bind]. rewrite (bytearray_append_byte _ _ H3). cbn [bind app].
  reflexivity.
Qed.

Lemma order_involutive (host : byteorder) (l : list Z) :
  Struct.order host (Struct.order host l) = l.
Proof. destruct host; cbn [Struct.order]; [reflexivity | apply rev_involutive]. Qed.

Lemma word_be_bytes_be (w : Z) :
  0 <= w < 2 ^ 32 -> Struct.word_be (Struct.bytes_be w) = w.
Proof.
  intros Hw. unfold Struct.bytes_be, Struct.word_be. cbn [fold_left].
  assert (E8 : w / 2 ^ 8 = w / 256) by reflexivity.
  assert (E16 : w / 2 ^ 16 = w / 256 / 256)
    by (rewrite Z.div_div by lia; reflexivity).
  assert (E24 : w / 2 ^ 24 = w / 256 / 256 / 256)
    by (rewrite !Z.div_div by lia; reflexivity).
  rewrite E8, E16, E24.
  set (a := w / 256). set (b := a / 256). set (c := b / 256).
  pose proof (Z.div_mod w 256 ltac:(lia)) as Ha. fold a in Ha.
  pose proof (Z.div_mod a 256 ltac:(lia)) as Hb. fold b in Hb.
  pose proof (Z.div_mod b 256 ltac:(lia)) as Hc. fold c in Hc.
  pose proof (Z.mod_pos_bound w 256 ltac:(lia)).
  pose proof (Z.mod_pos_bound a 256 ltac:(lia)).
  pose proof (Z.mod_pos_bound b 256 ltac:(lia)).
  assert (Hc0 : 0 <= c < 256).
  { change (2 ^ 32) with (256 * 256 * 256 * 256) in Hw. lia. }
  rewrite (Z.mod_small c) by exact Hc0. lia.
Qed.

(** The decoder applied to the text of the packed bytes, on the same
    host, returns the packed single precision number as a double. *)
Lemma decode_packed (host : byteorder) (x : PyFloat.float) :
  ieee754_single_to_decimal host
    (PyStr.join (map PyInt.format_08b (Struct.pack_f host x)))
  = OK (Struct.of_single
          (Struct.single_of_bits
             (Struct.word_be (Struct.bytes_be
                (Struct.bits_of_single (Struct.to_single x)))))).
Proof.
  destruct (pack_f_four_bytes host x) as (b0 & b1 & b2 & b3 & Hp & H0 & H1 & H2 & H3).
  unfold ieee754_single_to_decimal. rewrite Hp.
  rewrite (fill_bytes_of_text b0 b1 b2 b3 H0 H1 H2 H3). cbn [bind Struct.unpack_f].
  rewrite <- Hp. unfold Struct.pack_f. now rewrite order_involutive.
Qed.

(** *** Exact rounding *)
Lemma shr_1_exact (m : Z) :
  0 <= m -> m mod 2 = 0 ->
  shr_1 {| shr_m := m; shr_r := false; shr_s := false |}
  = {| shr_m := m / 2; shr_r := false; shr_s := false |}.
Proof.
  intros Hm Hmod. cbn [shr_1 orb].
  destruct m as [| [p | p |] | p]; try lia.
  - reflexivity.
  - exfalso. rewrite Pos2Z.inj_xI in Hmod.
    replace (2 * Z.pos p + 1) with (1 + Z.pos p * 2) in Hmod by ring.
    rewrite Z.mod_add in Hmod by discriminate. discriminate Hmod.
  - f_equal. apply Z.div_unique with (r := 0); lia.
  - discriminate Hmod.
Qed.

Lemma mod_pow2_split (m a b : Z) :
  0 <= a -> 0 <= b -> m mod 2 ^ (a + b) = 0 ->
  m mod 2 ^ a = 0 /\ (m / 2 ^ a) mod 2 ^ b = 0.
Proof.
  intros Ha Hb H.
  assert (Pa : 0 < 2 ^ a) by (apply Z.pow_pos_nonneg; lia).
  assert (Pb : 0 < 2 ^ b) by (apply Z.pow_pos_nonneg; lia).
  rewrite Z.pow_add_r in H by lia.
  apply Z.mod_divide in H; [| lia]. destruct H as [k Hk].
  split.
  - apply Z.mod_divide; [lia |]. exists (k * 2 ^ b). rewrite Hk. ring.
  - apply Z.mod_divide; [lia |]. exists k.
    rewrite Hk. replace (k * (2 ^ a * 2 ^ b)) with (k * 2 ^ b * 2 ^ a) by ring.
    now rewrite Z.div_mul by lia.
Qed.

(** Shifting out zero bits leaves an exact record. *)
Lemma iter_shr_1_exact (p : positive) :
  forall m, 0 <= m -> m mod 2 ^ Zpos p = 0 ->
    iter_pos shr_1 p {| shr_m := m; shr_r := false; shr_s := false |}
    = {| shr_m := m / 2 ^ Zpos p; shr_r := false; shr_s := false |}.
Proof.
  induction p as [p IH | p IH |]; intros m Hm Hmod; cbn [iter_pos].
  - replace (Zpos p~1) with (1 + (Zpos p + Zpos p)) in * by lia.
    destruct (mod_pow2_split m 1 (Zpos p + Zpos p) ltac:(lia) ltac:(lia) Hmod)
      as [H1 H2].
    change (2 ^ 1) with 2 in H1, H2.
    destruct (mod_pow2_split (m / 2) (Zpos p) (Zpos p) ltac:(lia) ltac:(lia) H2)
      as [H3 H4].
    assert (0 <= m / 2) by (apply Z.div_pos; lia).
    assert (0 < 2 ^ Zpos p) by (apply Z.pow_pos_nonneg; lia).
    assert (0 <= m / 2 / 2 ^ Zpos p) by (apply Z.div_pos; lia).
    rewrite shr_1_exact, IH, IH by assumption.
    f_equal. rewrite !Z.div_div by lia.
    f_equal. change 2 with (2 ^ 1) at 1. now rewrite <- !Z.pow_add_r by lia.
  - replace (Zpos p~0) with (Zpos p + Zpos p) in * by lia.
    destruct (mod_pow2_split m (Zpos p) (Zpos p) ltac:(lia) ltac:(lia) Hmod)
      as [H3 H4].
    assert (0 < 2 ^ Zpos p) by (apply Z.pow_pos_nonneg; lia).
    assert (0 <= m / 2 ^ Zpos p) by (apply Z.div_pos; lia).
    rewrite IH, IH by assumption.
    f_equal. rewrite !Z.div_div by lia.
    f_equal. now rewrite <- !Z.pow_add_r by lia.
  - change (2 ^ 1) with 2 in *. now apply shr_1_exact.
Qed.

Lemma Zdigits2_unique (q k : Z) :
  0 < q -> 2 ^ (k - 1) <= q < 2 ^ k -> Zdigits2 q = k.
Proof.
  intros Hq [Hlo Hhi].
  pose proof (Zdigits2_pow q Hq) as H1.
  pose proof (Zdigits2_lt q ltac:(lia)) as H2.
  assert (Hd : 0 < Zdigits2 q) by (destruct q; cbn [Zdigits2]; lia).
  assert (Hk : 0 < k).
  { destruct (Z.lt_ge_cases 0 k) as [| Hle]; [assumption |].
    exfalso. destruct (Z.eq_dec k 0) as [-> | Hne].
    - change (2 ^ 0) with 1 in Hhi. lia.
    - rewrite Z.pow_neg_r in Hhi by lia. lia. }
  destruct (Z.lt_trichotomy (Zdigits2 q) k) as [Hlt | [Heq | Hgt]];
    [| exact Heq |].
  - assert (2 ^ Zdigits2 q <= 2 ^ (k - 1)) by (apply Z.pow_le_mono_r; lia). lia.
  - assert (2 ^ k <= 2 ^ (Zdigits2 q - 1)) by (apply Z.pow_le_mono_r; lia). lia.
Qed.

Lemma Zdigits2_div_pow2 (q n : Z) :
  0 < q -> 0 <= n -> q mod 2 ^ n = 0 ->
  0 < q / 2 ^ n /\ Zdigits2 (q / 2 ^ n) = Zdigits2 q - n.
Proof.
  intros Hq Hn Hmod.
  assert (Pn : 0 < 2 ^ n) by (apply Z.pow_pos_nonneg; lia).
  apply Z.mod_divide in Hmod; [| lia]. destruct Hmod as [k Hk].
  assert (Hdiv : q / 2 ^ n = k) by (rewrite Hk; apply Z.div_mul; lia).
  assert (Hkpos : 0 < k) by nia.
  rewrite Hdiv. split; [exact Hkpos |].
  pose proof (Zdigits2_pow q Hq) as H1.
  pose proof (Zdigits2_lt q ltac:(lia)) as H2.
  set (d := Zdigits2 q) in *.
  assert (Hd : 0 < d) by (subst d; destruct q; cbn [Zdigits2]; lia).
  assert (Hdn : n < d).
  { destruct (Z.lt_ge_cases n d) as [| Hge]; [assumption |].
    exfalso. assert (2 ^ d <= 2 ^ n) by (apply Z.pow_le_mono_r; lia). nia. }
  apply Zdigits2_unique; [exact Hkpos |].
  replace (d - 1) with ((d - n - 1) + n) in H1 by lia.
  replace d with ((d - n) + n) in H2 at 1 by lia.
  rewrite Z.pow_add_r in H1, H2 by lia.
  rewrite Hk in H1, H2. split; nia.
Qed.

Lemma loc_exact_record (m : Z) :
  loc_of_shr_record {| shr_m := m; shr_r := false; shr_s := false |} = loc_Exact.
Proof. reflexivity. Qed.

(** Rounding a mantissa that needs no shift, or only loses zero bits, is
    exact. *)
Lemma binary_round_aux_exact (prec emax : Z) (s : bool) (mx : positive) (ex : Z) :
  let n := fexp prec emax (Zpos (digits2_pos mx) + ex) - ex in
  (n <= 0 ->
   binary_round_aux prec emax s (Zpos mx) ex loc_Exact
   = if ex <=? emax - prec then S754_finite s mx ex else S754_infinity s)
  /\ (0 < n -> Zpos mx mod 2 ^ n = 0 ->
      binary_round_aux prec emax s (Zpos mx) ex loc_Exact
      = if ex + n <=? emax - prec
        then S754_finite s (Z.to_pos (Zpos mx / 2 ^ n)) (ex + n)
        else S754_infinity s).
Proof.
  intros n. split.
  - intros Hn. unfold binary_round_aux, shr_fexp.
    cbn [Zdigits2 shr_record_of_loc]. fold n. unfold shr at 1.
    assert (Hfirst : match n with
                     | Zpos p => (iter_pos shr_1 p
                                    {| shr_m := Zpos mx; shr_r := false; shr_s := false |},
                                  ex + n)
                     | _ => ({| shr_m := Zpos mx; shr_r := false; shr_s := false |}, ex)
                     end
                     = ({| shr_m := Zpos mx; shr_r := false; shr_s := false |}, ex))
      by (destruct n; [reflexivity | lia | reflexivity]).
    rewrite Hfirst. cbn [shr_m]. rewrite loc_exact_record.
    cbn [round_nearest_even Zdigits2 shr_record_of_loc]. fold n.
    unfold shr. rewrite Hfirst. reflexivity.
  - intros Hn Hmod. unfold binary_round_aux, shr_fexp.
    cbn [Zdigits2 shr_record_of_loc]. fold n. unfold shr at 1.
    destruct n as [| p | p] eqn:En; try lia.
    rewrite iter_shr_1_exact by (lia || assumption).
    cbn [shr_m]. rewrite loc_exact_record. cbn [round_nearest_even].
    destruct (Zdigits2_div_pow2 (Zpos mx) (Zpos p) ltac:(lia) ltac:(lia) Hmod)
      as [Hpos Hdig].
    destruct (Zpos mx / 2 ^ Zpos p) as [| q | q] eqn:Eq; try lia.
    cbn [shr_record_of_loc]. rewrite Hdig. cbn [Zdigits2].
    replace (Zpos (digits2_pos mx) - Zpos p + (ex + Zpos p))
      with (Zpos (digits2_pos mx) + ex) by ring.
    replace (fexp prec emax (Zpos (digits2_pos mx) + ex) - (ex + Zpos p))
      with 0 by lia.
    cbn [shr shr_m Z.to_pos]. reflexivity.
Qed.

Lemma iter_xO_value (mx d : positive) :
  Zpos (Pos.iter xO mx d) = Zpos mx * 2 ^ Zpos d
  /\ Zpos (digits2_pos (Pos.iter xO mx d)) = Zpos (digits2_pos mx) + Zpos d.
Proof.
  induction d as [| d IH] using Pos.peano_ind.
  - cbn [Pos.iter digits2_pos]. split; [change (2 ^ 1) with 2; lia | lia].
  - rewrite Pos.iter_succ. cbn [digits2_pos]. destruct IH as [IH1 IH2].
    rewrite Pos2Z.inj_succ, Z.pow_succ_r by lia. split; lia.
Qed.

(** [binary_round] of a mantissa that fits is exact: the mantissa is
    shifted to the canonical exponent. *)
Lemma binary_round_exact (prec emax : Z) (s : bool) (mx : positive) (ex : Z) :
  let f := fexp prec emax (Zpos (digits2_pos mx) + ex) in
  (f <= ex ->
   binary_round prec emax s mx ex
   = if f <=? emax - prec
     then S754_finite s (Z.to_pos (Zpos mx * 2 ^ (ex - f))) f
     else S754_infinity s)
  /\ (ex < f -> Zpos mx mod 2 ^ (f - ex) = 0 ->
      binary_round prec emax s mx ex
      = if f <=? emax - prec
        then S754_finite s (Z.to_pos (Zpos mx / 2 ^ (f - ex))) f
        else S754_infinity s).
Proof.
  intros f. split.
  - intros Hf. unfold binary_round, shl_align. fold f.
    destruct (f - ex) as [| d | d] eqn:Hd; try lia.
    + assert (Hfe : f = ex) by lia.
      destruct (binary_round_aux_exact prec emax s mx ex) as [H1 _].
      cbn zeta in H1. fold f in H1. rewrite H1 by lia.
      rewrite Hfe, Z.sub_diag, Z.pow_0_r, Z.mul_1_r. reflexivity.
    + destruct (iter_xO_value mx d) as [Hval Hdig].
      destruct (binary_round_aux_exact prec emax s (Pos.iter xO mx d) f) as [H1 _].
      cbn zeta in H1. rewrite Hdig in H1.
      replace (Zpos (digits2_pos mx) + Zpos d + f)
        with (Zpos (digits2_pos mx) + ex) in H1 by lia.
      fold f in H1. rewrite H1 by lia.
      replace (ex - f) with (Zpos d) by lia. rewrite <- Hval. reflexivity.
  - intros Hf Hmod. unfold binary_round, shl_align. fold f.
    destruct (f - ex) as [| d | d] eqn:Hd; try lia.
    destruct (binary_round_aux_exact prec emax s mx ex) as [_ H2].
    cbn zeta in H2. fold f in H2. rewrite Hd in H2.
    rewrite H2 by (lia || assumption).
    replace (ex + Zpos d) with f by lia. reflexivity.
Qed.

(** Valid single precision numbers, as [valid_binary 24 128] has them. *)
Lemma valid_single_cases (s : bool) (q : positive) (e : Z) :
  valid_binary 24 128 (S754_finite s q e) = true ->
  Z.max (Zpos (digits2_pos q) + e - 24) (-149) = e /\ e <= 104.
Proof.
  cbn [valid_binary]. unfold bounded, canonical_mantissa, fexp, emin.
  intros H. apply andb_true_iff in H. destruct H as [H1 H2].
  apply Z.eqb_eq in H1. apply Z.leb_le in H2. lia.
Qed.

Lemma fexp_double (k : Z) : fexp 53 1024 k = Z.max (k - 53) (-1074).
Proof. unfold fexp, emin. lia. Qed.

(** The conversion of a valid single precision number to a double. *)
Lemma of_single_finite (s : bool) (q : positive) (e : Z) :
  valid_binary 24 128 (S754_finite s q e) = true ->
  let k := 53 - Zpos (digits2_pos q) in
  Struct.of_single (S754_finite s q e)
  = S754_finite s (Z.to_pos (Zpos q * 2 ^ k)) (e - k)
  /\ 29 <= k.
Proof.
  intros Hv k. destruct (valid_single_cases s q e Hv) as [Hc He].
  cbn [Struct.of_single]. unfold PyFloat.prec, PyFloat.emax.
  destruct (binary_round_exact 53 1024 s q e) as [H1 _].
  cbn zeta in H1. rewrite fexp_double in H1.
  assert (Hd : 0 < Zpos (digits2_pos q)) by lia.
  assert (Hf : Z.max (Zpos (digits2_pos q) + e - 53) (-1074) = e - k)
    by (subst k; lia).
  rewrite Hf in H1. rewrite H1 by lia.
  replace (e - k <=? 1024 - 53) with true
    by (symmetry; apply Z.leb_le; subst k; lia).
  replace (e - (e - k)) with k by ring.
  split; [reflexivity | subst k; lia].
Qed.

(** Converting a valid single precision number to a double and back
    returns it. *)
Lemma to_single_of_single (y : spec_float) :
  valid_binary 24 128 y = true ->
  Struct.to_single (Struct.of_single y) = y.
Proof.
  intros Hv. destruct y as [s | s | | s q e]; try reflexivity.
  destruct (of_single_finite s q e Hv) as [Ho Hk]. cbn zeta in Ho, Hk.
  rewrite Ho. destruct (valid_single_cases s q e Hv) as [Hc He].
  set (k := 53 - Zpos (digits2_pos q)) in *.
  assert (Pk : 0 < 2 ^ k) by (apply Z.pow_pos_nonneg; lia).
  set (M := Zpos q * 2 ^ k).
  assert (HM : 0 < M) by (subst M; lia).
  destruct M as [| mz | mz] eqn:EM; try lia.
  cbn [Z.to_pos Struct.to_single].
  assert (Hdig : Zdigits2 (Zpos mz) = 53).
  { apply Zdigits2_unique; [lia |].
    pose proof (digits2_pos_bounds q) as [Hlo Hhi].
    rewrite <- EM. subst M.
    assert (E1 : 2 ^ (53 - 1) = 2 ^ (Zpos (digits2_pos q) - 1) * 2 ^ k)
      by (rewrite <- Z.pow_add_r by lia; f_equal; subst k; lia).
    assert (E2 : 2 ^ 53 = 2 ^ Zpos (digits2_pos q) * 2 ^ k)
      by (rewrite <- Z.pow_add_r by lia; f_equal; subst k; lia).
    rewrite E1, E2. split.
    - apply Z.mul_le_mono_nonneg_r; lia.
    - apply Z.mul_lt_mono_pos_r; lia. }
  cbn [Zdigits2] in Hdig.
  destruct (binary_round_exact 24 128 s mz (e - k)) as [_ H2].
  cbn zeta in H2. rewrite Hdig, fexp_single in H2.
  assert (Hf : Z.max (53 + (e - k) - 24) (-149) = e) by (subst k; lia).
  rewrite Hf in H2. replace (e - (e - k)) with k in H2 by ring.
  rewrite H2.
  - replace (e <=? 128 - 24) with true by (symmetry; apply Z.leb_le; lia).
    rewrite <- EM. subst M. rewrite Z.div_mul by lia. reflexivity.
  - lia.
  - rewrite <- EM. subst M. apply Z.mod_mul. lia.
Qed.

Lemma single_of_bits_valid (w : Z) :
  valid_binary 24 128 (Struct.single_of_bits w) = true.
Proof.
  unfold Struct.single_of_bits.
  pose proof (Z.mod_pos_bound w (2 ^ 23) ltac:(reflexivity)) as Hm.
  pose proof (Z.mod_pos_bound (w / 2 ^ 23) 256 ltac:(reflexivity)) as He.
  set (m := w mod 2 ^ 23) in *. set (e := (w / 2 ^ 23) mod 256) in *.
  assert (Hvalid : forall s p ex,
             Z.max (Zpos (digits2_pos p) + ex - 24) (-149) = ex -> ex <= 104 ->
             valid_binary 24 128 (S754_finite s p ex) = true).
  { intros s p ex H1 H2. cbn [valid_binary].
    unfold bounded, canonical_mantissa, fexp, emin.
    apply andb_true_iff. split; [apply Z.eqb_eq | apply Z.leb_le]; lia. }
  destruct (e =? 0) eqn:E0.
  - destruct m as [| p | p] eqn:Em; try reflexivity.
    apply Hvalid; [| lia].
    pose proof (Zdigits2_le (Zpos p) 23 ltac:(lia) ltac:(lia)) as Hd.
    cbn [Zdigits2] in Hd. lia.
  - apply Z.eqb_neq in E0. destruct (e =? 255) eqn:E255.
    + destruct (m =? 0); reflexivity.
    + apply Z.eqb_neq in E255.
      destruct (m + 2 ^ 23) as [| p | p] eqn:Ep; try reflexivity.
      assert (H23 : 0 < 2 ^ 23) by reflexivity.
      assert (Hd : Zdigits2 (Zpos p) = 24).
      { apply Zdigits2_unique; [lia |]. rewrite <- Ep.
        change (2 ^ (24 - 1)) with (2 ^ 23). change (2 ^ 24) with (2 ^ 23 + 2 ^ 23).
        lia. }
      cbn [Zdigits2] in Hd. apply Hvalid; lia.
Qed.

Lemma testbit_31 (w : Z) :
  0 <= w < 2 ^ 32 ->
  Struct.sign_field (Z.testbit w 31) = 2 ^ 31 * (w / 2 ^ 31)
  /\ 0 <= w / 2 ^ 31 <= 1.
Proof.
  intros Hw.
  assert (Hq : 0 <= w / 2 ^ 31 < 2).
  { split; [apply Z.div_pos; [lia | reflexivity] |].
    apply Z.div_lt_upper_bound; [reflexivity |].
    change (2 ^ 31 * 2) with (2 ^ 32). lia. }
  split; [| lia].
  rewrite Z.testbit_odd, Z.shiftr_div_pow2 by lia.
  assert (Hc : w / 2 ^ 31 = 0 \/ w / 2 ^ 31 = 1) by lia.
  destruct Hc as [-> | ->]; reflexivity.
Qed.

(** A 32-bit word is made of its sign, exponent and mantissa fields. *)
Lemma word_decompose (w : Z) :
  0 <= w < 2 ^ 32 ->
  w = Struct.sign_field (Z.testbit w 31)
      + (w / 2 ^ 23) mod 256 * 2 ^ 23 + w mod 2 ^ 23.
Proof.
  intros Hw. destruct (testbit_31 w Hw) as [Hs Hq]. rewrite Hs.
  pose proof (Z.div_mod w (2 ^ 23) ltac:(discriminate)) as H1.
  pose proof (Z.div_mod (w / 2 ^ 23) 256 ltac:(discriminate)) as H2.
  assert (H3 : w / 2 ^ 23 / 256 = w / 2 ^ 31)
    by (rewrite Z.div_div by lia; reflexivity).
  rewrite H3 in H2.
  change (2 ^ 31) with (256 * 2 ^ 23) at 1. lia.
Qed.

(** Encoding the number a word decodes to gives the word back, unless
    the word is a NaN. *)
Lemma bits_of_single_of_bits (w : Z) :
  0 <= w < 2 ^ 32 ->
  classify (Struct.single_of_bits w) <> NaN ->
  Struct.bits_of_single (Struct.single_of_bits w) = w.
Proof.
  intros Hw Hn. pose proof (word_decompose w Hw) as Hd.
  revert Hn. unfold Struct.single_of_bits.
  pose proof (Z.mod_pos_bound w (2 ^ 23) ltac:(reflexivity)) as Hm.
  pose proof (Z.mod_pos_bound (w / 2 ^ 23) 256 ltac:(reflexivity)) as He.
  set (m := w mod 2 ^ 23) in *. set (e := (w / 2 ^ 23) mod 256) in *.
  set (s := Z.testbit w 31) in *.
  assert (H23 : 0 < 2 ^ 23) by reflexivity.
  destruct (e =? 0) eqn:E0.
  - apply Z.eqb_eq in E0. rewrite E0 in Hd.
    destruct m as [| p | p] eqn:Em; intros _; cbn [Struct.bits_of_single]; try lia.
    replace (2 ^ 23 <=? Zpos p) with false by (symmetry; apply Z.leb_gt; lia).
    lia.
  - apply Z.eqb_neq in E0. destruct (e =? 255) eqn:E255.
    + apply Z.eqb_eq in E255. rewrite E255 in Hd.
      destruct (m =? 0) eqn:M0; intros Hn.
      * apply Z.eqb_eq in M0. cbn [Struct.bits_of_single]. lia.
      * exfalso. apply Hn. reflexivity.
    + apply Z.eqb_neq in E255.
      destruct (m + 2 ^ 23) as [| p | p] eqn:Ep; intros _; try lia.
      cbn [Struct.bits_of_single].
      replace (2 ^ 23 <=? Zpos p) with true by (symmetry; apply Z.leb_le; lia).
      lia.
Qed.

Lemma bytes_be_word_be (b0 b1 b2 b3 : Z) :
  is_byte b0 -> is_byte b1 -> is_byte b2 -> is_byte b3 ->
  Struct.bytes_be (Struct.word_be [b0; b1; b2; b3]) = [b0; b1; b2; b3]
  /\ 0 <= Struct.word_be [b0; b1; b2; b3] < 2 ^ 32.
Proof.
  unfold is_byte. intros H0 H1 H2 H3.
  unfold Struct.bytes_be, Struct.word_be. cbn [fold_left].
  set (w := (((0 * 256 + b0) * 256 + b1) * 256 + b2) * 256 + b3).
  assert (E3 : w mod 256 = b3).
  { symmetry. apply Z.mod_unique with (q := ((0 * 256 + b0) * 256 + b1) * 256 + b2);
      [lia | subst w; ring]. }
  assert (D8 : w / 2 ^ 8 = ((0 * 256 + b0) * 256 + b1) * 256 + b2).
  { symmetry. apply Z.div_unique with (r := b3); [lia | subst w].
    change (2 ^ 8) with 256. ring. }
  assert (D16 : w / 2 ^ 16 = (0 * 256 + b0) * 256 + b1).
  { symmetry. apply Z.div_unique with (r := b2 * 256 + b3).
    - change (2 ^ 16) with (256 * 256). lia.
    - subst w. change (2 ^ 16) with (256 * 256). ring. }
  assert (D24 : w / 2 ^ 24 = b0).
  { symmetry. apply Z.div_unique with (r := (b1 * 256 + b2) * 256 + b3).
    - change (2 ^ 24) with (256 * 256 * 256). lia.
    - subst w. change (2 ^ 24) with (256 * 256 * 256). ring. }
  assert (M0 : b0 mod 256 = b0) by (apply Z.mod_small; lia).
  assert (M1 : ((0 * 256 + b0) * 256 + b1) mod 256 = b1).
  { symmetry. apply Z.mod_unique with (q := 0 * 256 + b0); [lia | ring]. }
  assert (M2 : (((0 * 256 + b0) * 256 + b1) * 256 + b2) mod 256 = b2).
  { symmetry. apply Z.mod_unique with (q := (0 * 256 + b0) * 256 + b1); [lia | ring]. }
  rewrite E3, D8, D16, D24, M0, M1, M2. split; [reflexivity |].
  subst w. change (2 ^ 32) with (256 * 256 * 256 * 256). lia.
Qed.

Lemma bits_value_inj (a : string) :
  forall b acc,
    all_bits a = true -> all_bits b = true ->
    String.length a = String.length b -> 0 <= acc ->
    bits_value a acc = bits_value b acc -> a = b.
Proof.
  induction a as [| c a IH]; intros [| d b] acc Ha Hb HL Hacc Hv;
    try discriminate HL; [reflexivity |].
  apply all_bits_cons in Ha. destruct Ha as [Hc Ha].
  apply all_bits_cons in Hb. destruct Hb as [Hd Hb].
  cbn [String.length] in HL. injection HL as HL.
  cbn [bits_value] in Hv.
  pose proof (bits_value_bounds a) as Ba. pose proof (bits_value_bounds b) as Bb.
  rewrite <- HL in Bb.
  assert (P : 0 < 2 ^ Z.of_nat (String.length a)) by (apply Z.pow_pos_nonneg; lia).
  destruct Hc as [-> | ->], Hd as [-> | ->];
    change (Ascii.eqb "0" "1") with false in Hv;
    change (Ascii.eqb "1" "1") with true in Hv; cbv iota in Hv.
  - f_equal. apply (IH b (2 * acc + 0)); auto. lia.
  - exfalso. specialize (Ba (2 * acc + 0) ltac:(lia)).
    specialize (Bb (2 * acc + 1) ltac:(lia)). nia.
  - exfalso. specialize (Ba (2 * acc + 1) ltac:(lia)).
    specialize (Bb (2 * acc + 0) ltac:(lia)). nia.
  - f_equal. apply (IH b (2 * acc + 1)); auto. lia.
Qed.

(** The eight digits of the number that eight binary digits denote. *)
Lemma format_08b_bits_value (t : string) :
  String.length t = 8%nat -> all_bits t = true ->
  PyInt.format_08b (bits_value t 0) = t.
Proof.
  intros HL HA.
  pose proof (bits_value_bounds t 0 ltac:(lia)) as Hb. rewrite HL in Hb.
  change (2 ^ Z.of_nat 8) with 256 in Hb.
  assert (Hbyte : is_byte (bits_value t 0)) by (unfold is_byte; lia).
  destruct (format_08b_byte _ Hbyte) as (L & A & E).
  rewrite of_string2_bits in E by (assumption || (apply nonempty_length; lia)).
  injection E as E.
  apply (bits_value_inj _ _ 0); try assumption; lia.
Qed.

(** Decoding what the native encoder returns gives the input rounded to
    single precision, on either host. *)
Theorem roundtrip_rounds_to_single (host : byteorder) (x : PyFloat.float) :
  valid_binary PyFloat.prec PyFloat.emax x = true ->
  roundtrip host x = OK (Struct.of_single (Struct.to_single x)).
Proof.
  intros Hv. unfold roundtrip.
  destruct (native_encoder_total host x) as (r & Hr & Hfull & _).
  rewrite Hr. cbn [bind]. rewrite Hfull, decode_packed.
  destruct (single_of_bits_of_single _ (to_single_canonical x Hv)) as [Hy Hw].
  now rewrite (word_be_bytes_be _ Hw), Hy.
Qed.

Lemma roundtrip_rounds_to_single_witness :
  roundtrip LittleEndian f_0_1
  = OK (Struct.of_single (Struct.to_single f_0_1)).
Proof.
  apply (roundtrip_rounds_to_single LittleEndian f_0_1).
  vm_compute. reflexivity.
Defined.

Lemma append_empty (t : string) : t ++ "" = t.
Proof. induction t as [| c t IH]; cbn [String.append]; [reflexivity | now rewrite IH]. Qed.

Lemma slice_bytes (s : string) (i : nat) :
  String.length s = 32%nat -> all_bits s = true -> (i + 8 <= 32)%nat ->
  is_byte (bits_value (PyStr.slice i (i + 8) s) 0)
  /\ PyInt.format_08b (bits_value (PyStr.slice i (i + 8) s) 0)
     = PyStr.slice i (i + 8) s.
Proof.
  intros HL HA Hi.
  assert (L : String.length (PyStr.slice i (i + 8) s) = 8%nat)
    by (apply length_slice_8; assumption).
  assert (A : all_bits (PyStr.slice i (i + 8) s) = true)
    by (unfold PyStr.slice; now apply all_bits_substring).
  split; [| now apply format_08b_bits_value].
  pose proof (bits_value_bounds (PyStr.slice i (i + 8) s) 0 ltac:(lia)) as Hb.
  rewrite L in Hb. change (2 ^ Z.of_nat 8) with 256 in Hb. unfold is_byte. lia.
Qed.

(** Encoding what the decoder returns for a text of 32 binary digits
    gives the text back, on either host, unless the text is a NaN. *)
Theorem reencode_decoded (host : byteorder) (s : string) :
  String.length s = 32%nat -> all_bits s = true ->
  field_category (word_of_text host s) <> NaN ->
  exists v r,
    ieee754_single_to_decimal host s = OK v
    /\ decimal_to_ieee754_single host v = OK r
    /\ full r = s.
Proof.
  intros HL HA Hcat.
  set (y := Struct.single_of_bits (word_of_text host s)).
  exists (Struct.of_single y).
  destruct (native_encoder_total host (Struct.of_single y)) as (r & Hr & Hfull & _).
  exists r. split; [| split; [exact Hr |]].
  { unfold ieee754_single_to_decimal.
    rewrite (fill_bytes_bits s HL HA). cbn [bind Struct.unpack_f].
    now rewrite word_of_text_bytes. }
  rewrite Hfull. unfold Struct.pack_f.
  rewrite (to_single_of_single y (single_of_bits_valid _)).
  destruct (slice_bytes s 0 HL HA ltac:(lia)) as [B0 F0].
  destruct (slice_bytes s 8 HL HA ltac:(lia)) as [B1 F1].
  destruct (slice_bytes s 16 HL HA ltac:(lia)) as [B2 F2].
  destruct (slice_bytes s 24 HL HA ltac:(lia)) as [B3 F3].
  cbn [Nat.add] in B0, B1, B2, B3, F0, F1, F2, F3.
  set (l := [bits_value (PyStr.slice 0 8 s) 0; bits_value (PyStr.slice 8 16 s) 0;
             bits_value (PyStr.slice 16 24 s) 0; bits_value (PyStr.slice 24 32 s) 0]).
  assert (Hw : word_of_text host s = Struct.word_be (Struct.order host l))
    by (symmetry; apply word_of_text_bytes; exact HL).
  assert (Hbytes : Struct.bytes_be (Struct.word_be (Struct.order host l))
                   = Struct.order host l
                   /\ 0 <= Struct.word_be (Struct.order host l) < 2 ^ 32).
  { subst l. destruct host; cbn [Struct.order rev app];
      apply bytes_be_word_be; assumption. }
  destruct Hbytes as [Hb Hrange].
  subst y. rewrite bits_of_single_of_bits.
  - rewrite Hw, Hb, order_involutive. subst l.
    cbn [map PyStr.join fold_right]. rewrite F0, F1, F2, F3, append_empty.
    symmetry. apply text_four_slices. exact HL.
  - rewrite Hw. exact Hrange.
  - rewrite single_of_bits_category. exact Hcat.
Qed.

Lemma reencode_decoded_witness :
  exists v r,
    ieee754_single_to_decimal LittleEndian "11001101110011001100110000111101"
    = OK v
    /\ decimal_to_ieee754_single LittleEndian v = OK r
    /\ full r = "11001101110011001100110000111101".
Proof.
  apply (reencode_decoded LittleEndian "11001101110011001100110000111101").
  - reflexivity.
  - reflexivity.
  - vm_compute. discriminate.
Defined.

(** ** The entries of the native encoder *)

Lemma native_encoder_fields (host : byteorder) (x : PyFloat.float) :
  exists r,
    decimal_to_ieee754_single host x = OK r
    /\ String.length (full r) = 32%nat
    /\ all_bits (full r) = true
    /\ full r = sign r ++ exponent r ++ mantissa r
    /\ String.length (sign r) = 1%nat
    /\ String.length (exponent r) = 8%nat
    /\ String.length (mantissa r) = 23%nat
    /\ exponent_biased r = bits_value (exponent r) 0
    /\ 0 <= exponent_biased r <= 255
    /\ exponent_val r = exponent_biased r - 127
    /\ sign_val r = (if String.eqb (sign r) "1" then "-" else "+").
Proof.
  unfold decimal_to_ieee754_single. cbv zeta.
  destruct (pack_f_four_bytes host x) as (b0 & b1 & b2 & b3 & -> & H0 & H1 & H2 & H3).
  destruct (join_four_bytes b0 b1 b2 b3 H0 H1 H2 H3) as [HL HA].
  set (t := PyStr.join (map PyInt.format_08b [b0; b1; b2; b3])) in *.
  destruct (fields_of_32_bits t HL HA) as (c & Hi & Ht & HLe & HLm & HAe & HAm).
  rewrite Hi. cbn [bind].
  rewrite (of_string2_bits _ HAe) by (apply nonempty_length; lia).
  cbn [bind]. eexists. split; [reflexivity |].
  cbn [full sign exponent mantissa exponent_biased exponent_val sign_val].
  pose proof (bits_value_bounds (PyStr.slice 1 9 t) 0 ltac:(lia)) as Hb.
  rewrite HLe in Hb. change (2 ^ Z.of_nat 8) with 256 in Hb.
  repeat split; try assumption; try reflexivity; lia.
Qed.


Lemma bits_value_join_bytes (b0 b1 b2 b3 : Z) :
  is_byte b0 -> is_byte b1 -> is_byte b2 -> is_byte b3 ->
  bits_value (PyStr.join (map PyInt.format_08b [b0; b1; b2; b3])) 0
  = Struct.word_be [b0; b1; b2; b3].
Proof.
  intros H0 H1 H2 H3.
  destruct (format_08b_byte b0 H0) as (L0 & A0 & E0).
  destruct (format_08b_byte b1 H1) as (L1 & A1 & E1).
  destruct (format_08b_byte b2 H2) as (L2 & A2 & E2).
  destruct (format_08b_byte b3 H3) as (L3 & A3 & E3).
  rewrite of_string2_bits in E0, E1, E2, E3
    by (assumption || (apply nonempty_length; lia)).
  injection E0 as E0. injection E1 as E1. injection E2 as E2. injection E3 as E3.
  cbn [map PyStr.join fold_right]. rewrite !bits_value_app. cbn [bits_value].
  rewrite (bits_value_byte _ (bits_value _ _) L3).
  rewrite (bits_value_byte _ (bits_value _ _) L2).
  rewrite (bits_value_byte _ (bits_value _ _) L1).
  rewrite E0, E1, E2, E3. unfold Struct.word_be. cbn [fold_left]. ring.
Qed.

(** With the most significant byte first the text is the word in binary,
    and the exponent and mantissa entries are its fields. *)
Lemma native_fields_word (x : PyFloat.float) :
  let w := Struct.bits_of_single (Struct.to_single x) in
  0 <= w < 2 ^ 32 ->
  exists r,
    decimal_to_ieee754_single BigEndian x = OK r
    /\ bits_value (full r) 0 = w
    /\ exponent_biased r = (w / 2 ^ 23) mod 256
    /\ bits_value (mantissa r) 0 = w mod 2 ^ 23
    /\ exponent_val r = exponent_biased r - 127.
Proof.
  intros w Hw.
  destruct (native_encoder_fields BigEndian x)
    as (r & Hr & HL & HA & Hcut & Ls & Le & Lm & Hb & Hbr & Hv & _).
  destruct (native_encoder_total BigEndian x) as (r' & Hr' & Hfull & _).
  rewrite Hr in Hr'. injection Hr' as <-.
  exists r. split; [exact Hr |].
  assert (Hword : bits_value (full r) 0 = w).
  { rewrite Hfull.
    destruct (pack_f_four_bytes BigEndian x) as (b0 & b1 & b2 & b3 & Hp & H0 & H1 & H2 & H3).
    rewrite Hp, bits_value_join_bytes by assumption. rewrite <- Hp.
    unfold Struct.pack_f. cbn [Struct.order]. now apply word_be_bytes_be. }
  split; [exact Hword |].
  rewrite Hcut, !bits_value_app in Hword.
  rewrite (bits_value_shift (mantissa r)), (bits_value_shift (exponent r)) in Hword.
  rewrite Lm, Le in Hword.
  change (2 ^ Z.of_nat 23) with (2 ^ 23) in Hword.
  change (2 ^ Z.of_nat 8) with 256 in Hword.
  pose proof (bits_value_bounds (sign r) 0 ltac:(lia)) as Bs. rewrite Ls in Bs.
  pose proof (bits_value_bounds (mantissa r) 0 ltac:(lia)) as Bm. rewrite Lm in Bm.
  change (2 ^ Z.of_nat 1) with 2 in Bs. change (2 ^ Z.of_nat 23) with (2 ^ 23) in Bm.
  rewrite <- Hb in Hword.
  set (S := bits_value (sign r) 0) in *. set (M := bits_value (mantissa r) 0) in *.
  assert (H23 : 0 < 2 ^ 23) by reflexivity.
  assert (Hdiv : w / 2 ^ 23 = S * 256 + exponent_biased r).
  { symmetry. apply Z.div_unique with (r := M); [lia | rewrite <- Hword; ring]. }
  repeat split.
  - rewrite Hdiv. rewrite Z.add_comm, Z.mod_add by discriminate.
    symmetry. apply Z.mod_small. lia.
  - apply Z.mod_unique with (q := S * 256 + exponent_biased r);
      [lia | rewrite <- Hword; ring].
  - exact Hv.
Qed.

(** The formula of the format: with the most significant byte first, a
    double in the normal range of single precision is rounded to
    [(2^23 + mantissa) * 2^(exponent_val - 23)] with the sign of the
    sign entry, and [exponent_val] is the exponent of the double or one
    more. *)
Theorem native_fields_formula (s : bool) (m : positive) (e : Z) :
  valid_binary PyFloat.prec PyFloat.emax (S754_finite s m e) = true ->
  1 <= biased_exponent m e < 254 ->
  exists r,
    decimal_to_ieee754_single BigEndian (S754_finite s m e) = OK r
    /\ sign r = (if s then "1" else "0")
    /\ Struct.to_single (S754_finite s m e)
       = S754_finite s (Z.to_pos (2 ^ 23 + bits_value (mantissa r) 0))
           (exponent_val r - 23)
    /\ exponent_biased r = exponent_val r + 127
    /\ unbiased_exponent m e <= exponent_val r <= unbiased_exponent m e + 1.
Proof.
  unfold biased_exponent, unbiased_exponent. intros Hv HE.
  set (x := S754_finite s m e).
  destruct (single_of_bits_of_single _ (to_single_canonical x Hv)) as [_ Hw].
  destruct (native_fields_word x Hw) as (r & Hr & _ & Hexp & Hman & Hval).
  destruct (native_sign_big_endian x Hv eq_refl) as (r' & Hr' & Hsign).
  rewrite Hr in Hr'. injection Hr' as <-.
  exists r. split; [exact Hr |]. split; [exact Hsign |].
  destruct (to_single_shape s m e Hv)
    as (m2 & e2 & Hs & He2 & Hm2 & _ & Hnorm & _).
  cbn zeta in He2. specialize (Hnorm ltac:(lia)).
  assert (H23 : 0 < 2 ^ 23) by reflexivity.
  destruct m2 as [| q | q]; try lia.
  replace (e2 <=? 104) with true in Hs by (symmetry; apply Z.leb_le; lia).
  subst x. rewrite Hs in Hexp, Hman. cbn [Struct.bits_of_single] in Hexp, Hman.
  replace (2 ^ 23 <=? Zpos q) with true in Hexp, Hman
    by (symmetry; apply Z.leb_le; lia).
  change (2 ^ 24) with (2 * 2 ^ 23) in Hm2.
  destruct (word_fields s (e2 + 150) (Zpos q - 2 ^ 23) ltac:(lia) ltac:(lia))
    as (_ & Hf1 & Hf2 & _).
  cbn zeta in Hf1, Hf2. rewrite Hf1 in Hexp. rewrite Hf2 in Hman.
  rewrite Hs, Hman, Hval, Hexp.
  replace (2 ^ 23 + (Zpos q - 2 ^ 23)) with (Zpos q) by ring.
  cbn [Z.to_pos]. replace (e2 + 150 - 127 - 23) with e2 by ring.
  repeat split; lia.
Qed.

Lemma native_fields_formula_witness :
  exists r,
    decimal_to_ieee754_single BigEndian (S754_finite false 7205759403792794 (-56))
    = OK r
    /\ sign r = "0"
    /\ Struct.to_single (S754_finite false 7205759403792794 (-56))
       = S754_finite false (Z.to_pos (2 ^ 23 + bits_value (mantissa r) 0))
           (exponent_val r - 23)
    /\ exponent_biased r = exponent_val r + 127
    /\ unbiased_exponent 7205759403792794 (-56) <= exponent_val r
       <= unbiased_exponent 7205759403792794 (-56) + 1.
Proof.
  apply (native_fields_formula false 7205759403792794 (-56)).
  - vm_compute. reflexivity.
  - vm_compute. split; [discriminate | reflexivity].
Defined.

(** ** Lengths of the texts *)

Lemma length_replicate (n : nat) (c : ascii) :
  String.length (PyStr.replicate n c) = n.
Proof. induction n as [| n IH]; cbn [PyStr.replicate String.length]; congruence. Qed.

Lemma length_ljust (w : nat) (c : ascii) (t : string) :
  String.length (PyStr.ljust w c t) = Nat.max w (String.length t).
Proof. unfold PyStr.ljust. rewrite length_app, length_replicate. lia. Qed.

Lemma length_rjust (w : nat) (c : ascii) (t : string) :
  String.length (PyStr.rjust w c t) = Nat.max w (String.length t).
Proof. unfold PyStr.rjust. rewrite length_app, length_replicate. lia. Qed.

Lemma length_bin_pos (p : positive) :
  String.length (PyInt.bin_pos p) = Pos.to_nat (digits2_pos p).
Proof.
  induction p as [p IH | p IH |]; cbn [PyInt.bin_pos digits2_pos];
    [| | reflexivity]; rewrite length_app, IH, Pos2Nat.inj_succ;
    cbn [String.length]; lia.
Qed.

(** [format(n, '08b')] has eight characters up to 255 and more above. *)
Lemma length_format_08b (n : Z) :
  0 <= n ->
  (n <= 255 -> String.length (PyInt.format_08b n) = 8%nat)
  /\ (256 <= n -> (8 < String.length (PyInt.format_08b n))%nat).
Proof.
  intros Hn. split.
  - intros H. apply format_08b_byte. unfold is_byte. lia.
  - intros H. destruct n as [| p | p]; try lia.
    cbn [PyInt.format_08b PyInt.bin_abs]. rewrite length_rjust, length_bin_pos.
    pose proof (digits2_pos_bounds p) as [_ Hhi].
    assert (9 <= Zpos (digits2_pos p)).
    { destruct (Z.le_gt_cases 9 (Zpos (digits2_pos p))) as [| Hlt]; [assumption |].
      assert (2 ^ Zpos (digits2_pos p) <= 2 ^ 8) by (apply Z.pow_le_mono_r; lia).
      change (2 ^ 8) with 256 in *. lia. }
    lia.
Qed.

(** ** The arithmetic of the manual conversion

    The doubles the manual conversion computes with are dyadic numbers
    [n / 2^k] with [n] below [2^53]: every operation of the fractional
    loop is exact on them. *)

Lemma Zdigits2_mul_pow2 (q j : Z) :
  0 < q -> 0 <= j -> Zdigits2 (q * 2 ^ j) = Zdigits2 q + j.
Proof.
  intros Hq Hj.
  assert (Pj : 0 < 2 ^ j) by (apply Z.pow_pos_nonneg; lia).
  pose proof (Zdigits2_pow q Hq) as H1.
  pose proof (Zdigits2_lt q ltac:(lia)) as H2.
  assert (Hd : 0 < Zdigits2 q) by (destruct q; cbn [Zdigits2]; lia).
  apply Zdigits2_unique; [nia |].
  replace (Zdigits2 q + j - 1) with (Zdigits2 q - 1 + j) by ring.
  rewrite !Z.pow_add_r by lia. split.
  - apply Z.mul_le_mono_nonneg_r; lia.
  - apply Z.mul_lt_mono_pos_r; lia.
Qed.

(** A mantissa of at most 53 bits with a small enough exponent is a
    double: normalisation only shifts it to the canonical exponent. *)
Lemma normalize_exact (n e : Z) :
  0 < n ->
  let f := Z.max (Zdigits2 n + e - 53) (-1074) in
  f <= e -> f <= 971 ->
  binary_normalize PyFloat.prec PyFloat.emax n e false
  = S754_finite false (Z.to_pos (n * 2 ^ (e - f))) f.
Proof.
  intros Hn f Hfe Hf. destruct n as [| p | p]; try lia.
  cbn [binary_normalize]. unfold PyFloat.prec, PyFloat.emax.
  destruct (binary_round_exact 53 1024 false p e) as [H1 _].
  cbn zeta in H1. rewrite fexp_double in H1. cbn [Zdigits2] in f.
  fold f in H1. rewrite H1 by exact Hfe.
  replace (f <=? 1024 - 53) with true by (symmetry; apply Z.leb_le; lia).
  reflexivity.
Qed.

Lemma dyadic_zero (k : Z) : dyadic 0 k = S754_zero false.
Proof. reflexivity. Qed.

Lemma dyadic_pos (n k : Z) :
  0 < n < 2 ^ 53 -> 0 <= k <= 1074 ->
  let f := Z.max (Zdigits2 n - k - 53) (-1074) in
  dyadic n k = S754_finite false (Z.to_pos (n * 2 ^ (- k - f))) f
  /\ f <= - k /\ 0 < n * 2 ^ (- k - f).
Proof.
  intros Hn Hk f.
  pose proof (Zdigits2_le n 53 ltac:(lia) ltac:(lia)) as Hd.
  assert (Hf : f <= - k) by (subst f; lia).
  assert (Pp : 0 < 2 ^ (- k - f)) by (apply Z.pow_pos_nonneg; lia).
  split; [| split; [exact Hf | nia]].
  unfold dyadic. rewrite normalize_exact.
  - replace (Zdigits2 n + - k - 53) with (Zdigits2 n - k - 53) by ring.
    reflexivity.
  - lia.
  - lia.
  - lia.
Qed.

(** Scaling the mantissa and the exponent against each other gives the
    same double. *)
Lemma dyadic_scale (n k j : Z) :
  0 <= n -> 0 <= j -> 0 <= k -> k + j <= 1074 -> Zdigits2 n + j <= 53 ->
  binary_normalize PyFloat.prec PyFloat.emax (n * 2 ^ j) (- k - j) false
  = dyadic n k.
Proof.
  intros Hn Hj Hk Hkj Hd.
  destruct (Z.eq_dec n 0) as [-> | Hne]; [reflexivity |].
  assert (Pj : 0 < 2 ^ j) by (apply Z.pow_pos_nonneg; lia).
  unfold dyadic.
  rewrite (normalize_exact (n * 2 ^ j)), (normalize_exact n);
    rewrite ?Zdigits2_mul_pow2 by lia; try lia; try nia.
  replace (Zdigits2 n + j + (- k - j) - 53) with (Zdigits2 n + - k - 53) by ring.
  set (f := Z.max (Zdigits2 n + - k - 53) (-1074)).
  assert (Hf : f <= - k - j) by (subst f; lia).
  f_equal. f_equal. rewrite <- Z.mul_assoc, <- Z.pow_add_r by lia.
  f_equal. f_equal. ring.
Qed.

(** A valid double with a non-positive exponent is the dyadic number of
    its mantissa. *)
Lemma valid_dyadic (m : positive) (e : Z) :
  valid_binary 53 1024 (S754_finite false m e) = true -> e <= 0 ->
  S754_finite false m e = dyadic (Zpos m) (- e).
Proof.
  intros Hv He. destruct (valid_double_cases _ _ _ Hv) as [Hc _].
  unfold dyadic. rewrite normalize_exact; cbn [Zdigits2];
    rewrite ?Z.opp_involutive; try lia.
  rewrite Hc, Z.sub_diag, Z.pow_0_r, Z.mul_1_r. reflexivity.
Qed.

Lemma of_int_0 : PyFloat.of_int 0 = OK (S754_zero false).
Proof. reflexivity. Qed.

Lemma of_int_1 :
  PyFloat.of_int 1 = OK (S754_finite false 4503599627370496 (-52)).
Proof. vm_compute. reflexivity. Qed.

Lemma of_int_2 :
  PyFloat.of_int 2 = OK (S754_finite false 4503599627370496 (-51)).
Proof. vm_compute. reflexivity. Qed.

(** [int(temp)] *)
Lemma dyadic_to_int (n k : Z) :
  0 <= n < 2 ^ 53 -> 0 <= k <= 1074 ->
  PyFloat.to_int (dyadic n k) = OK (n / 2 ^ k).
Proof.
  intros Hn Hk. destruct (Z.eq_dec n 0) as [-> | Hne].
  - rewrite dyadic_zero, Z.div_0_l; [reflexivity |].
    apply Z.pow_nonzero; lia.
  - destruct (dyadic_pos n k ltac:(lia) Hk) as (Hd & Hf & Hpos).
    cbn zeta in Hd, Hf, Hpos. rewrite Hd.
    set (f := Z.max (Zdigits2 n - k - 53) (-1074)) in *.
    cbn [PyFloat.to_int cond_Zopp]. rewrite Z2Pos.id by exact Hpos.
    rewrite Z.shiftl_div_pow2 by lia. f_equal.
    replace (2 ^ (- f)) with (2 ^ k * 2 ^ (- k - f))
      by (rewrite <- Z.pow_add_r by lia; f_equal; ring).
    apply Z.div_mul_cancel_r; apply Z.pow_nonzero; lia.
Qed.

(** [temp == 0] *)
Lemma dyadic_eq0 (n k : Z) :
  0 <= n < 2 ^ 53 -> 0 <= k <= 1074 ->
  PyFloat.eq0 (dyadic n k) = (n =? 0).
Proof.
  intros Hn Hk. destruct (Z.eq_dec n 0) as [-> | Hne]; [reflexivity |].
  destruct (dyadic_pos n k ltac:(lia) Hk) as (Hd & _). cbn zeta in Hd.
  rewrite Hd. replace (n =? 0) with false by (symmetry; apply Z.eqb_neq; exact Hne).
  reflexivity.
Qed.

(** [temp *= 2] is exact below 1. *)
Lemma dyadic_mul_2 (n k : Z) :
  0 <= n < 2 ^ 53 -> 1 <= k <= 1074 ->
  PyFloat.mul_int (dyadic n k) 2 = OK (dyadic n (k - 1)).
Proof.
  intros Hn Hk. unfold PyFloat.mul_int. rewrite of_int_2. cbn [bind].
  destruct (Z.eq_dec n 0) as [-> | Hne]; [reflexivity |].
  destruct (dyadic_pos n k ltac:(lia) ltac:(lia)) as (Hd & Hf & Hpos).
  destruct (dyadic_pos n (k - 1) ltac:(lia) ltac:(lia)) as (Hd' & Hf' & Hpos').
  cbn zeta in Hd, Hf, Hpos, Hd', Hf', Hpos'. rewrite Hd, Hd'.
  set (f := Z.max (Zdigits2 n - k - 53) (-1074)) in *.
  set (f' := Z.max (Zdigits2 n - (k - 1) - 53) (-1074)) in *.
  assert (Hff : f <= f' <= f + 1) by (subst f f'; lia).
  f_equal. unfold PyFloat.prec, PyFloat.emax. cbn [SFmul xorb].
  set (mN := Z.to_pos (n * 2 ^ (- k - f))).
  assert (HmN : Zpos mN = n * 2 ^ (- k - f)) by (subst mN; apply Z2Pos.id; lia).
  assert (Hprod : Zpos (mN * 4503599627370496) = Zpos mN * 2 ^ 52)
    by (rewrite Pos2Z.inj_mul; reflexivity).
  assert (Hdig : Zpos (digits2_pos (mN * 4503599627370496))
                 = Zdigits2 n + (- k - f) + 52).
  { change (Zpos (digits2_pos (mN * 4503599627370496)))
      with (Zdigits2 (Zpos (mN * 4503599627370496))).
    rewrite Hprod, Zdigits2_mul_pow2 by lia.
    rewrite HmN, Zdigits2_mul_pow2 by lia. reflexivity. }
  destruct (binary_round_aux_exact 53 1024 false (mN * 4503599627370496)
              (f + -51)) as [_ H2].
  cbn zeta in H2. rewrite Hdig, fexp_double in H2.
  replace (Zdigits2 n + (- k - f) + 52 + (f + -51) - 53)
    with (Zdigits2 n - (k - 1) - 53) in H2 by ring.
  fold f' in H2.
  assert (Pn : 0 < 2 ^ (f' - (f + -51))) by (apply Z.pow_pos_nonneg; lia).
  assert (Hsplit : 2 ^ 52 = 2 ^ (52 - (f' - (f + -51))) * 2 ^ (f' - (f + -51)))
    by (rewrite <- Z.pow_add_r by lia; f_equal; ring).
  rewrite H2.
  - replace (f + -51 + (f' - (f + -51))) with f' by ring.
    replace (f' <=? 1024 - 53) with true by (symmetry; apply Z.leb_le; lia).
    f_equal. f_equal. rewrite Hprod, HmN, Hsplit, Z.mul_assoc.
    rewrite Z.div_mul by lia.
    rewrite <- Z.mul_assoc, <- Z.pow_add_r by lia. f_equal. f_equal. ring.
  - lia.
  - rewrite Hprod, Hsplit, Z.mul_assoc. apply Z.mod_mul. lia.
Qed.

(** [temp -= bit] is exact. *)
Lemma dyadic_sub_bit (n k : Z) :
  0 <= n < 2 ^ 53 -> n < 2 ^ (k + 1) -> 0 <= k <= 1074 ->
  PyFloat.sub_int (dyadic n k) (n / 2 ^ k) = OK (dyadic (n mod 2 ^ k) k).
Proof.
  intros Hn Hn2 Hk.
  assert (Pk : 0 < 2 ^ k) by (apply Z.pow_pos_nonneg; lia).
  rewrite Z.pow_add_r in Hn2 by lia. change (2 ^ 1) with 2 in Hn2.
  unfold PyFloat.sub_int.
  destruct (Z.lt_ge_cases n (2 ^ k)) as [Hlt | Hge].
  - rewrite Z.div_small, Z.mod_small by lia. rewrite of_int_0. cbn [bind].
    f_equal. destruct (Z.eq_dec n 0) as [-> | Hne]; [reflexivity |].
    destruct (dyadic_pos n k ltac:(lia) Hk) as (Hd & _). cbn zeta in Hd.
    rewrite Hd. reflexivity.
  - assert (Hq : n / 2 ^ k = 1) by (symmetry; apply Z.div_unique with (r := n - 2 ^ k); lia).
    assert (Hr : n mod 2 ^ k = n - 2 ^ k)
      by (symmetry; apply Z.mod_unique with (q := 1); lia).
    rewrite Hq, Hr, of_int_1. cbn [bind]. f_equal.
    assert (Hk52 : k <= 52).
    { destruct (Z.le_gt_cases k 52) as [| Hgt]; [assumption |].
      assert (2 ^ 53 <= 2 ^ k) by (apply Z.pow_le_mono_r; lia). lia. }
    assert (Hdn : Zdigits2 n = k + 1).
    { apply Zdigits2_unique; [lia |]. replace (k + 1 - 1) with k by ring.
      rewrite Z.pow_add_r by lia. change (2 ^ 1) with 2. lia. }
    destruct (dyadic_pos n k ltac:(lia) Hk) as (Hd & _ & Hpos).
    cbn zeta in Hd, Hpos. rewrite Hdn in Hd, Hpos.
    replace (Z.max (k + 1 - k - 53) (-1074)) with (-52) in Hd, Hpos by lia.
    rewrite Hd. unfold PyFloat.prec, PyFloat.emax.
    set (mN := Z.to_pos (n * 2 ^ (- k - -52))).
    assert (HmN : Zpos mN = n * 2 ^ (- k - -52)) by (subst mN; apply Z2Pos.id; lia).
    unfold SFsub. change (Z.min (-52) (-52)) with (-52).
    unfold shl_align. change (-52 - -52) with 0. cbn [fst cond_Zopp].
    rewrite HmN.
    assert (Pj : 0 < 2 ^ (- k - -52)) by (apply Z.pow_pos_nonneg; lia).
    assert (E52 : Zpos 4503599627370496 = 2 ^ k * 2 ^ (- k - -52))
      by (rewrite <- Z.pow_add_r by lia;
          replace (k + (- k - -52)) with 52 by ring; reflexivity).
    rewrite E52.
    replace (n * 2 ^ (- k - -52) - 2 ^ k * 2 ^ (- k - -52))
      with ((n - 2 ^ k) * 2 ^ (- k - -52)) by ring.
    replace (-52) with (- k - (- k - -52)) at 2 by ring.
    apply dyadic_scale; try lia.
    pose proof (Zdigits2_le (n - 2 ^ k) k ltac:(lia) ltac:(lia)). lia.
Qed.

Lemma append_assoc (a b c : string) : (a ++ b) ++ c = a ++ (b ++ c).
Proof. induction a as [| x a IH]; cbn [append]; congruence. Qed.

Lemma frac_loop_zero (i : nat) (acc : string) :
  frac_loop (S i) (S754_zero false) acc = OK (acc ++ "0").
Proof. reflexivity. Qed.

Lemma frac_digits_zero (i w : nat) : frac_digits (S i) w 0 = "0".
Proof.
  destruct w as [| w']; cbn [frac_digits]; [reflexivity |].
  rewrite Z.div_0_l, Z.mod_0_l by (apply Z.pow_nonzero; lia). reflexivity.
Qed.

(** The fractional loop on a double below 1 computes with exact
    integers: no rounding occurs in it. *)
Lemma frac_loop_dyadic (i : nat) :
  forall (w : nat) (n : Z) (acc : string),
    0 <= n < 2 ^ 53 -> n < 2 ^ Z.of_nat w -> (w <= 1074)%nat ->
    frac_loop i (dyadic n (Z.of_nat w)) acc = OK (acc ++ frac_digits i w n).
Proof.
  induction i as [| i IH]; intros w n acc Hn Hw Hw'.
  - cbn [frac_loop frac_digits]. now rewrite append_empty.
  - destruct (Z.eq_dec n 0) as [-> | Hne].
    + rewrite dyadic_zero, frac_loop_zero, frac_digits_zero. reflexivity.
    + destruct w as [| w]; [change (2 ^ Z.of_nat 0) with 1 in Hw; lia |].
      assert (Pw : 0 < 2 ^ Z.of_nat w) by (apply Z.pow_pos_nonneg; lia).
      cbn [frac_loop frac_digits].
      rewrite dyadic_mul_2 by lia. cbn [bind].
      replace (Z.of_nat (S w) - 1) with (Z.of_nat w) by lia.
      rewrite dyadic_to_int by lia. cbn [bind].
      rewrite dyadic_sub_bit;
        [| lia | replace (Z.of_nat w + 1) with (Z.of_nat (S w)) by lia; exact Hw
         | lia].
      cbn [bind].
      pose proof (Z.mod_pos_bound n (2 ^ Z.of_nat w) Pw) as Hb.
      pose proof (Z.mod_le n (2 ^ Z.of_nat w) ltac:(lia) Pw) as Hle.
      rewrite dyadic_eq0 by lia.
      destruct (n mod 2 ^ Z.of_nat w =? 0) eqn:Ez.
      * now rewrite append_empty.
      * rewrite IH by lia. now rewrite append_assoc.
Qed.

(** ** Texts of binary digits *)

Lemma str_bit (b : Z) :
  b = 0 \/ b = 1 ->
  PyInt.str b = String (if b =? 1 then "1"%char else "0"%char) "".
Proof. intros [-> | ->]; reflexivity. Qed.

Lemma div_bit (n w : Z) :
  0 <= w -> 0 <= n < 2 ^ (w + 1) -> n / 2 ^ w = 0 \/ n / 2 ^ w = 1.
Proof.
  intros Hw Hn. rewrite Z.pow_add_r in Hn by lia. change (2 ^ 1) with 2 in Hn.
  assert (Pw : 0 < 2 ^ w) by (apply Z.pow_pos_nonneg; lia).
  destruct (Z.lt_ge_cases n (2 ^ w)).
  - left. apply Z.div_small. lia.
  - right. symmetry. apply Z.div_unique with (r := n - 2 ^ w); lia.
Qed.

Lemma pad_take_nil (j : nat) : pad_take j "" = PyStr.replicate j "0".
Proof.
  unfold pad_take, PyStr.ljust, PyStr.slice_to.
  destruct j; cbn [substring String.length append]; now rewrite ?Nat.sub_0_r.
Qed.

Lemma pad_take_0 (s : string) : pad_take 0 s = "".
Proof. unfold pad_take, PyStr.ljust, PyStr.slice_to. destruct s; reflexivity. Qed.

Lemma pad_take_cons (j : nat) (c : ascii) (s : string) :
  pad_take (S j) (String c s) = String c (pad_take j s).
Proof. reflexivity. Qed.

Lemma pad_take_zeros (j : nat) :
  forall w, pad_take j (PyStr.replicate w "0") = PyStr.replicate j "0".
Proof.
  induction j as [| j IH]; intros w; [apply pad_take_0 |].
  destruct w as [| w]; [apply pad_take_nil |].
  cbn [PyStr.replicate]. rewrite pad_take_cons, IH. reflexivity.
Qed.

Lemma pad_take_app (a : string) :
  forall j b, (String.length a <= j)%nat ->
    pad_take j (a ++ b) = a ++ pad_take (j - String.length a) b.
Proof.
  induction a as [| c a IH]; intros j b H.
  - cbn [append String.length]. now rewrite Nat.sub_0_r.
  - cbn [String.length] in H. destruct j as [| j]; [lia |].
    cbn [append String.length]. rewrite pad_take_cons, IH by lia. reflexivity.
Qed.

Lemma pad_take_app_long (a : string) :
  forall j b, (j <= String.length a)%nat ->
    pad_take j (a ++ b) = pad_take j a.
Proof.
  induction a as [| c a IH]; intros j b H.
  - cbn [String.length] in H. assert (j = O) by lia. subst j.
    now rewrite !pad_take_0.
  - destruct j as [| j]; [now rewrite !pad_take_0 |].
    cbn [String.length] in H. cbn [append].
    rewrite !pad_take_cons, IH by lia. reflexivity.
Qed.

(** Texts with the same zero-padded prefixes can replace each other
    behind a common prefix. *)
Lemma pad_take_app_congr (a b b' : string) (j : nat) :
  (forall j', (j' <= j)%nat -> pad_take j' b = pad_take j' b') ->
  pad_take j (a ++ b) = pad_take j (a ++ b').
Proof.
  intros H. destruct (Nat.le_gt_cases (String.length a) j).
  - rewrite !pad_take_app by assumption. f_equal. apply H. lia.
  - rewrite !pad_take_app_long by lia. reflexivity.
Qed.

Lemma pad_take_full (s : string) :
  pad_take (String.length s) s = s.
Proof.
  induction s as [| c s IH]; [reflexivity |].
  cbn [String.length]. now rewrite pad_take_cons, IH.
Qed.

Lemma pad_take_length (j : nat) (s : string) :
  String.length (pad_take j s) = j.
Proof.
  unfold pad_take. rewrite length_ljust. unfold PyStr.slice_to.
  rewrite length_substring. lia.
Qed.

Lemma digits_of_zero (w : nat) : digits_of w 0 = PyStr.replicate w "0".
Proof.
  induction w as [| w IH]; [reflexivity |].
  cbn [digits_of PyStr.replicate].
  rewrite Z.div_0_l, Z.mod_0_l by (apply Z.pow_nonzero; lia).
  rewrite IH. reflexivity.
Qed.

Lemma digits_of_step (w : nat) (n : Z) :
  0 <= n < 2 ^ Z.of_nat (S w) ->
  digits_of (S w) n
  = String (if n / 2 ^ Z.of_nat w =? 1 then "1"%char else "0"%char)
      (digits_of w (n mod 2 ^ Z.of_nat w)).
Proof.
  intros Hn. cbn [digits_of]. rewrite str_bit; [reflexivity |].
  apply div_bit; [lia |]. replace (Z.of_nat w + 1) with (Z.of_nat (S w)) by lia.
  exact Hn.
Qed.

Lemma length_digits_of (w : nat) :
  forall n, 0 <= n < 2 ^ Z.of_nat w -> String.length (digits_of w n) = w.
Proof.
  induction w as [| w IH]; intros n Hn; [reflexivity |].
  rewrite digits_of_step by exact Hn. cbn [String.length]. f_equal.
  apply IH. apply Z.mod_pos_bound. apply Z.pow_pos_nonneg; lia.
Qed.

Lemma all_bits_digits_of (w : nat) :
  forall n, 0 <= n < 2 ^ Z.of_nat w -> all_bits (digits_of w n) = true.
Proof.
  induction w as [| w IH]; intros n Hn; [reflexivity |].
  rewrite digits_of_step by exact Hn. cbn [all_bits].
  rewrite IH by (apply Z.mod_pos_bound; apply Z.pow_pos_nonneg; lia).
  destruct (n / 2 ^ Z.of_nat w =? 1); reflexivity.
Qed.

Lemma bits_value_digits_of (w : nat) :
  forall n acc, 0 <= n < 2 ^ Z.of_nat w ->
    bits_value (digits_of w n) acc = acc * 2 ^ Z.of_nat w + n.
Proof.
  induction w as [| w IH]; intros n acc Hn.
  - change (2 ^ Z.of_nat 0) with 1 in *. cbn [digits_of bits_value]. lia.
  - rewrite digits_of_step by exact Hn. cbn [bits_value].
    assert (Pw : 0 < 2 ^ Z.of_nat w) by (apply Z.pow_pos_nonneg; lia).
    rewrite IH by (apply Z.mod_pos_bound; exact Pw).
    rewrite Nat2Z.inj_succ, Z.pow_succ_r by lia.
    pose proof (Z.div_mod n (2 ^ Z.of_nat w) ltac:(lia)) as Hdm.
    assert (Hq : n / 2 ^ Z.of_nat w = 0 \/ n / 2 ^ Z.of_nat w = 1).
    { apply div_bit; [lia |].
      replace (Z.of_nat w + 1) with (Z.of_nat (S w)) by lia. exact Hn. }
    set (P := 2 ^ Z.of_nat w) in *.
    destruct (n / P =? 1) eqn:E;
      [apply Z.eqb_eq in E; change (Ascii.eqb "1" "1") with true
      | apply Z.eqb_neq in E; change (Ascii.eqb "0" "1") with false];
      cbv iota.
    + rewrite E in Hdm. lia.
    + destruct Hq as [Hq | Hq]; [| contradiction]. rewrite Hq in Hdm. lia.
Qed.

(** The parts of a remainder modulo a power of two. *)
Lemma mod_pow2_parts (n a b : Z) :
  0 <= a -> 0 <= b ->
  (n mod 2 ^ (a + b)) / 2 ^ b = (n / 2 ^ b) mod 2 ^ a
  /\ (n mod 2 ^ (a + b)) mod 2 ^ b = n mod 2 ^ b.
Proof.
  intros Ha Hb.
  assert (Pa : 0 < 2 ^ a) by (apply Z.pow_pos_nonneg; lia).
  assert (Pb : 0 < 2 ^ b) by (apply Z.pow_pos_nonneg; lia).
  replace (2 ^ (a + b)) with (2 ^ b * 2 ^ a)
    by (rewrite <- Z.pow_add_r by lia; f_equal; ring).
  rewrite Z.rem_mul_r by lia.
  pose proof (Z.mod_pos_bound n (2 ^ b) Pb) as Hr.
  pose proof (Z.mod_pos_bound (n / 2 ^ b) (2 ^ a) Pa) as Hq.
  split.
  - symmetry. apply Z.div_unique with (r := n mod 2 ^ b); lia.
  - symmetry. apply Z.mod_unique with (q := (n / 2 ^ b) mod 2 ^ a); lia.
Qed.

(** The digits of a number split at any position. *)
Lemma digits_of_split (a b : nat) :
  forall n, 0 <= n < 2 ^ Z.of_nat (a + b) ->
    digits_of (a + b) n
    = digits_of a (n / 2 ^ Z.of_nat b) ++ digits_of b (n mod 2 ^ Z.of_nat b).
Proof.
  induction a as [| a IH]; intros n Hn.
  - cbn [Nat.add digits_of append]. cbn [Nat.add] in Hn.
    now rewrite Z.mod_small by exact Hn.
  - change (S a + b)%nat with (S (a + b)) in *.
    cbn [digits_of append].
    assert (Pab : 0 < 2 ^ Z.of_nat (a + b)) by (apply Z.pow_pos_nonneg; lia).
    assert (Pb : 0 < 2 ^ Z.of_nat b) by (apply Z.pow_pos_nonneg; lia).
    assert (Pa : 0 < 2 ^ Z.of_nat a) by (apply Z.pow_pos_nonneg; lia).
    rewrite IH by (apply Z.mod_pos_bound; exact Pab).
    rewrite Nat2Z.inj_add.
    destruct (mod_pow2_parts n (Z.of_nat a) (Z.of_nat b) ltac:(lia) ltac:(lia))
      as [E1 E2].
    rewrite E1, E2, append_assoc. f_equal.
    f_equal. rewrite Z.div_div by lia. f_equal.
    rewrite <- Z.pow_add_r by lia. f_equal. ring.
Qed.

(** [bin(n)[2:]] is the text of the digits of [n]. *)
Lemma bin_pos_digits (p : positive) :
  PyInt.bin_pos p = digits_of (Pos.to_nat (digits2_pos p)) (Zpos p).
Proof.
  induction p as [p IH | p IH |]; cbn [PyInt.bin_pos digits2_pos];
    [| | reflexivity]; rewrite Pos2Nat.inj_succ;
    replace (S (Pos.to_nat (digits2_pos p)))
      with (Pos.to_nat (digits2_pos p) + 1)%nat by lia;
    (rewrite digits_of_split;
     [| pose proof (digits2_pos_bounds p) as [_ Hhi];
        rewrite Nat2Z.inj_add, positive_nat_Z, Z.pow_add_r by lia;
        change (2 ^ Z.of_nat 1) with 2; lia]);
    change (2 ^ Z.of_nat 1) with 2; rewrite IH.
  - assert (E1 : Zpos p~1 / 2 = Zpos p)
      by (symmetry; apply Z.div_unique with (r := 1); lia).
    assert (E2 : Zpos p~1 mod 2 = 1)
      by (symmetry; apply Z.mod_unique with (q := Zpos p); lia).
    rewrite E1, E2. reflexivity.
  - assert (E1 : Zpos p~0 / 2 = Zpos p)
      by (symmetry; apply Z.div_unique with (r := 0); lia).
    assert (E2 : Zpos p~0 mod 2 = 0)
      by (symmetry; apply Z.mod_unique with (q := Zpos p); lia).
    rewrite E1, E2. reflexivity.
Qed.

(** Zero-padded prefixes of the loop's digits are those of the
    number's digits: the early exit only drops zeros. *)
Lemma frac_digits_pad (i : nat) :
  forall w n j, 0 <= n < 2 ^ Z.of_nat w -> (j <= i)%nat ->
    pad_take j (frac_digits i w n) = pad_take j (digits_of w n).
Proof.
  induction i as [| i IH]; intros w n j Hn Hj.
  - assert (j = O) by lia. subst j. now rewrite !pad_take_0.
  - destruct w as [| w].
    + cbn [frac_digits digits_of]. rewrite pad_take_nil.
      destruct j as [| j]; [apply pad_take_0 |].
      rewrite pad_take_cons, pad_take_nil. reflexivity.
    + rewrite digits_of_step by exact Hn. cbn [frac_digits].
      rewrite str_bit
        by (apply div_bit; [lia |];
            replace (Z.of_nat w + 1) with (Z.of_nat (S w)) by lia; exact Hn).
      cbn [append].
      destruct j as [| j]; [now rewrite !pad_take_0 |].
      rewrite !pad_take_cons. f_equal.
      destruct (n mod 2 ^ Z.of_nat w =? 0) eqn:Ez.
      * apply Z.eqb_eq in Ez. rewrite Ez, digits_of_zero, pad_take_nil.
        now rewrite pad_take_zeros.
      * apply IH; [| lia]. apply Z.mod_pos_bound. apply Z.pow_pos_nonneg; lia.
Qed.

(** ** The integer part and the fraction *)

Lemma Zdigits2_div (n k : Z) :
  0 <= k -> 2 ^ k <= n -> Zdigits2 (n / 2 ^ k) = Zdigits2 n - k.
Proof.
  intros Hk Hn.
  assert (Pk : 0 < 2 ^ k) by (apply Z.pow_pos_nonneg; lia).
  pose proof (Zdigits2_pow n ltac:(lia)) as H1.
  pose proof (Zdigits2_lt n ltac:(lia)) as H2.
  assert (Hd : k < Zdigits2 n).
  { destruct (Z.lt_ge_cases k (Zdigits2 n)) as [| Hge]; [assumption |].
    assert (2 ^ Zdigits2 n <= 2 ^ k) by (apply Z.pow_le_mono_r; [lia | lia]).
    lia. }
  assert (Hq : 0 < n / 2 ^ k) by (apply Z.div_str_pos; lia).
  apply Zdigits2_unique; [exact Hq |]. split.
  - apply Z.div_le_lower_bound; [lia |].
    rewrite <- Z.pow_add_r by lia.
    replace (k + (Zdigits2 n - k - 1)) with (Zdigits2 n - 1) by ring. exact H1.
  - apply Z.div_lt_upper_bound; [lia |].
    rewrite <- Z.pow_add_r by lia.
    replace (k + (Zdigits2 n - k)) with (Zdigits2 n) by ring. exact H2.
Qed.

(** [abs_num - integer_part] is exact. *)
Lemma dyadic_sub_int (n k : Z) :
  0 <= n < 2 ^ 53 -> 0 <= k <= 1074 ->
  PyFloat.sub_int (dyadic n k) (n / 2 ^ k) = OK (dyadic (n mod 2 ^ k) k).
Proof.
  intros Hn Hk.
  assert (Pk : 0 < 2 ^ k) by (apply Z.pow_pos_nonneg; lia).
  destruct (Z.lt_ge_cases n (2 ^ k)) as [Hlt | Hge].
  - apply dyadic_sub_bit; try lia.
    rewrite Z.pow_add_r by lia. change (2 ^ 1) with 2. lia.
  - unfold PyFloat.sub_int.
    set (q := n / 2 ^ k).
    assert (Hq : 0 < q) by (apply Z.div_str_pos; lia).
    assert (Hqn : q <= n) by (apply Z.div_le_upper_bound; nia).
    assert (Hdq : Zdigits2 q = Zdigits2 n - k) by (apply Zdigits2_div; lia).
    pose proof (Zdigits2_le n 53 ltac:(lia) ltac:(lia)) as Hdn.
    pose proof (Zdigits2_pow q Hq) as Hdq1.
    assert (Hdqpos : 0 < Zdigits2 q) by (destruct q; cbn [Zdigits2]; lia).
    destruct (dyadic_pos q 0 ltac:(lia) ltac:(lia)) as (Hyq & _ & Hposq).
    destruct (dyadic_pos n k ltac:(lia) Hk) as (Hyn & _ & Hposn).
    cbn zeta in Hyq, Hposq, Hyn, Hposn.
    replace (Z.max (Zdigits2 q - 0 - 53) (-1074)) with (Zdigits2 n - k - 53)
      in Hyq, Hposq by lia.
    replace (Z.max (Zdigits2 n - k - 53) (-1074)) with (Zdigits2 n - k - 53)
      in Hyn, Hposn by lia.
    set (f := Zdigits2 n - k - 53) in *.
    assert (Hof : PyFloat.of_int q
                  = OK (S754_finite false (Z.to_pos (q * 2 ^ (- 0 - f))) f)).
    { unfold PyFloat.of_int. change (binary_normalize PyFloat.prec PyFloat.emax q 0 false)
        with (dyadic q 0). rewrite Hyq. reflexivity. }
    rewrite Hof, Hyn. cbn [bind]. f_equal.
    unfold SFsub. rewrite Z.min_id. unfold shl_align. rewrite Z.sub_diag.
    cbn [fst cond_Zopp]. rewrite !Z2Pos.id by assumption.
    pose proof (Z.div_mod n (2 ^ k) ltac:(lia)) as Hdm. fold q in Hdm.
    pose proof (Z.mod_pos_bound n (2 ^ k) Pk) as Hr.
    assert (E1 : 2 ^ (- 0 - f) = 2 ^ k * 2 ^ (- k - f))
      by (rewrite <- Z.pow_add_r by lia; f_equal; ring).
    rewrite E1.
    replace (n * 2 ^ (- k - f) - q * (2 ^ k * 2 ^ (- k - f)))
      with (n mod 2 ^ k * 2 ^ (- k - f)) by (rewrite Hdm at 2; ring).
    replace f with (- k - (- k - f)) at 2 by ring.
    apply dyadic_scale; try lia.
    pose proof (Zdigits2_le (n mod 2 ^ k) k ltac:(lia) ltac:(lia)). lia.
Qed.

(** The integer part of a double that is an integer converts back to
    the double. *)
Lemma of_int_shifted (m : positive) (e : Z) :
  valid_binary 53 1024 (S754_finite false m e) = true -> 0 <= e ->
  PyFloat.of_int (Zpos m * 2 ^ e) = OK (S754_finite false m e).
Proof.
  intros Hv He. destruct (valid_double_cases _ _ _ Hv) as [Hc Hmax].
  assert (Pe : 0 < 2 ^ e) by (apply Z.pow_pos_nonneg; lia).
  unfold PyFloat.of_int.
  assert (Hpos : 0 < Zpos m * 2 ^ e) by lia.
  assert (Hdig : Zdigits2 (Zpos m * 2 ^ e) = 53 + e)
    by (rewrite Zdigits2_mul_pow2 by lia; cbn [Zdigits2]; lia).
  destruct (Zpos m * 2 ^ e) as [| p | p] eqn:Ep; try lia.
  cbn [binary_normalize Zdigits2] in *. unfold PyFloat.prec, PyFloat.emax.
  destruct (binary_round_exact 53 1024 false p 0) as [H1 H2].
  cbn zeta in H1, H2. rewrite Hdig, fexp_double in H1, H2.
  replace (Z.max (53 + e + 0 - 53) (-1074)) with e in H1, H2 by lia.
  destruct (Z.eq_dec e 0) as [-> | Hne].
  - rewrite H1 by lia. change (0 <=? 1024 - 53) with true. cbv iota.
    rewrite Z.pow_0_r in Ep. rewrite Z.sub_diag, Z.pow_0_r, Z.mul_1_r.
    cbn [Z.to_pos]. f_equal. f_equal. lia.
  - rewrite H2.
    + replace (e <=? 1024 - 53) with true by (symmetry; apply Z.leb_le; lia).
      rewrite Z.sub_0_r, <- Ep, Z.div_mul by lia. reflexivity.
    + lia.
    + rewrite Z.sub_0_r, <- Ep. apply Z.mod_mul. lia.
Qed.

Lemma sub_self (m : positive) (e : Z) :
  SFsub PyFloat.prec PyFloat.emax (S754_finite false m e) (S754_finite false m e)
  = S754_zero false.
Proof.
  unfold SFsub. rewrite Z.min_id. unfold shl_align. rewrite Z.sub_diag.
  cbn [fst cond_Zopp]. rewrite ?Z.sub_diag, ?Z.pos_sub_diag. reflexivity.
Qed.

Lemma manual_sign_finite (s : bool) (m : positive) (e : Z) :
  PyInt.str (manual_sign (S754_finite s m e)) = (if s then "1" else "0").
Proof. destruct s; reflexivity. Qed.

(** ** The three ranges of the manual conversion *)

Lemma slice_from_bin (n : Z) :
  0 < n ->
  PyStr.slice_from 2 (PyInt.bin n) = digits_of (Z.to_nat (Zdigits2 n)) n.
Proof.
  intros Hn. destruct n as [| p | p]; try lia.
  cbn [PyInt.bin PyInt.bin_abs Zdigits2]. rewrite Z2Nat.inj_pos.
  rewrite <- bin_pos_digits. unfold PyStr.slice_from.
  cbn [append String.length substring Nat.sub]. rewrite Nat.sub_0_r.
  apply substring_all.
Qed.

Lemma slice_from_1_digits (a : nat) (n : Z) :
  0 <= n < 2 ^ Z.of_nat (S a) ->
  PyStr.slice_from 1 (digits_of (S a) n) = digits_of a (n mod 2 ^ Z.of_nat a).
Proof.
  intros Hn. rewrite digits_of_step by exact Hn. unfold PyStr.slice_from.
  cbn [String.length substring Nat.sub]. rewrite Nat.sub_0_r.
  apply substring_all.
Qed.

(** The specification's mantissa in terms of the digits of the double's
    mantissa below its leading one. *)
Lemma expansion_digits (w : nat) (s : bool) (m : positive) (e : Z) :
  expansion_mantissa w (S754_finite s m e)
  = pad_take w (digits_of (Pos.to_nat (digits2_pos m) - 1)
                  (Zpos m mod 2 ^ Z.of_nat (Pos.to_nat (digits2_pos m) - 1))).
Proof.
  unfold expansion_mantissa, pad_take. rewrite bin_pos_digits.
  destruct (Pos2Nat.is_succ (digits2_pos m)) as [a Ha].
  pose proof (digits2_pos_bounds m) as [_ Hhi].
  rewrite Ha. replace (S a - 1)%nat with a by lia.
  rewrite slice_from_1_digits; [reflexivity |].
  rewrite <- Ha, positive_nat_Z. lia.
Qed.

(** The manual conversion when the integer part is positive. *)
Lemma manual_with_integer_part
  (x fractional_part : PyFloat.float) (integer_part : Z) (frac_binary : string) :
  PyFloat.to_int (PyFloat.abs x) = OK integer_part ->
  0 < integer_part ->
  PyFloat.sub_int (PyFloat.abs x) integer_part = OK fractional_part ->
  frac_loop 23 fractional_part "" = OK frac_binary ->
  manual_float_conversion x
  = OK (PyInt.str (manual_sign x)
        ++ PyInt.format_08b
             (Z.of_nat (String.length (PyStr.slice_from 2 (PyInt.bin integer_part)))
              - 1 + 127)
        ++ pad_take 23
             (PyStr.slice_from 1 (PyStr.slice_from 2 (PyInt.bin integer_part))
              ++ frac_binary)).
Proof.
  intros Hint Hpos Hsub Hloop.
  unfold manual_float_conversion, manual_trace.
  rewrite Hint. cbn [bind]. rewrite Hsub. cbn [bind].
  rewrite Hloop. cbn [bind].
  replace (0 <? integer_part) with true by (symmetry; apply Z.ltb_lt; exact Hpos).
  cbn [bind m_final]. reflexivity.
Qed.

(** The manual conversion when the integer part is zero. *)
Lemma manual_without_integer_part
  (x fractional_part : PyFloat.float) (frac_binary : string) (first_one : nat) :
  PyFloat.to_int (PyFloat.abs x) = OK 0 ->
  PyFloat.sub_int (PyFloat.abs x) 0 = OK fractional_part ->
  frac_loop 23 fractional_part "" = OK frac_binary ->
  PyStr.find "1" frac_binary = Some first_one ->
  manual_float_conversion x
  = OK (PyInt.str (manual_sign x)
        ++ PyInt.format_08b (- (Z.of_nat first_one + 1) + 127)
        ++ pad_take 23 (PyStr.slice_from (first_one + 1) frac_binary)).
Proof.
  intros Hint Hsub Hloop Hfind.
  unfold manual_float_conversion, manual_trace.
  rewrite Hint. cbn [bind]. rewrite Hsub. cbn [bind].
  rewrite Hloop. cbn [bind].
  change (0 <? 0) with false. cbv iota.
  unfold PyStr.index. rewrite Hfind. cbn [bind m_final]. reflexivity.
Qed.

Lemma valid_double_digits (s : bool) (m : positive) (e : Z) :
  valid_binary 53 1024 (S754_finite s m e) = true ->
  Zpos m < 2 ^ 53 /\ -1074 <= e <= 971
  /\ (-1074 < e -> Zpos (digits2_pos m) = 53).
Proof.
  intros Hv. destruct (valid_double_cases _ _ _ Hv) as [Hc Hmax].
  pose proof (digits2_pos_bounds m) as [_ Hhi].
  assert (Hd : Zpos (digits2_pos m) <= 53) by lia.
  assert (2 ^ Zpos (digits2_pos m) <= 2 ^ 53) by (apply Z.pow_le_mono_r; lia).
  repeat split; lia.
Qed.

(** The exponent and the mantissa text of the manual conversion when the
    integer part [ip] has [a + 1] digits and the fraction is [F / 2^K]. *)
Lemma integer_part_text (ip F : Z) (K a : nat) :
  2 ^ Z.of_nat a <= ip < 2 ^ Z.of_nat (S a) -> 0 <= F < 2 ^ Z.of_nat K ->
  Z.of_nat (String.length (PyStr.slice_from 2 (PyInt.bin ip))) - 1 = Z.of_nat a
  /\ pad_take 23 (PyStr.slice_from 1 (PyStr.slice_from 2 (PyInt.bin ip))
                  ++ frac_digits 23 K F)
     = pad_take 23 (digits_of (a + K)
                      ((ip * 2 ^ Z.of_nat K + F) mod 2 ^ Z.of_nat (a + K))).
Proof.
  intros Hip HF.
  assert (Pa : 0 < 2 ^ Z.of_nat a) by (apply Z.pow_pos_nonneg; lia).
  assert (PK : 0 < 2 ^ Z.of_nat K) by (apply Z.pow_pos_nonneg; lia).
  assert (Hd : Zdigits2 ip = Z.of_nat (S a)).
  { apply Zdigits2_unique; [lia |].
    replace (Z.of_nat (S a) - 1) with (Z.of_nat a) by lia. exact Hip. }
  rewrite slice_from_bin by lia. rewrite Hd, Nat2Z.id.
  rewrite length_digits_of by lia. split; [lia |].
  rewrite slice_from_1_digits by lia.
  rewrite (pad_take_app_congr _ (frac_digits 23 K F) (digits_of K F))
    by (intros j' Hj'; apply frac_digits_pad; assumption).
  f_equal.
  set (n := (ip * 2 ^ Z.of_nat K + F) mod 2 ^ Z.of_nat (a + K)).
  assert (Pn : 0 < 2 ^ Z.of_nat (a + K)) by (apply Z.pow_pos_nonneg; lia).
  rewrite (digits_of_split a K n) by (subst n; apply Z.mod_pos_bound; exact Pn).
  subst n. rewrite Nat2Z.inj_add.
  destruct (mod_pow2_parts (ip * 2 ^ Z.of_nat K + F) (Z.of_nat a) (Z.of_nat K)
              ltac:(lia) ltac:(lia)) as [E1 E2].
  rewrite E1, E2.
  assert (E3 : (ip * 2 ^ Z.of_nat K + F) / 2 ^ Z.of_nat K = ip)
    by (symmetry; apply Z.div_unique with (r := F); lia).
  assert (E4 : (ip * 2 ^ Z.of_nat K + F) mod 2 ^ Z.of_nat K = F)
    by (symmetry; apply Z.mod_unique with (q := ip); lia).
  rewrite E3, E4. reflexivity.
Qed.

(** From 1 upwards the manual conversion returns the sign, the biased
    exponent in eight digits and the first 23 bits of the binary
    expansion behind the leading one. *)
Lemma manual_ge_one (s : bool) (m : positive) (e : Z) :
  valid_binary PyFloat.prec PyFloat.emax (S754_finite s m e) = true ->
  0 <= unbiased_exponent m e ->
  manual_float_conversion (S754_finite s m e)
  = OK ((if s then "1" else "0")
        ++ PyInt.format_08b (biased_exponent m e)
        ++ expansion_mantissa 23 (S754_finite s m e)).
Proof.
  intros Hv HE. unfold biased_exponent, unbiased_exponent in *.
  destruct (valid_double_digits s m e Hv) as (Hm & He & Hd).
  pose proof (digits2_pos_bounds m) as [Hlo Hhi].
  assert (Hd53 : Zpos (digits2_pos m) = 53).
  { apply Hd. pose proof (Zdigits2_le (Zpos m) 53 ltac:(lia) ltac:(lia)) as Hle.
    cbn [Zdigits2] in Hle. lia. }
  rewrite Hd53 in *. change (2 ^ (53 - 1)) with (2 ^ 52) in Hlo.
  assert (Hv' : valid_binary 53 1024 (S754_finite false m e) = true) by exact Hv.
  rewrite expansion_digits.
  assert (Hdn : Pos.to_nat (digits2_pos m) = 53%nat).
  { apply Nat2Z.inj. rewrite positive_nat_Z. exact Hd53. }
  rewrite Hdn. change (53 - 1)%nat with 52%nat.
  rewrite <- manual_sign_finite with (m := m) (e := e).
  destruct (Z.lt_ge_cases e 0) as [Hneg | Hnn].
  - (* a fractional part *)
    set (K := Z.to_nat (- e)).
    assert (HK : Z.of_nat K = - e) by (subst K; lia).
    assert (PK : 0 < 2 ^ Z.of_nat K) by (apply Z.pow_pos_nonneg; lia).
    assert (HK52 : 2 ^ Z.of_nat K <= 2 ^ 52) by (apply Z.pow_le_mono_r; lia).
    set (a := Z.to_nat (52 + e)).
    assert (Ha : Z.of_nat a = 52 + e) by (subst a; lia).
    assert (HaK : (a + K)%nat = 52%nat) by lia.
    pose proof (Z.div_mod (Zpos m) (2 ^ Z.of_nat K) ltac:(lia)) as Hdm.
    pose proof (Z.mod_pos_bound (Zpos m) (2 ^ Z.of_nat K) PK) as HF.
    assert (Hip : 2 ^ Z.of_nat a <= Zpos m / 2 ^ Z.of_nat K < 2 ^ Z.of_nat (S a)).
    { split.
      - apply Z.div_le_lower_bound; [lia |]. rewrite <- Z.pow_add_r by lia.
        replace (Z.of_nat K + Z.of_nat a) with 52 by lia. exact Hlo.
      - apply Z.div_lt_upper_bound; [lia |]. rewrite <- Z.pow_add_r by lia.
        replace (Z.of_nat K + Z.of_nat (S a)) with 53 by lia. exact Hm. }
    assert (Pa : 0 < 2 ^ Z.of_nat a) by (apply Z.pow_pos_nonneg; lia).
    rewrite (manual_with_integer_part (S754_finite s m e)
               (dyadic (Zpos m mod 2 ^ Z.of_nat K) (Z.of_nat K))
               (Zpos m / 2 ^ Z.of_nat K)
               (frac_digits 23 K (Zpos m mod 2 ^ Z.of_nat K))).
    + destruct (integer_part_text (Zpos m / 2 ^ Z.of_nat K)
                  (Zpos m mod 2 ^ Z.of_nat K) K a Hip HF) as [E1 E2].
      rewrite E1, E2, HaK.
      replace (Zpos m / 2 ^ Z.of_nat K * 2 ^ Z.of_nat K
               + Zpos m mod 2 ^ Z.of_nat K) with (Zpos m) by lia.
      replace (Z.of_nat a + 127) with (53 + e - 1 + 127) by lia.
      reflexivity.
    + cbn [PyFloat.abs SFabs]. rewrite (valid_dyadic m e Hv') by lia.
      rewrite <- HK. apply dyadic_to_int; lia.
    + lia.
    + cbn [PyFloat.abs SFabs]. rewrite (valid_dyadic m e Hv') by lia.
      rewrite <- HK. apply dyadic_sub_int; lia.
    + rewrite frac_loop_dyadic by lia. reflexivity.
  - (* an integer *)
    assert (Pe : 0 < 2 ^ e) by (apply Z.pow_pos_nonneg; lia).
    set (en := Z.to_nat e).
    assert (Hen : Z.of_nat en = e) by (subst en; lia).
    set (a := (52 + en)%nat).
    assert (Hip : 2 ^ Z.of_nat a <= Zpos m * 2 ^ e < 2 ^ Z.of_nat (S a)).
    { replace (Z.of_nat a) with (52 + e) by lia.
      replace (Z.of_nat (S a)) with (53 + e) by lia.
      rewrite !Z.pow_add_r by lia. split.
      - apply Z.mul_le_mono_nonneg_r; lia.
      - apply Z.mul_lt_mono_pos_r; lia. }
    rewrite (manual_with_integer_part (S754_finite s m e) (S754_zero false)
               (Zpos m * 2 ^ e) (frac_digits 23 0 0)).
    + destruct (integer_part_text (Zpos m * 2 ^ e) 0 0 a Hip) as [E1 E2].
      { change (2 ^ Z.of_nat 0) with 1. lia. }
      rewrite E1, E2.
      replace (Z.of_nat a + 127) with (53 + e - 1 + 127) by lia.
      f_equal. f_equal. f_equal.
      change (2 ^ Z.of_nat 0) with 1. rewrite Z.mul_1_r, Z.add_0_r.
      replace (a + 0)%nat with (52 + en)%nat by lia.
      assert (Pn : 0 < 2 ^ Z.of_nat (52 + en)) by (apply Z.pow_pos_nonneg; lia).
      rewrite digits_of_split by (apply Z.mod_pos_bound; exact Pn).
      rewrite Nat2Z.inj_add.
      destruct (mod_pow2_parts (Zpos m * 2 ^ e) (Z.of_nat 52) (Z.of_nat en)
                  ltac:(lia) ltac:(lia)) as [E3 _].
      rewrite E3, Hen, Z.div_mul by lia.
      apply pad_take_app_long.
      rewrite length_digits_of; [lia |].
      apply Z.mod_pos_bound. apply Z.pow_pos_nonneg; lia.
    + cbn [PyFloat.abs SFabs PyFloat.to_int cond_Zopp].
      rewrite Z.shiftl_mul_pow2 by lia. reflexivity.
    + lia.
    + cbn [PyFloat.abs SFabs]. unfold PyFloat.sub_int.
      rewrite (of_int_shifted m e Hv' Hnn). cbn [bind].
      rewrite sub_self. reflexivity.
    + reflexivity.
Qed.

Lemma replicate_add (j k : nat) (c : ascii) :
  PyStr.replicate (j + k) c = PyStr.replicate j c ++ PyStr.replicate k c.
Proof. induction j as [| j IH]; cbn [Nat.add PyStr.replicate append]; congruence. Qed.

Lemma pad_take_short (r : string) :
  forall j k, (String.length r <= j)%nat ->
    pad_take (j + k) r = pad_take j r ++ PyStr.replicate k "0".
Proof.
  induction r as [| c r IH]; intros j k H.
  - rewrite !pad_take_nil. apply replicate_add.
  - cbn [String.length] in H. destruct j as [| j]; [lia |].
    change (S j + k)%nat with (S (j + k)).
    rewrite !pad_take_cons, IH by lia. reflexivity.
Qed.

Lemma length_frac_digits (i : nat) :
  forall w n, 0 <= n < 2 ^ Z.of_nat w ->
    (String.length (frac_digits i w n) <= i)%nat.
Proof.
  induction i as [| i IH]; intros w n Hn; [cbn; lia |].
  destruct w as [| w]; [cbn; lia |].
  cbn [frac_digits].
  rewrite str_bit
    by (apply div_bit; [lia |];
        replace (Z.of_nat w + 1) with (Z.of_nat (S w)) by lia; exact Hn).
  cbn [append String.length].
  destruct (n mod 2 ^ Z.of_nat w =? 0); [cbn [String.length]; lia |].
  specialize (IH w (n mod 2 ^ Z.of_nat w)
                ltac:(apply Z.mod_pos_bound; apply Z.pow_pos_nonneg; lia)).
  lia.
Qed.

(** The digits of the loop for a number with [z] leading zeros. *)
Lemma frac_digits_leading (z : nat) :
  forall i d n, 2 ^ Z.of_nat d <= n < 2 ^ Z.of_nat (S d) ->
    frac_digits i (z + S d) n
    = if (i <=? z)%nat then PyStr.replicate i "0"
      else PyStr.replicate z "0"
           ++ String "1"
                (if n mod 2 ^ Z.of_nat d =? 0 then ""
                 else frac_digits (i - z - 1) d (n mod 2 ^ Z.of_nat d)).
Proof.
  induction z as [| z IH]; intros i d n Hn.
  - destruct i as [| i]; [reflexivity |].
    cbn [Nat.add Nat.leb PyStr.replicate append frac_digits].
    assert (Pd : 0 < 2 ^ Z.of_nat d) by (apply Z.pow_pos_nonneg; lia).
    rewrite Nat2Z.inj_succ, Z.pow_succ_r in Hn by lia.
    replace (n / 2 ^ Z.of_nat d) with 1
      by (apply Z.div_unique with (r := n - 2 ^ Z.of_nat d); lia).
    replace (S i - 0 - 1)%nat with i by lia. reflexivity.
  - destruct i as [| i]; [reflexivity |].
    change (S z + S d)%nat with (S (z + S d)).
    cbn [frac_digits Nat.leb].
    assert (Pd : 0 < 2 ^ Z.of_nat d) by (apply Z.pow_pos_nonneg; lia).
    assert (Hle : 2 ^ Z.of_nat (S d) <= 2 ^ Z.of_nat (z + S d))
      by (apply Z.pow_le_mono_r; lia).
    rewrite Z.div_small, Z.mod_small by lia.
    replace (n =? 0) with false by (symmetry; apply Z.eqb_neq; lia).
    rewrite IH by exact Hn. change (PyInt.str 0) with "0".
    replace (S i - S z - 1)%nat with (i - z - 1)%nat by lia.
    destruct (i <=? z)%nat; reflexivity.
Qed.

Lemma find_zeros (i : nat) : PyStr.find "1" (PyStr.replicate i "0") = None.
Proof.
  induction i as [| i IH]; [reflexivity |].
  cbn [PyStr.replicate PyStr.find]. change (Ascii.eqb "0" "1") with false.
  cbv iota. rewrite IH. reflexivity.
Qed.

Lemma find_after_zeros (z : nat) (r : string) :
  PyStr.find "1" (PyStr.replicate z "0" ++ String "1" r) = Some z.
Proof.
  induction z as [| z IH]; [reflexivity |].
  cbn [PyStr.replicate append PyStr.find]. change (Ascii.eqb "0" "1") with false.
  cbv iota. rewrite IH. reflexivity.
Qed.

Lemma slice_from_after (a : string) (c : ascii) (r : string) :
  PyStr.slice_from (String.length a + 1) (a ++ String c r) = r.
Proof.
  induction a as [| x a IH].
  - unfold PyStr.slice_from. cbn [String.length Nat.add append substring Nat.sub].
    rewrite Nat.sub_0_r. apply substring_all.
  - unfold PyStr.slice_from in *.
    cbn [String.length Nat.add append substring Nat.sub]. exact IH.
Qed.

(** Below 1 and from [2^-23] upwards the manual conversion keeps only
    the first [23 + E] bits behind the leading one, for [E] the (negative)
    exponent: the loop stops after 23 fractional digits. *)
Lemma manual_lt_one (s : bool) (m : positive) (e : Z) :
  valid_binary PyFloat.prec PyFloat.emax (S754_finite s m e) = true ->
  -23 <= unbiased_exponent m e < 0 ->
  manual_float_conversion (S754_finite s m e)
  = OK ((if s then "1" else "0")
        ++ PyInt.format_08b (biased_exponent m e)
        ++ expansion_mantissa (Z.to_nat (23 + unbiased_exponent m e))
             (S754_finite s m e)
        ++ PyStr.replicate (Z.to_nat (- unbiased_exponent m e)) "0").
Proof.
  intros Hv HE. unfold biased_exponent, unbiased_exponent in *.
  destruct (valid_double_digits s m e Hv) as (Hm & He & _).
  pose proof (digits2_pos_bounds m) as [Hlo Hhi].
  assert (Hv' : valid_binary 53 1024 (S754_finite false m e) = true) by exact Hv.
  destruct (Pos2Nat.is_succ (digits2_pos m)) as [d Hd].
  assert (HdZ : Zpos (digits2_pos m) = Z.of_nat (S d))
    by (rewrite <- Hd, positive_nat_Z; reflexivity).
  rewrite HdZ in *. replace (Z.of_nat (S d) - 1) with (Z.of_nat d) in Hlo by lia.
  set (z := Z.to_nat (- e - Z.of_nat (S d))).
  assert (Hz : Z.of_nat z = - e - Z.of_nat (S d)) by (subst z; lia).
  assert (HK : Z.of_nat (z + S d) = - e) by lia.
  assert (Hz22 : (z <= 22)%nat) by lia.
  assert (HmK : Zpos m < 2 ^ Z.of_nat (z + S d)).
  { assert (2 ^ Z.of_nat (S d) <= 2 ^ Z.of_nat (z + S d))
      by (apply Z.pow_le_mono_r; lia). lia. }
  assert (Pd : 0 < 2 ^ Z.of_nat d) by (apply Z.pow_pos_nonneg; lia).
  pose proof (Z.mod_pos_bound (Zpos m) (2 ^ Z.of_nat d) Pd) as Hr.
  rewrite expansion_digits, Hd. replace (S d - 1)%nat with d by lia.
  rewrite <- manual_sign_finite with (m := m) (e := e).
  set (r := if Zpos m mod 2 ^ Z.of_nat d =? 0 then ""
            else frac_digits (23 - z - 1) d (Zpos m mod 2 ^ Z.of_nat d)).
  assert (Hfrac : frac_digits 23 (z + S d) (Zpos m)
                  = PyStr.replicate z "0" ++ String "1" r).
  { rewrite frac_digits_leading by lia.
    replace (23 <=? z)%nat with false by (symmetry; apply Nat.leb_gt; lia).
    reflexivity. }
  rewrite (manual_without_integer_part (S754_finite s m e)
             (dyadic (Zpos m) (Z.of_nat (z + S d)))
             (frac_digits 23 (z + S d) (Zpos m)) z).
  - replace (- (Z.of_nat z + 1) + 127) with (Z.of_nat (S d) + e - 1 + 127) by lia.
    f_equal. f_equal. f_equal.
    rewrite Hfrac.
    replace (z + 1)%nat
      with (String.length (PyStr.replicate z "0") + 1)%nat
      by (rewrite length_replicate; reflexivity).
    rewrite slice_from_after.
    replace (Z.to_nat (23 + (Z.of_nat (S d) + e - 1))) with (22 - z)%nat by lia.
    replace (Z.to_nat (- (Z.of_nat (S d) + e - 1))) with (z + 1)%nat by lia.
    replace 23%nat with ((22 - z) + (z + 1))%nat at 1 by lia.
    assert (Hlen : (String.length r <= 22 - z)%nat).
    { subst r. destruct (Zpos m mod 2 ^ Z.of_nat d =? 0); [cbn; lia |].
      replace (23 - z - 1)%nat with (22 - z)%nat by lia.
      apply length_frac_digits. exact Hr. }
    rewrite pad_take_short by exact Hlen. f_equal.
    subst r. destruct (Zpos m mod 2 ^ Z.of_nat d =? 0) eqn:Ez.
    + apply Z.eqb_eq in Ez. rewrite Ez, digits_of_zero, pad_take_nil.
      now rewrite pad_take_zeros.
    + apply frac_digits_pad; [exact Hr | lia].
  - cbn [PyFloat.abs SFabs]. rewrite (valid_dyadic m e Hv') by lia.
    rewrite <- HK, dyadic_to_int by lia.
    rewrite Z.div_small by lia. reflexivity.
  - cbn [PyFloat.abs SFabs]. rewrite (valid_dyadic m e Hv') by lia.
    rewrite <- HK.
    pose proof (dyadic_sub_int (Zpos m) (Z.of_nat (z + S d)) ltac:(lia) ltac:(lia))
      as Hs.
    rewrite Z.div_small, Z.mod_small in Hs by lia. exact Hs.
  - rewrite frac_loop_dyadic by lia. reflexivity.
  - rewrite Hfrac. apply find_after_zeros.
Qed.

(** Below [2^-23] no digit 1 is generated and the manual conversion
    raises [ValueError]. *)
Lemma manual_tiny (s : bool) (m : positive) (e : Z) :
  valid_binary PyFloat.prec PyFloat.emax (S754_finite s m e) = true ->
  unbiased_exponent m e < -23 ->
  manual_float_conversion (S754_finite s m e) = Raise ValueError.
Proof.
  intros Hv HE. unfold unbiased_exponent in *.
  destruct (valid_double_digits s m e Hv) as (Hm & He & _).
  pose proof (digits2_pos_bounds m) as [Hlo Hhi].
  assert (Hv' : valid_binary 53 1024 (S754_finite false m e) = true) by exact Hv.
  destruct (Pos2Nat.is_succ (digits2_pos m)) as [d Hd].
  assert (HdZ : Zpos (digits2_pos m) = Z.of_nat (S d))
    by (rewrite <- Hd, positive_nat_Z; reflexivity).
  rewrite HdZ in *. replace (Z.of_nat (S d) - 1) with (Z.of_nat d) in Hlo by lia.
  set (z := Z.to_nat (- e - Z.of_nat (S d))).
  assert (Hz : Z.of_nat z = - e - Z.of_nat (S d)) by (subst z; lia).
  assert (HK : Z.of_nat (z + S d) = - e) by lia.
  assert (HmK : Zpos m < 2 ^ Z.of_nat (z + S d)).
  { assert (2 ^ Z.of_nat (S d) <= 2 ^ Z.of_nat (z + S d))
      by (apply Z.pow_le_mono_r; lia). lia. }
  apply (manual_raises_without_one_bit (S754_finite s m e)
           (dyadic (Zpos m) (Z.of_nat (z + S d)))
           (frac_digits 23 (z + S d) (Zpos m))).
  - cbn [PyFloat.abs SFabs]. rewrite (valid_dyadic m e Hv') by lia.
    rewrite <- HK, dyadic_to_int by lia.
    rewrite Z.div_small by lia. reflexivity.
  - cbn [PyFloat.abs SFabs]. rewrite (valid_dyadic m e Hv') by lia.
    rewrite <- HK.
    pose proof (dyadic_sub_int (Zpos m) (Z.of_nat (z + S d)) ltac:(lia) ltac:(lia))
      as Hs.
    rewrite Z.div_small, Z.mod_small in Hs by lia. exact Hs.
  - rewrite frac_loop_dyadic by lia. reflexivity.
  - rewrite frac_digits_leading by lia.
    replace (23 <=? z)%nat with true by (symmetry; apply Nat.leb_le; lia).
    apply find_zeros.
Qed.

(** ** Agreement of the manual conversion with the native encoder *)

Lemma format_08b_digits (b : Z) :
  is_byte b -> PyInt.format_08b b = digits_of 8 b.
Proof.
  intros Hb. unfold is_byte in Hb.
  rewrite <- (format_08b_bits_value (digits_of 8 b)).
  - rewrite bits_value_digits_of by (change (2 ^ Z.of_nat 8) with 256; lia).
    f_equal; lia.
  - apply length_digits_of. change (2 ^ Z.of_nat 8) with 256. lia.
  - apply all_bits_digits_of. change (2 ^ Z.of_nat 8) with 256. lia.
Qed.

(** The 32 digits of a word are its sign, exponent and mantissa fields. *)
Lemma word_digits (s : bool) (B M : Z) :
  0 <= B < 256 -> 0 <= M < 2 ^ 23 ->
  digits_of 32 (Struct.sign_field s + B * 2 ^ 23 + M)
  = (if s then "1" else "0") ++ PyInt.format_08b B ++ digits_of 23 M.
Proof.
  intros HB HM.
  assert (H23 : 0 < 2 ^ 23) by reflexivity.
  assert (Hrest : 0 <= B * 2 ^ 23 + M < 2 ^ 31)
    by (change (2 ^ 31) with (256 * 2 ^ 23); nia).
  set (w := Struct.sign_field s + B * 2 ^ 23 + M).
  assert (Hw : 0 <= w < 2 ^ 32).
  { subst w. unfold Struct.sign_field.
    change (2 ^ 32) with (2 ^ 31 + 2 ^ 31). destruct s; lia. }
  change 32%nat with (1 + 31)%nat.
  rewrite digits_of_split by exact Hw.
  change (2 ^ Z.of_nat 31) with (2 ^ 31).
  assert (E1 : w / 2 ^ 31 = if s then 1 else 0).
  { symmetry. apply Z.div_unique with (r := B * 2 ^ 23 + M); [lia |].
    subst w. unfold Struct.sign_field. destruct s; ring. }
  assert (E2 : w mod 2 ^ 31 = B * 2 ^ 23 + M).
  { symmetry. apply Z.mod_unique with (q := if s then 1 else 0); [lia |].
    subst w. unfold Struct.sign_field. destruct s; ring. }
  rewrite E1, E2.
  change 31%nat with (8 + 23)%nat.
  rewrite digits_of_split by exact Hrest.
  change (2 ^ Z.of_nat 23) with (2 ^ 23).
  replace ((B * 2 ^ 23 + M) / 2 ^ 23) with B
    by (apply Z.div_unique with (r := M); lia).
  replace ((B * 2 ^ 23 + M) mod 2 ^ 23) with M
    by (apply Z.mod_unique with (q := B); lia).
  rewrite format_08b_digits by (unfold is_byte; lia).
  destruct s; reflexivity.
Qed.

(** With the most significant byte first, the text of the native encoder
    is the word of the single precision value in 32 binary digits. *)
Lemma native_text_word (x : PyFloat.float) :
  valid_binary PyFloat.prec PyFloat.emax x = true ->
  native_bits BigEndian x
  = OK (digits_of 32 (Struct.bits_of_single (Struct.to_single x))).
Proof.
  intros Hv.
  destruct (single_of_bits_of_single _ (to_single_canonical x Hv)) as [_ Hw].
  destruct (native_fields_word x Hw) as (r & Hr & Hword & _).
  destruct (native_encoder_total BigEndian x) as (r' & Hr' & _ & HL & HA & _).
  rewrite Hr in Hr'. injection Hr' as <-.
  unfold native_bits. rewrite Hr. cbn [bind]. f_equal.
  apply (bits_value_inj _ _ 0); try assumption.
  - apply all_bits_digits_of. exact Hw.
  - rewrite length_digits_of by exact Hw. exact HL.
  - lia.
  - rewrite bits_value_digits_of by exact Hw. rewrite Hword. lia.
Qed.

(** The kept digits of the manual conversion, when the digits it drops
    are zeros. *)
Lemma truncated_digits (n : Z) (j : nat) :
  0 <= n < 2 ^ 52 -> (j <= 23)%nat ->
  (n / 2 ^ 29) mod 2 ^ Z.of_nat (23 - j) = 0 ->
  pad_take j (digits_of 52 n) ++ PyStr.replicate (23 - j) "0"
  = digits_of 23 (n / 2 ^ 29).
Proof.
  intros Hn Hj Hz.
  assert (H29 : 0 < 2 ^ 29) by reflexivity.
  assert (HN : 0 <= n / 2 ^ 29 < 2 ^ 23).
  { split; [apply Z.div_pos; lia |].
    apply Z.div_lt_upper_bound; [lia |]. exact (proj2 Hn). }
  assert (E52 : digits_of 52 n = digits_of (j + (52 - j)) n)
    by (f_equal; lia).
  rewrite E52, digits_of_split
    by (replace (j + (52 - j))%nat with 52%nat by lia; exact Hn).
  assert (P1 : 0 < 2 ^ Z.of_nat (52 - j)) by (apply Z.pow_pos_nonneg; lia).
  assert (P2 : 0 < 2 ^ Z.of_nat (23 - j)) by (apply Z.pow_pos_nonneg; lia).
  assert (Hq : 0 <= n / 2 ^ Z.of_nat (52 - j) < 2 ^ Z.of_nat j).
  { split; [apply Z.div_pos; lia |].
    apply Z.div_lt_upper_bound; [lia |]. rewrite <- Z.pow_add_r by lia.
    replace (Z.of_nat (52 - j) + Z.of_nat j) with 52 by lia. exact (proj2 Hn). }
  rewrite pad_take_app_long by (rewrite length_digits_of by exact Hq; lia).
  replace j with (String.length (digits_of j (n / 2 ^ Z.of_nat (52 - j)))) at 1
    by (apply length_digits_of; exact Hq).
  rewrite pad_take_full.
  assert (E23 : digits_of 23 (n / 2 ^ 29)
                = digits_of (j + (23 - j)) (n / 2 ^ 29)) by (f_equal; lia).
  rewrite E23, digits_of_split
    by (replace (j + (23 - j))%nat with 23%nat by lia; exact HN).
  rewrite Hz, digits_of_zero, Z.div_div by lia.
  f_equal. f_equal. f_equal. rewrite <- Z.pow_add_r by lia.
  f_equal. lia.
Qed.

(** The two encoders agree, most significant byte first, on the numbers
    from [2^-23] up to the largest single precision number that are
    multiples of [2^-23] and have no more than 24 significant bits. *)
Lemma encoders_agree_digits (s : bool) (m : positive) (e : Z) :
  valid_binary PyFloat.prec PyFloat.emax (S754_finite s m e) = true ->
  -23 <= unbiased_exponent m e <= 127 ->
  Zpos m mod 2 ^ Z.max 29 (- 23 - e) = 0 ->
  manual_float_conversion (S754_finite s m e)
  = OK ((if s then "1" else "0")
        ++ PyInt.format_08b (biased_exponent m e)
        ++ digits_of 23 (Zpos m / 2 ^ 29 - 2 ^ 23))
  /\ native_bits BigEndian (S754_finite s m e)
     = OK ((if s then "1" else "0")
           ++ PyInt.format_08b (biased_exponent m e)
           ++ digits_of 23 (Zpos m / 2 ^ 29 - 2 ^ 23)).
Proof.
  intros Hv HE Hmod.
  destruct (valid_double_digits s m e Hv) as (Hm & He & Hd).
  pose proof (digits2_pos_bounds m) as [Hlo Hhi].
  assert (Hd53 : Zpos (digits2_pos m) = 53).
  { apply Hd. unfold unbiased_exponent in HE.
    pose proof (Zdigits2_le (Zpos m) 53 ltac:(lia) ltac:(lia)) as Hle.
    cbn [Zdigits2] in Hle. lia. }
  assert (HEe : unbiased_exponent m e = 52 + e)
    by (unfold unbiased_exponent; lia).
  assert (HBe : biased_exponent m e = e + 179)
    by (unfold biased_exponent; lia).
  rewrite Hd53 in Hlo. change (2 ^ (53 - 1)) with (2 ^ 52) in Hlo.
  assert (H29 : 0 < 2 ^ 29) by reflexivity.
  assert (H23 : 0 < 2 ^ 23) by reflexivity.
  assert (Hm29 : Zpos m mod 2 ^ 29 = 0).
  { replace (Z.max 29 (- 23 - e)) with (29 + (Z.max 29 (- 23 - e) - 29)) in Hmod
      by ring.
    apply (mod_pow2_split (Zpos m) 29 (Z.max 29 (- 23 - e) - 29)
             ltac:(lia) ltac:(lia) Hmod). }
  pose proof (Z.div_mod (Zpos m) (2 ^ 29) ltac:(lia)) as Hdm.
  rewrite Hm29 in Hdm.
  set (Q := Zpos m / 2 ^ 29) in *.
  assert (HQ : 2 ^ 23 <= Q < 2 ^ 24).
  { change (2 ^ 52) with (2 ^ 29 * 2 ^ 23) in Hlo.
    change (2 ^ 53) with (2 ^ 29 * 2 ^ 24) in Hm. nia. }
  set (n := Zpos m mod 2 ^ 52).
  assert (Hn : n = Zpos m - 2 ^ 52)
    by (subst n; symmetry; apply Z.mod_unique with (q := 1);
        [change (2 ^ 53) with (2 * 2 ^ 52) in Hm; lia | ring]).
  assert (Hn29 : n / 2 ^ 29 = Q - 2 ^ 23).
  { symmetry. apply Z.div_unique with (r := 0); [lia |].
    rewrite Hn, Hdm. change (2 ^ 52) with (2 ^ 29 * 2 ^ 23). ring. }
  assert (Hnr : 0 <= n < 2 ^ 52)
    by (subst n; apply Z.mod_pos_bound; reflexivity).
  split.
  - (* the manual conversion *)
    destruct (Z.lt_ge_cases (unbiased_exponent m e) 0) as [Hneg | Hpos].
    + rewrite manual_lt_one by (assumption || lia).
      f_equal. f_equal. f_equal.
      rewrite expansion_digits.
      replace (Pos.to_nat (digits2_pos m) - 1)%nat with 52%nat
        by (apply Nat2Z.inj; rewrite Nat2Z.inj_sub, positive_nat_Z by lia; lia).
      change (2 ^ Z.of_nat 52) with (2 ^ 52). fold n.
      set (j := Z.to_nat (23 + unbiased_exponent m e)).
      replace (Z.to_nat (- unbiased_exponent m e)) with (23 - j)%nat by lia.
      rewrite <- Hn29. apply truncated_digits; [exact Hnr | lia |].
      rewrite Hn29.
      assert (Hk : Z.of_nat (23 - j) = - 23 - e - 29) by lia.
      rewrite Hk.
      assert (Pk : 0 < 2 ^ (- 23 - e - 29)) by (apply Z.pow_pos_nonneg; lia).
      replace (Z.max 29 (- 23 - e)) with (29 + (- 23 - e - 29)) in Hmod by lia.
      destruct (mod_pow2_split (Zpos m) 29 (- 23 - e - 29)
                  ltac:(lia) ltac:(lia) Hmod) as [_ HQm].
      fold Q in HQm.
      apply Z.mod_divide in HQm; [| lia]. destruct HQm as [t Ht].
      apply Z.mod_divide; [lia |].
      assert (Hle : 2 ^ (- 23 - e - 29) <= 2 ^ 23) by (apply Z.pow_le_mono_r; lia).
      exists (t - 2 ^ (23 - (- 23 - e - 29))).
      rewrite Z.mul_sub_distr_r, <- Z.pow_add_r by lia.
      replace (23 - (- 23 - e - 29) + (- 23 - e - 29)) with 23 by ring. lia.
    + rewrite manual_ge_one by (assumption || lia).
      f_equal. f_equal. f_equal.
      rewrite expansion_digits.
      replace (Pos.to_nat (digits2_pos m) - 1)%nat with 52%nat
        by (apply Nat2Z.inj; rewrite Nat2Z.inj_sub, positive_nat_Z by lia; lia).
      change (2 ^ Z.of_nat 52) with (2 ^ 52). fold n.
      rewrite <- Hn29.
      rewrite <- (truncated_digits n 23 Hnr ltac:(lia)).
      * change (23 - 23)%nat with 0%nat. cbn [PyStr.replicate].
        now rewrite append_empty.
      * change (2 ^ Z.of_nat (23 - 23)) with 1. apply Z.mod_1_r.
  - (* the native encoder *)
    rewrite native_text_word by exact Hv. f_equal.
    assert (Hsingle : Struct.to_single (S754_finite s m e)
                      = S754_finite s (Z.to_pos Q) (e + 29)).
    { cbn [Struct.to_single].
      destruct (binary_round_exact 24 128 s m e) as [_ H2].
      cbn zeta in H2. rewrite Hd53, fexp_single in H2.
      replace (Z.max (53 + e - 24) (-149)) with (e + 29) in H2 by lia.
      replace (e + 29 - e) with 29 in H2 by ring.
      rewrite H2 by (lia || assumption).
      replace (e + 29 <=? 128 - 24) with true by (symmetry; apply Z.leb_le; lia).
      reflexivity. }
    rewrite Hsingle. cbn [Struct.bits_of_single].
    rewrite Z2Pos.id by lia.
    replace (2 ^ 23 <=? Q) with true by (symmetry; apply Z.leb_le; lia).
    replace (e + 29 + 150) with (biased_exponent m e) by lia.
    apply word_digits; lia.
Qed.

Lemma all_bits_zeros (n : nat) : all_bits (PyStr.replicate n "0") = true.
Proof. induction n as [| n IH]; [reflexivity | exact IH]. Qed.

Lemma all_bits_pad_take (j : nat) (t : string) :
  all_bits t = true -> all_bits (pad_take j t) = true.
Proof.
  intros H. unfold pad_take, PyStr.ljust, PyStr.slice_to.
  rewrite all_bits_app, all_bits_zeros, (all_bits_substring t H). reflexivity.
Qed.

Lemma all_bits_format_08b (b : Z) :
  0 <= b -> all_bits (PyInt.format_08b b) = true.
Proof.
  intros Hb. destruct b as [| p | p]; try lia; [reflexivity |].
  cbn [PyInt.format_08b PyInt.bin_abs]. unfold PyStr.rjust.
  rewrite all_bits_app, all_bits_zeros, bin_pos_digits.
  apply all_bits_digits_of. rewrite positive_nat_Z.
  pose proof (digits2_pos_bounds p). lia.
Qed.

Lemma all_bits_expansion (w : nat) (s : bool) (m : positive) (e : Z) :
  all_bits (expansion_mantissa w (S754_finite s m e)) = true.
Proof.
  rewrite expansion_digits. apply all_bits_pad_take, all_bits_digits_of.
  apply Z.mod_pos_bound. apply Z.pow_pos_nonneg; lia.
Qed.

Lemma length_expansion (w : nat) (x : PyFloat.float) :
  String.length (expansion_mantissa w x) = w.
Proof.
  destruct x as [s | s | | s m e]; cbn [expansion_mantissa];
    try apply length_replicate.
  apply (pad_take_length w).
Qed.

(** ** The manual conversion on every double *)

(** What [manual_float_conversion] returns for a finite double
    [x = ± m * 2^e] other than zero, with [E] its exponent
    ([2^E <= |x| < 2^(E+1)]): [ValueError] below [2^-23]; otherwise the
    sign, [E + 127] in binary digits and a mantissa field of 23 digits
    that holds the first [min(23, 23 + E)] bits of the binary expansion
    behind the leading one, cut off without rounding, and zeros. *)
Theorem manual_conversion_spec (s : bool) (m : positive) (e : Z) :
  valid_binary PyFloat.prec PyFloat.emax (S754_finite s m e) = true ->
  manual_float_conversion (S754_finite s m e)
  = if unbiased_exponent m e <? -23 then Raise ValueError
    else OK ((if s then "1" else "0")
             ++ PyInt.format_08b (unbiased_exponent m e + 127)
             ++ PyStr.ljust 23 "0"
                  (expansion_mantissa
                     (Z.to_nat (Z.min 23 (23 + unbiased_exponent m e)))
                     (S754_finite s m e))).
Proof.
  intros Hv. destruct (unbiased_exponent m e <? -23) eqn:Hsmall.
  - apply Z.ltb_lt in Hsmall. now apply manual_tiny.
  - apply Z.ltb_ge in Hsmall. unfold PyStr.ljust. rewrite length_expansion.
    destruct (Z.lt_ge_cases (unbiased_exponent m e) 0) as [Hneg | Hpos].
    + rewrite manual_lt_one by (assumption || lia).
      replace (Z.min 23 (23 + unbiased_exponent m e))
        with (23 + unbiased_exponent m e) by lia.
      replace (23 - Z.to_nat (23 + unbiased_exponent m e))%nat
        with (Z.to_nat (- unbiased_exponent m e)) by lia.
      reflexivity.
    + rewrite manual_ge_one by assumption.
      replace (Z.min 23 (23 + unbiased_exponent m e)) with 23 by lia.
      change (Z.to_nat 23) with 23%nat. change (23 - 23)%nat with 0%nat.
      cbn [PyStr.replicate]. rewrite append_empty. reflexivity.
Qed.

Lemma manual_conversion_spec_witness :
  manual_float_conversion (S754_finite false 7205759403792794 (-56))
  = OK "00111101110011001100110011000000".
Proof.
  rewrite (manual_conversion_spec false 7205759403792794 (-56));
    vm_compute; reflexivity.
Defined.

(** The inputs on which [manual_float_conversion] returns: the finite
    doubles of magnitude at least [2^-23].  On the others it raises
    [OverflowError] for an infinity and [ValueError] for a NaN, a zero
    and a magnitude below [2^-23]. *)
Theorem manual_returns_iff (x : PyFloat.float) :
  valid_binary PyFloat.prec PyFloat.emax x = true ->
  (returns (manual_float_conversion x)
   <-> match x with
       | S754_finite _ m e => -23 <= unbiased_exponent m e
       | _ => False
       end)
  /\ (forall ex, manual_float_conversion x = Raise ex ->
        ex = if is_infinite x then OverflowError else ValueError).
Proof.
  intros Hv. destruct x as [s | s | | s m e].
  - assert (H : manual_float_conversion (S754_zero s) = Raise ValueError)
      by (destruct s; vm_compute; reflexivity).
    rewrite H. split.
    + split; [intros [t Ht]; discriminate Ht | intros []].
    + intros ex Hex. injection Hex as <-. reflexivity.
  - assert (H : manual_float_conversion (S754_infinity s) = Raise OverflowError)
      by (destruct s; vm_compute; reflexivity).
    rewrite H. split.
    + split; [intros [t Ht]; discriminate Ht | intros []].
    + intros ex Hex. injection Hex as <-. reflexivity.
  - assert (H : manual_float_conversion S754_nan = Raise ValueError)
      by (vm_compute; reflexivity).
    rewrite H. split.
    + split; [intros [t Ht]; discriminate Ht | intros []].
    + intros ex Hex. injection Hex as <-. reflexivity.
  - cbn [is_infinite].
    destruct (Z.lt_ge_cases (unbiased_exponent m e) (-23)) as [Hsmall | Hbig].
    + rewrite (manual_tiny s m e Hv Hsmall). split.
      * split; [intros [t Ht]; discriminate Ht | lia].
      * intros ex Hex. injection Hex as <-. reflexivity.
    + assert (H : returns (manual_float_conversion (S754_finite s m e))).
      { destruct (Z.lt_ge_cases (unbiased_exponent m e) 0) as [Hneg | Hpos].
        - rewrite manual_lt_one by (assumption || lia). eexists. reflexivity.
        - rewrite manual_ge_one by assumption. eexists. reflexivity. }
      split; [split; [intros _; exact Hbig | intros _; exact H] |].
      intros ex Hex. destruct H as [t Ht]. rewrite Ht in Hex. discriminate Hex.
Qed.

Lemma manual_returns_iff_witness :
  ~ returns (manual_float_conversion (S754_finite false 4503599627370496 (-76)))
  /\ returns (manual_float_conversion (S754_finite false 4503599627370496 (-75))).
Proof.
  split.
  - intros H.
    destruct (manual_returns_iff (S754_finite false 4503599627370496 (-76))
                eq_refl) as [[Hr _] _].
    specialize (Hr H). vm_compute in Hr. apply Hr. reflexivity.
  - destruct (manual_returns_iff (S754_finite false 4503599627370496 (-75))
                eq_refl) as [[_ Hr] _].
    apply Hr. vm_compute. discriminate.
Defined.

(** The text [manual_float_conversion] returns consists of binary
    digits, and it has the 32 digits of the format exactly when the
    magnitude is below [2^129]: from [2^129] on the exponent takes more
    than eight digits and the text is longer. *)
Theorem manual_text_length (s : bool) (m : positive) (e : Z) :
  valid_binary PyFloat.prec PyFloat.emax (S754_finite s m e) = true ->
  -23 <= unbiased_exponent m e ->
  exists t,
    manual_float_conversion (S754_finite s m e) = OK t
    /\ all_bits t = true
    /\ (32 <= String.length t)%nat
    /\ (String.length t = 32%nat <-> unbiased_exponent m e <= 128).
Proof.
  intros Hv HE.
  assert (Hb : 0 <= biased_exponent m e) by (unfold biased_exponent; lia).
  destruct (length_format_08b _ Hb) as [H8 H9].
  assert (Hsign : forall b : bool,
             String.length (if b then "1" else "0") = 1%nat
             /\ all_bits (if b then "1" else "0") = true)
    by (intros []; split; reflexivity).
  destruct (Hsign s) as [Ls As].
  assert (Hlen : forall mant : string,
             String.length mant = 23%nat -> all_bits mant = true ->
             let t := (if s then "1" else "0")
                      ++ PyInt.format_08b (biased_exponent m e) ++ mant in
             all_bits t = true
             /\ (32 <= String.length t)%nat
             /\ (String.length t = 32%nat <-> unbiased_exponent m e <= 128)).
  { intros mant Lm Am t. subst t.
    rewrite !all_bits_app, !length_app, As, Ls, Lm, Am, all_bits_format_08b
      by exact Hb.
    split; [reflexivity |].
    destruct (Z.le_gt_cases (biased_exponent m e) 255) as [Hle | Hgt].
    - rewrite (H8 Hle). unfold biased_exponent in Hle.
      split; [lia | split; [lia | reflexivity]].
    - specialize (H9 ltac:(lia)). unfold biased_exponent in Hgt.
      split; [lia | split; lia]. }
  destruct (Z.lt_ge_cases (unbiased_exponent m e) 0) as [Hneg | Hpos].
  - rewrite manual_lt_one by (assumption || lia). eexists.
    split; [reflexivity |]. apply Hlen.
    + rewrite length_app, length_expansion, length_replicate. lia.
    + rewrite all_bits_app, all_bits_expansion, all_bits_zeros. reflexivity.
  - rewrite manual_ge_one by assumption. eexists.
    split; [reflexivity |]. apply Hlen.
    + apply length_expansion.
    + apply all_bits_expansion.
Qed.

Lemma manual_text_length_witness :
  exists t,
    manual_float_conversion (S754_finite false 4503599627370496 77) = OK t
    /\ String.length t = 33%nat.
Proof.
  destruct (manual_text_length false 4503599627370496 77)
    as (t & Ht & _ & _ & _);
    [vm_compute; reflexivity | vm_compute; discriminate |].
  exists t. split; [exact Ht |].
  assert (E : manual_float_conversion (S754_finite false 4503599627370496 77)
              = OK "010000000000000000000000000000000")
    by (vm_compute; reflexivity).
  rewrite E in Ht. injection Ht as <-. reflexivity.
Defined.

(** With the most significant byte first, the manual conversion and the
    native encoder return the same text for every double [± m * 2^e] of
    magnitude from [2^-23] to below [2^128] that is a multiple of
    [2^-23] and has at most 24 significant bits: mantissa bits that the
    manual conversion would cut off, and the native encoder round, are
    all zero. *)
Theorem encoders_agree (s : bool) (m : positive) (e : Z) :
  valid_binary PyFloat.prec PyFloat.emax (S754_finite s m e) = true ->
  -23 <= unbiased_exponent m e <= 127 ->
  Zpos m mod 2 ^ Z.max 29 (- 23 - e) = 0 ->
  exists t,
    manual_float_conversion (S754_finite s m e) = OK t
    /\ native_bits BigEndian (S754_finite s m e) = OK t
    /\ String.length t = 32%nat.
Proof.
  intros Hv HE Hmod.
  destruct (encoders_agree_digits s m e Hv HE Hmod) as [Hman Hnat].
  eexists. split; [exact Hman |]. split; [exact Hnat |].
  assert (Hb : 0 <= biased_exponent m e) by (unfold biased_exponent; lia).
  destruct (length_format_08b _ Hb) as [H8 _].
  rewrite !length_app, H8 by (unfold biased_exponent; lia).
  rewrite length_digits_of.
  - destruct s; reflexivity.
  - destruct (valid_double_digits s m e Hv) as (Hm & _ & _).
    assert (H29 : 0 < 2 ^ 29) by reflexivity.
    assert (Hq : Zpos m / 2 ^ 29 < 2 ^ 24)
      by (apply Z.div_lt_upper_bound; [lia | exact Hm]).
    pose proof (digits2_pos_bounds m) as [Hlo _].
    assert (Hd53 : Zpos (digits2_pos m) = 53).
    { unfold unbiased_exponent in HE.
      destruct (valid_double_cases _ _ _ Hv) as [Hc _]. lia. }
    rewrite Hd53 in Hlo.
    assert (2 ^ 23 <= Zpos m / 2 ^ 29)
      by (apply Z.div_le_lower_bound; [lia | exact Hlo]).
    change (2 ^ Z.of_nat 23) with (2 ^ 23).
    change (2 ^ 24) with (2 ^ 23 + 2 ^ 23) in Hq. lia.
Qed.

Lemma encoders_agree_witness :
  exists t,
    manual_float_conversion (S754_finite true 5629499534213120 (-55)) = OK t
    /\ native_bits BigEndian (S754_finite true 5629499534213120 (-55)) = OK t
    /\ String.length t = 32%nat.
Proof.
  apply (encoders_agree true 5629499534213120 (-55)).
  - vm_compute. reflexivity.
  - vm_compute. split; discriminate.
  - vm_compute. reflexivity.
Defined.

(** ** The text of the native encoder *)

Lemma OK_inj {A : Type} (a b : A) : OK a = OK b -> a = b.
Proof. intros H. injection H as H. exact H. Qed.




(** ** Truncation against rounding *)

(** The word of a double of the normal range rounded to single
    precision: the word of the truncated mantissa, or the next word. *)
Lemma to_single_word (s : bool) (m : positive) (e : Z) :
  valid_binary 53 1024 (S754_finite s m e) = true ->
  -126 <= unbiased_exponent m e <= 127 ->
  exists c,
    Struct.bits_of_single (Struct.to_single (S754_finite s m e))
    = Struct.sign_field s + biased_exponent m e * 2 ^ 23
      + (Zpos m / 2 ^ 29 - 2 ^ 23) + c
    /\ 0 <= c <= 1.
Proof.
  intros Hv HE. unfold biased_exponent, unbiased_exponent in *.
  destruct (valid_double_digits s m e Hv) as (Hm & He & Hd).
  pose proof (digits2_pos_bounds m) as [Hlo Hhi].
  assert (Hd53 : Zpos (digits2_pos m) = 53).
  { apply Hd. pose proof (Zdigits2_le (Zpos m) 53 ltac:(lia) ltac:(lia)) as Hle.
    cbn [Zdigits2] in Hle. lia. }
  rewrite Hd53 in *. change (2 ^ (53 - 1)) with (2 ^ 52) in Hlo.
  assert (H29 : 0 < 2 ^ 29) by reflexivity.
  assert (H23 : 0 < 2 ^ 23) by reflexivity.
  set (fl := Zpos m / 2 ^ 29).
  assert (Hfl : 2 ^ 23 <= fl < 2 ^ 24).
  { subst fl. split.
    - apply Z.div_le_lower_bound; [lia | exact Hlo].
    - apply Z.div_lt_upper_bound; [lia | exact Hm]. }
  set (f := e + 29).
  cbn [Struct.to_single]. unfold binary_round.
  rewrite Hd53, fexp_single.
  replace (Z.max (53 + e - 24) (-149)) with f by (subst f; lia).
  unfold shl_align.
  destruct (f - e) as [| p | p] eqn:Hsub; try (subst f; lia).
  unfold binary_round_aux.
  pose proof (shr_fexp_single (Zpos m) e ltac:(lia)) as H1.
  cbn zeta in H1. rewrite fexp_single in H1. cbn [Zdigits2] in H1.
  rewrite Hd53 in H1.
  replace (Z.max (53 + e - 24) (-149)) with f in H1 by (subst f; lia).
  destruct H1 as [H1 _]. specialize (H1 ltac:(subst f; lia)).
  destruct (shr_fexp 24 128 (Zpos m) e loc_Exact) as [mrs1 e1].
  cbn [fst snd] in H1. destruct H1 as [Hm1 He1].
  replace (f - e) with 29 in Hm1 by (subst f; lia).
  replace (e + (f - e)) with f in He1 by lia. subst e1.
  fold fl in Hm1.
  pose proof (round_nearest_even_bounds (shr_m mrs1) (loc_of_shr_record mrs1)) as Hr.
  set (mx := round_nearest_even (shr_m mrs1) (loc_of_shr_record mrs1)) in *.
  rewrite Hm1 in Hr.
  pose proof (shr_fexp_single mx f ltac:(lia)) as H2.
  cbn zeta in H2. rewrite fexp_single in H2.
  assert (Hmxpos : 0 < mx) by lia.
  pose proof (Zdigits2_lt mx ltac:(lia)) as Hmxlt.
  pose proof (Zdigits2_pow mx Hmxpos) as Hmxge.
  assert (Hdx : 24 <= Zdigits2 mx <= 25).
  { split.
    - destruct (Z.le_gt_cases 24 (Zdigits2 mx)) as [| Hgt]; [assumption |].
      assert (2 ^ Zdigits2 mx <= 2 ^ 23) by (apply Z.pow_le_mono_r; lia). lia.
    - apply Zdigits2_le; [lia |]. change (2 ^ 25) with (2 * 2 ^ 24). lia. }
  set (n2 := Z.max (Zdigits2 mx + f - 24) (-149) - f) in *.
  destruct (shr_fexp 24 128 mx f loc_Exact) as [mrs2 e2].
  cbn [fst snd] in H2. destruct H2 as [H2a H2b].
  destruct (Z.eq_dec (Zdigits2 mx) 25) as [H25 | H24].
  - (* the rounded mantissa is 2^24 *)
    assert (Hn2 : n2 = 1) by (subst n2 f; lia).
    destruct (H2a ltac:(lia)) as [Hm2 He2]. rewrite Hn2 in Hm2, He2.
    change (2 ^ 1) with 2 in Hm2.
    rewrite H25 in Hmxge. change (2 ^ (25 - 1)) with (2 ^ 24) in Hmxge.
    assert (Hmx : mx = 2 ^ 24) by lia.
    rewrite Hmx in Hm2. change (2 ^ 24 / 2) with (2 ^ 23) in Hm2.
    rewrite Hm2. change (2 ^ 23) with (Zpos 8388608) at 1. cbv iota.
    exists 1. split; [| lia].
    change (128 - 24) with 104.
    destruct (e2 <=? 104) eqn:Hle.
    + cbn [Struct.bits_of_single]. change (2 ^ 23 <=? Zpos 8388608) with true.
      cbv iota. change (Zpos 8388608) with (2 ^ 23). subst f. lia.
    + apply Z.leb_gt in Hle. cbn [Struct.bits_of_single]. subst f. lia.
  - (* no carry *)
    assert (Hn2 : n2 <= 0) by (subst n2 f; lia).
    destruct (H2b Hn2) as [Hm2 He2]. rewrite Hm2, He2.
    assert (Hmx24 : mx < 2 ^ 24).
    { assert (2 ^ Zdigits2 mx <= 2 ^ 24) by (apply Z.pow_le_mono_r; lia). lia. }
    destruct mx as [| q | q] eqn:Emx; try lia.
    change (128 - 24) with 104.
    replace (f <=? 104) with true by (symmetry; apply Z.leb_le; subst f; lia).
    cbn [Struct.bits_of_single].
    replace (2 ^ 23 <=? Zpos q) with true by (symmetry; apply Z.leb_le; lia).
    exists (Zpos q - fl). split; [subst f; lia | lia].
Qed.

(** The mantissa field of the manual conversion when it keeps [j] bits:
    the truncated mantissa with its last [23 - j] bits cleared. *)
Lemma kept_digits (n : Z) (j : nat) :
  0 <= n < 2 ^ 52 -> (j <= 23)%nat ->
  pad_take j (digits_of 52 n) ++ PyStr.replicate (23 - j) "0"
  = digits_of 23 (n / 2 ^ 29 / 2 ^ Z.of_nat (23 - j) * 2 ^ Z.of_nat (23 - j)).
Proof.
  intros Hn Hj.
  assert (H29 : 0 < 2 ^ 29) by reflexivity.
  assert (P1 : 0 < 2 ^ Z.of_nat (52 - j)) by (apply Z.pow_pos_nonneg; lia).
  assert (P2 : 0 < 2 ^ Z.of_nat (23 - j)) by (apply Z.pow_pos_nonneg; lia).
  assert (Pj : 0 < 2 ^ Z.of_nat j) by (apply Z.pow_pos_nonneg; lia).
  assert (E52 : digits_of 52 n = digits_of (j + (52 - j)) n)
    by (f_equal; lia).
  rewrite E52, digits_of_split
    by (replace (j + (52 - j))%nat with 52%nat by lia; exact Hn).
  assert (Hq : 0 <= n / 2 ^ Z.of_nat (52 - j) < 2 ^ Z.of_nat j).
  { split; [apply Z.div_pos; lia |].
    apply Z.div_lt_upper_bound; [lia |]. rewrite <- Z.pow_add_r by lia.
    replace (Z.of_nat (52 - j) + Z.of_nat j) with 52 by lia. exact (proj2 Hn). }
  rewrite pad_take_app_long by (rewrite length_digits_of by exact Hq; lia).
  replace j with (String.length (digits_of j (n / 2 ^ Z.of_nat (52 - j)))) at 1
    by (apply length_digits_of; exact Hq).
  rewrite pad_take_full.
  assert (Hdd : n / 2 ^ 29 / 2 ^ Z.of_nat (23 - j) = n / 2 ^ Z.of_nat (52 - j)).
  { rewrite Z.div_div by lia. f_equal. rewrite <- Z.pow_add_r by lia.
    f_equal. lia. }
  rewrite Hdd.
  set (q := n / 2 ^ Z.of_nat (52 - j)) in *.
  assert (E23 : digits_of 23 (q * 2 ^ Z.of_nat (23 - j))
                = digits_of (j + (23 - j)) (q * 2 ^ Z.of_nat (23 - j)))
    by (f_equal; lia).
  rewrite E23, digits_of_split.
  - rewrite Z.div_mul, Z.mod_mul by lia. now rewrite digits_of_zero.
  - replace (Z.of_nat (j + (23 - j))) with (Z.of_nat j + Z.of_nat (23 - j)) by lia.
    rewrite Z.pow_add_r by lia. nia.
Qed.

(** From [2^-23] up to the largest single precision number the manual
    conversion truncates where the native encoder rounds: read as binary
    numbers, the text of the native encoder (most significant byte first)
    is at least the text of the manual conversion and exceeds it by at
    most one, for magnitudes from 1, and by at most [2^-E] below 1, where
    the manual conversion keeps [23 + E] mantissa bits only. *)
Theorem manual_truncates_native_rounds (s : bool) (m : positive) (e : Z) :
  valid_binary PyFloat.prec PyFloat.emax (S754_finite s m e) = true ->
  -23 <= unbiased_exponent m e <= 127 ->
  exists tm tn,
    manual_float_conversion (S754_finite s m e) = OK tm
    /\ native_bits BigEndian (S754_finite s m e) = OK tn
    /\ bits_value tm 0 <= bits_value tn 0
       <= bits_value tm 0 + 2 ^ Z.max 0 (- unbiased_exponent m e).
Proof.
  intros Hv HE.
  destruct (valid_double_digits s m e Hv) as (Hm & He & Hd).
  pose proof (digits2_pos_bounds m) as [Hlo Hhi].
  assert (Hd53 : Zpos (digits2_pos m) = 53).
  { apply Hd. unfold unbiased_exponent in HE.
    pose proof (Zdigits2_le (Zpos m) 53 ltac:(lia) ltac:(lia)) as Hle.
    cbn [Zdigits2] in Hle. lia. }
  assert (HEe : unbiased_exponent m e = 52 + e)
    by (unfold unbiased_exponent; lia).
  assert (HBe : biased_exponent m e = e + 179)
    by (unfold biased_exponent; lia).
  rewrite Hd53 in Hlo. change (2 ^ (53 - 1)) with (2 ^ 52) in Hlo.
  assert (H29 : 0 < 2 ^ 29) by reflexivity.
  assert (H23 : 0 < 2 ^ 23) by reflexivity.
  set (fl := Zpos m / 2 ^ 29).
  assert (Hfl : 2 ^ 23 <= fl < 2 ^ 24).
  { subst fl. split.
    - apply Z.div_le_lower_bound; [lia | exact Hlo].
    - apply Z.div_lt_upper_bound; [lia | exact Hm]. }
  set (n := Zpos m mod 2 ^ 52).
  assert (Hn : n = Zpos m - 2 ^ 52)
    by (subst n; symmetry; apply Z.mod_unique with (q := 1);
        [change (2 ^ 53) with (2 * 2 ^ 52) in Hm; lia | ring]).
  assert (Hnr : 0 <= n < 2 ^ 52)
    by (subst n; apply Z.mod_pos_bound; reflexivity).
  assert (Hn29 : n / 2 ^ 29 = fl - 2 ^ 23).
  { rewrite Hn. change (2 ^ 52) with (2 ^ 23 * 2 ^ 29).
    replace (Zpos m - 2 ^ 23 * 2 ^ 29) with (Zpos m + - 2 ^ 23 * 2 ^ 29) by ring.
    rewrite Z.div_add by lia. subst fl. ring. }
  (* the manual conversion keeps j bits *)
  set (j := Z.to_nat (Z.min 23 (23 + unbiased_exponent m e))).
  set (k := Z.of_nat (23 - j)).
  assert (Hk : k = Z.max 0 (- unbiased_exponent m e)) by (subst k j; lia).
  assert (Pk : 0 < 2 ^ k) by (apply Z.pow_pos_nonneg; lia).
  set (M' := (fl - 2 ^ 23) / 2 ^ k * 2 ^ k).
  assert (HM' : 0 <= M' <= fl - 2 ^ 23 /\ fl - 2 ^ 23 < M' + 2 ^ k).
  { subst M'. pose proof (Z.div_mod (fl - 2 ^ 23) (2 ^ k) ltac:(lia)) as Hdm.
    pose proof (Z.mod_pos_bound (fl - 2 ^ 23) (2 ^ k) Pk) as Hr.
    assert (0 <= (fl - 2 ^ 23) / 2 ^ k) by (apply Z.div_pos; lia).
    split; [split |]; nia. }
  assert (Hman : manual_float_conversion (S754_finite s m e)
                 = OK (digits_of 32 (Struct.sign_field s
                                     + biased_exponent m e * 2 ^ 23 + M'))).
  { rewrite word_digits by lia.
    assert (Hkept : pad_take j (digits_of 52 n) ++ PyStr.replicate (23 - j) "0"
                    = digits_of 23 M').
    { rewrite kept_digits by (exact Hnr || lia). rewrite Hn29. reflexivity. }
    rewrite <- Hkept.
    assert (Hexp : forall w, expansion_mantissa w (S754_finite s m e)
                             = pad_take w (digits_of 52 n)).
    { intros w. rewrite expansion_digits.
      replace (Pos.to_nat (digits2_pos m) - 1)%nat with 52%nat
        by (apply Nat2Z.inj; rewrite Nat2Z.inj_sub, positive_nat_Z by lia; lia).
      reflexivity. }
    destruct (Z.lt_ge_cases (unbiased_exponent m e) 0) as [Hneg | Hpos].
    - rewrite manual_lt_one by (assumption || lia). rewrite Hexp.
      replace (Z.to_nat (23 + unbiased_exponent m e)) with j by (subst j; lia).
      replace (Z.to_nat (- unbiased_exponent m e)) with (23 - j)%nat
        by (subst j; lia).
      reflexivity.
    - rewrite manual_ge_one by assumption. rewrite Hexp.
      replace j with 23%nat by (subst j; lia).
      change (23 - 23)%nat with 0%nat. cbn [PyStr.replicate].
      now rewrite append_empty. }
  destruct (to_single_word s m e Hv ltac:(lia)) as (c & Hword & Hc).
  fold fl in Hword.
  destruct (single_of_bits_of_single _
              (to_single_canonical (S754_finite s m e) Hv)) as [_ Hw].
  pose proof (native_text_word (S754_finite s m e) Hv) as Hnat.
  assert (Hwm : 0 <= Struct.sign_field s + biased_exponent m e * 2 ^ 23 + M'
                < 2 ^ 32).
  { unfold Struct.sign_field. change (2 ^ 32) with (512 * 2 ^ 23).
    change (2 ^ 31) with (256 * 2 ^ 23).
    change (2 ^ 24) with (2 * 2 ^ 23) in Hfl.
    assert (0 <= biased_exponent m e * 2 ^ 23 <= 254 * 2 ^ 23)
      by (split; [apply Z.mul_nonneg_nonneg; lia
                 | apply Z.mul_le_mono_nonneg_r; lia]).
    destruct s; lia. }
  eexists. eexists. split; [exact Hman |]. split; [exact Hnat |].
  rewrite !bits_value_digits_of by assumption.
  rewrite Hword, <- Hk. lia.
Qed.

Lemma manual_truncates_native_rounds_witness :
  exists tm tn,
    manual_float_conversion (S754_finite false 7205759403792794 (-56)) = OK tm
    /\ native_bits BigEndian (S754_finite false 7205759403792794 (-56)) = OK tn
    /\ bits_value tm 0 <= bits_value tn 0 <= bits_value tm 0 + 16.
Proof.
  apply (manual_truncates_native_rounds false 7205759403792794 (-56)).
  - vm_compute. reflexivity.
  - vm_compute. split; discriminate.
Defined.

(** ** Special values *)

(** With the most significant byte first, the exponent and mantissa
    entries of the native encoder tell the category of the value, as the
    table of special values has it: an all-zero exponent for zeros
    (mantissa zero) and subnormal numbers, an all-one exponent for
    infinities (mantissa zero) and NaN, any other exponent for a normal
    number; the value is the float rounded to single precision, so a
    double beyond the single precision range shows as an infinity and one
    below it as a zero.  The sign entry is the sign of the float, also for
    a zero. *)
Theorem native_fields_category (x : PyFloat.float) :
  valid_binary PyFloat.prec PyFloat.emax x = true ->
  exists r,
    decimal_to_ieee754_single BigEndian x = OK r
    /\ classify (Struct.to_single x)
       = (if exponent_biased r =? 0
          then (if bits_value (mantissa r) 0 =? 0 then Zero else Subnormal)
          else if exponent_biased r =? 255
               then (if bits_value (mantissa r) 0 =? 0 then Infinity else NaN)
               else Normal)
    /\ (PyFloat.is_nan x = false ->
        sign r = if sign_of x then "1" else "0").
Proof.
  intros Hv.
  destruct (single_of_bits_of_single _ (to_single_canonical x Hv)) as [Hy Hw].
  destruct (native_fields_word x Hw) as (r & Hr & _ & Hexp & Hman & _).
  exists r. split; [exact Hr |]. split.
  - rewrite Hexp, Hman. rewrite <- Hy at 1.
    apply single_of_bits_category.
  - intros Hn. destruct (native_sign_big_endian x Hv Hn) as (r' & Hr' & Hs).
    rewrite Hr in Hr'. apply OK_inj in Hr'. subst r'. exact Hs.
Qed.

Lemma native_fields_category_witness :
  exists r,
    decimal_to_ieee754_single BigEndian (S754_infinity true) = OK r
    /\ exponent_biased r = 255
    /\ bits_value (mantissa r) 0 = 0
    /\ sign r = "1".
Proof.
  destruct (native_fields_category (S754_infinity true) eq_refl)
    as (r & Hr & Hcat & Hsign).
  exists r. split; [exact Hr |].
  specialize (Hsign eq_refl). cbn [sign_of] in Hsign.
  cbn [Struct.to_single classify] in Hcat.
  destruct (exponent_biased r =? 0) eqn:E0.
  - destruct (bits_value (mantissa r) 0 =? 0); discriminate Hcat.
  - destruct (exponent_biased r =? 255) eqn:E255; [| discriminate Hcat].
    destruct (bits_value (mantissa r) 0 =? 0) eqn:Em; [| discriminate Hcat].
    apply Z.eqb_eq in E255. apply Z.eqb_eq in Em. auto.
Defined.
